(** * mimirate-calc: the transaction tree of [transaction-collection.js]

    A shallow embedding of [src/transaction-collection.js].

    - JavaScript numbers are IEEE-754 binary64 values: Rocq's primitive
      floats, so that [100 * (1 + 10 / 100)] evaluates as it does in the
      program.
    - Objects live in a store and are named by references: [Transaction]
      objects (and the [_.clone] copies made of them), and the bounds
      objects whose identity the recurrence cache compares.
    - A [Date] is an immutable value with an identity (the source never
      changes a Date in place, but compares two of them with [===]); its
      time is a whole number of days since 1970-01-01, the granularity the
      program works at, read in UTC.
    - Methods are computations in a state-and-error monad; the recursive
      ones take a fuel argument.
    - [moment], [moment-range] and [lodash] are outside the repository; the
      few operations the source uses are modelled next to their use:
      lodash 3 ([_.sum] with an iteratee), moment 2 (a moment is changed
      in place by [add]). Whether [toDate()] makes a new Date or hands out
      the Date the moment keeps its time in depends on the moment at hand
      (a new one from moment 2.14 on): where the moment is moved after the
      call, in the key point detectors, both readings are kept.

    Embedded: the constructor, [addChild], [setAmount], [getAmount],
    [gatherTransactions], [initRepeatTransactions], [generateRepeatDates],
    [valueOnDate], the key point detectors, [generatePath],
    [setStartDates], [cloneTransaction], the [Scenario] constructor and
    [cloneTransactionToScenario]; [serialize], [addChildren],
    [removeChild], [commitSuicide], and of a scenario [gatherTransactions],
    [getValueOnDate], [removeTransactionFromScenario] and
    [generateScenarioPath]. [addScenario] and [deleteScenario] are not:
    the scenarios of a transaction are not kept in the store. *)

From Stdlib Require Import ZArith Floats.PrimFloat Sorted.
From stdpp Require Import base option list strings.

Local Open Scope Z_scope.

(** ** Numbers *)

(** A property that holds a number: [null], [undefined] (absent) or a
    binary64 value. *)
Inductive jsnum : Type :=
| JNull
| JUndefined
| JNum (x : float).

Definition nan : float := (0 / 0)%float.

(** [ToNumber]. *)
Definition to_number (v : jsnum) : float :=
  match v with
  | JNull => 0%float
  | JUndefined => nan
  | JNum x => x
  end.

(** [ToBoolean] of a number: [0], [-0] and [NaN] are falsy. *)
Definition truthy_float (x : float) : bool :=
  negb (PrimFloat.eqb x 0 || PrimFloat.is_nan x).

Definition truthy_num (v : jsnum) : bool :=
  match v with
  | JNum x => truthy_float x
  | _ => false
  end.

(** [a === b] on number-valued properties. *)
Definition strict_eq_num (a b : jsnum) : bool :=
  match a, b with
  | JNull, JNull => true
  | JUndefined, JUndefined => true
  | JNum x, JNum y => PrimFloat.eqb x y
  | _, _ => false
  end.

(** lodash's [+value || 0], the summand of [_.sum]. *)
Definition plus_or_zero (v : jsnum) : float :=
  let n := to_number v in
  if truthy_float n then n else 0%float.

(** [_.sum] over an array with a one-argument iteratee ([arraySum]): the
    array is walked from its last element to its first,
    [result += +iteratee(array[length]) || 0]. *)
Definition lodash_sum (l : list jsnum) : float :=
  fold_right (fun v result => (result + plus_or_zero v)%float) 0%float l.

(** ** Dates *)

Record Date : Type := mkDate {
  date_id : nat;   (* which Date object this is *)
  date_day : Z     (* its time value, in days since the epoch *)
}.

(** What a loosely typed date slot can hold: [bounds.startDate],
    [bounds.endDate], the argument of [moment()]. [VObject] is an object
    that is not a Date and has none of moment's unit keys, such as
    [{startDate: null, endDate: d}]. *)
Inductive jsval : Type :=
| VNull
| VUndefined
| VDate (d : Date)
| VObject.

Definition of_date (d : option Date) : jsval :=
  match d with
  | Some d => VDate d
  | None => VNull
  end.

(** [ToNumber] of a date slot, in days; [None] is [NaN]. *)
Definition val_number (v : jsval) : option Z :=
  match v with
  | VNull => Some 0
  | VDate d => Some (date_day d)
  | VUndefined | VObject => None
  end.

(** [a < b] and [a >= b] after [ToNumber]; a comparison with [NaN] is
    false. *)
Definition js_lt (a b : jsval) : bool :=
  match val_number a, val_number b with
  | Some m, Some n => m <? n
  | _, _ => false
  end.

Definition js_ge (a b : jsval) : bool :=
  match val_number a, val_number b with
  | Some m, Some n => n <=? m
  | _, _ => false
  end.

(** [a === b] on Date-valued properties: the same object, or both null. *)
Definition strict_eq_date (a b : option Date) : bool :=
  match a, b with
  | None, None => true
  | Some d, Some e => Nat.eqb (date_id d) (date_id e)
  | _, _ => false
  end.

(** *** The civil calendar (for the month steps of moment) *)

Module Calendar.

Definition days_from_civil (y m d : Z) : Z :=
  let y' := if m <=? 2 then y - 1 else y in
  let era := y' / 400 in
  let yoe := y' - era * 400 in
  let mp := if 2 <? m then m - 3 else m + 9 in
  let doy := (153 * mp + 2) / 5 + d - 1 in
  let doe := yoe * 365 + yoe / 4 - yoe / 100 + doy in
  era * 146097 + doe - 719468.

Definition civil_from_days (z : Z) : Z * Z * Z :=
  let z' := z + 719468 in
  let era := z' / 146097 in
  let doe := z' - era * 146097 in
  let yoe := (doe - doe / 1460 + doe / 36524 - doe / 146096) / 365 in
  let doy := doe - (365 * yoe + yoe / 4 - yoe / 100) in
  let mp := (5 * doy + 2) / 153 in
  let d := doy - (153 * mp + 2) / 5 + 1 in
  let m := if mp <? 10 then mp + 3 else mp - 9 in
  let y := yoe + era * 400 in
  (if m <=? 2 then y + 1 else y, m, d).

Definition is_leap (y : Z) : bool :=
  ((y mod 4 =? 0) && negb (y mod 100 =? 0)) || (y mod 400 =? 0).

Definition days_in_month (y m : Z) : Z :=
  if m =? 2 then (if is_leap y then 29 else 28)
  else if (m =? 4) || (m =? 6) || (m =? 9) || (m =? 11) then 30
  else 31.

(** [m.add(1, 'months')]: the same day of the next month, clamped to
    that month's length. *)
Definition add_month (z : Z) : Z :=
  let '(y, m, d) := civil_from_days z in
  let y' := if m =? 12 then y + 1 else y in
  let m' := if m =? 12 then 1 else m + 1 in
  days_from_civil y' m' (Z.min d (days_in_month y' m')).

End Calendar.

(** *** moment and moment-range *)

(** [moment(v)] at day granularity; [None] is an invalid moment. [today]
    is the day the clock shows: [moment(undefined)] is the present, and
    [moment(o)] of an object without unit keys is the start of today. *)
Definition moment (today : Z) (v : jsval) : option Z :=
  match v with
  | VNull => None
  | VUndefined => Some today
  | VDate d => Some (date_day d)
  | VObject => Some today
  end.

(** [moment().range(s, e).by(unit, cb)] with a unit name: starting at
    [s], while the range contains the current moment, call back with a
    copy and add one unit. The steps grow by a day at least, so
    [e - s + 1] rounds are enough. *)
Fixpoint by_unit_loop (rounds : nat) (step : Z -> Z) (s e current : Z) : list Z :=
  match rounds with
  | O => []
  | S rounds' =>
      if (s <=? current) && (current <=? e)
      then current :: by_unit_loop rounds' step s e (step current)
      else []
  end.

Definition by_unit (step : Z -> Z) (s e : Z) : list Z :=
  by_unit_loop (Z.to_nat (e - s + 1)) step s e s.

(** [range.by(interval, cb)] with a range as the interval:
    [l = Math.floor(range / interval)], then [start + interval * i] for
    [i = 0 .. l]. *)
Definition by_range (len : Z) (s e : Z) : list Z :=
  let l := (e - s) / len in
  map (fun i : nat => s + len * Z.of_nat i) (seq 0 (Z.to_nat (l + 1))).

(** ** [generateRepeatDates] *)

Inductive result (E A : Type) : Type :=
| Ok (a : A)
| Err (e : E).
Arguments Ok {E A} a.
Arguments Err {E A} e.

Definition known_frequencies : list string :=
  ["none"; "month"; "week"; "biweek"; "day"]%string.

Definition indexOf_frequency (frequency : string) : bool :=
  existsb (String.eqb frequency) known_frequencies.

(** [start] and [end] are moments; a range with an invalid end point
    contains nothing and has length [NaN]. *)
Definition generateRepeatDates (frequency : string) (start end_ : option Z)
  : result string (list Z) :=
  if negb (indexOf_frequency frequency)
  then Err "Frequency must be none, day, week, biweek, or month."%string
  else
    let range (f : Z -> Z -> list Z) :=
      match start, end_ with
      | Some s, Some e => f s e
      | _, _ => []
      end in
    if String.eqb frequency "month" then Ok (range (by_unit Calendar.add_month))
    else if String.eqb frequency "week" then Ok (range (by_unit (fun z => z + 7)))
    else if String.eqb frequency "biweek" then Ok (range (by_range 14))
    else if String.eqb frequency "day" then Ok (range (by_unit (fun z => z + 1)))
    else Ok [].


(** ** Objects *)

(** A reference to a [Transaction] object, to a bounds object. *)
Abbreviation ref := nat (only parsing).
Abbreviation bref := nat (only parsing).

(** [series]: a string the caller supplied, or the value of the n-th call
    of [generateUUID]. *)
Inductive SeriesId : Type :=
| Named (s : string)
| Uuid (n : nat).

Definition truthy_string (s : string) : bool := negb (String.eqb s "").

Definition truthy_series (s : SeriesId) : bool :=
  match s with
  | Named s => truthy_string s
  | Uuid _ => true
  end.

(** [new Bounds(startDate, endDate)], and any object used in its place. *)
Record Bounds : Type := mkBounds {
  bounds_startDate : jsval;
  bounds_endDate : jsval
}.

(** [this.transactionSeries]: the stashed expansion and what it was
    computed from. *)
Record Stash : Type := mkStash {
  stash_txns : list ref;
  stash_amount : jsnum;
  stash_growth : jsnum;
  stash_frequency : string;
  stash_startDate : option Date;
  stash_bounds : bref
}.

Record Transaction : Type := mkTransaction {
  depth : Z;
  growth : jsnum;
  description : option string;
  amount : jsnum;
  startDate : option Date;
  endDate : option Date;
  frequency : string;
  transactionType : string;
  series : SeriesId;
  children : list ref;
  parentTransaction : option ref;
  scenarios : list nat;
  accumulator : list ref;
  (* absent until the first expansion *)
  transactionSeries : option Stash;
  (* read by setAmount; no statement of the source assigns it *)
  parent : option ref
}.

Definition set_depth (v : Z) (t : Transaction) : Transaction :=
  mkTransaction v (growth t) (description t) (amount t) (startDate t)
    (endDate t) (frequency t) (transactionType t) (series t) (children t)
    (parentTransaction t) (scenarios t) (accumulator t) (transactionSeries t)
    (parent t).

Definition set_amount (v : jsnum) (t : Transaction) : Transaction :=
  mkTransaction (depth t) (growth t) (description t) v (startDate t)
    (endDate t) (frequency t) (transactionType t) (series t) (children t)
    (parentTransaction t) (scenarios t) (accumulator t) (transactionSeries t)
    (parent t).

Definition set_startDate (v : option Date) (t : Transaction) : Transaction :=
  mkTransaction (depth t) (growth t) (description t) (amount t) v
    (endDate t) (frequency t) (transactionType t) (series t) (children t)
    (parentTransaction t) (scenarios t) (accumulator t) (transactionSeries t)
    (parent t).

Definition set_endDate (v : option Date) (t : Transaction) : Transaction :=
  mkTransaction (depth t) (growth t) (description t) (amount t) (startDate t)
    v (frequency t) (transactionType t) (series t) (children t)
    (parentTransaction t) (scenarios t) (accumulator t) (transactionSeries t)
    (parent t).

Definition set_frequency (v : string) (t : Transaction) : Transaction :=
  mkTransaction (depth t) (growth t) (description t) (amount t) (startDate t)
    (endDate t) v (transactionType t) (series t) (children t)
    (parentTransaction t) (scenarios t) (accumulator t) (transactionSeries t)
    (parent t).

Definition set_series (v : SeriesId) (t : Transaction) : Transaction :=
  mkTransaction (depth t) (growth t) (description t) (amount t) (startDate t)
    (endDate t) (frequency t) (transactionType t) v (children t)
    (parentTransaction t) (scenarios t) (accumulator t) (transactionSeries t)
    (parent t).

Definition set_children (v : list ref) (t : Transaction) : Transaction :=
  mkTransaction (depth t) (growth t) (description t) (amount t) (startDate t)
    (endDate t) (frequency t) (transactionType t) (series t) v
    (parentTransaction t) (scenarios t) (accumulator t) (transactionSeries t)
    (parent t).

Definition set_parentTransaction (v : option ref) (t : Transaction) : Transaction :=
  mkTransaction (depth t) (growth t) (description t) (amount t) (startDate t)
    (endDate t) (frequency t) (transactionType t) (series t) (children t)
    v (scenarios t) (accumulator t) (transactionSeries t) (parent t).

Definition set_accumulator (v : list ref) (t : Transaction) : Transaction :=
  mkTransaction (depth t) (growth t) (description t) (amount t) (startDate t)
    (endDate t) (frequency t) (transactionType t) (series t) (children t)
    (parentTransaction t) (scenarios t) v (transactionSeries t) (parent t).

Definition set_transactionSeries (v : option Stash) (t : Transaction) : Transaction :=
  mkTransaction (depth t) (growth t) (description t) (amount t) (startDate t)
    (endDate t) (frequency t) (transactionType t) (series t) (children t)
    (parentTransaction t) (scenarios t) (accumulator t) v (parent t).

(** The definition object ("blob") a Transaction is built from. Every
    field is optional; an absent number is [JUndefined]. *)
Record Blob : Type := mkBlob {
  blob_growth : jsnum;
  blob_description : option string;
  blob_amount : jsnum;
  blob_startDate : option Date;
  blob_endDate : option Date;
  blob_frequency : option string;
  blob_transactionType : option string;
  blob_series : option SeriesId
}.

Definition empty_blob : Blob :=
  mkBlob JUndefined None JUndefined None None None None None.

(** A Transaction object read as a blob: the same property names. *)
Definition blob_of (t : Transaction) : Blob :=
  mkBlob (growth t) (description t) (amount t) (startDate t) (endDate t)
    (Some (frequency t)) (Some (transactionType t)) (Some (series t)).

(** ** The store and the monad *)

Record State : Type := mkState {
  heap : list Transaction;   (* Transaction objects and their clones *)
  boundsHeap : list Bounds;  (* bounds objects *)
  nextDate : nat;            (* the identity of the next Date object *)
  nextUuid : nat;            (* how many UUIDs were generated *)
  today : Z                  (* the day the clock shows *)
}.

Definition empty_state (clock : Z) : State := mkState [] [] 0 0 clock.

Inductive outcome (A : Type) : Type :=
| Returns (a : A) (s : State)
| Throws (e : string)
| OutOfFuel
| Unmodelled (why : string).
Arguments Returns {A} a s.
Arguments Throws {A} e.
Arguments OutOfFuel {A}.
Arguments Unmodelled {A} why.

Definition M (A : Type) : Type := State -> outcome A.

Definition ret {A} (a : A) : M A := fun s => Returns a s.

Definition bind {A B} (m : M A) (k : A -> M B) : M B :=
  fun s =>
    match m s with
    | Returns a s' => k a s'
    | Throws e => Throws e
    | OutOfFuel => OutOfFuel
    | Unmodelled why => Unmodelled why
    end.

Declare Scope js_scope.
Delimit Scope js_scope with js.
Notation "x <- m ;; k" := (bind m (fun x => k))
  (at level 100, m at next level, right associativity) : js_scope.
Notation "m ;;; k" := (bind m (fun _ => k))
  (at level 100, right associativity) : js_scope.
Local Open Scope js_scope.

Definition throw {A} (e : string) : M A := fun _ => Throws e.
Definition out_of_fuel {A} : M A := fun _ => OutOfFuel.
Definition unmodelled {A} (why : string) : M A := fun _ => Unmodelled why.

Definition TypeError : string := "TypeError".

(** [forEach]. *)
Fixpoint forEach {A} (f : A -> M unit) (l : list A) : M unit :=
  match l with
  | [] => ret tt
  | a :: l' => f a ;;; forEach f l'
  end.

(** [_.map] with an effectful callback. *)
Fixpoint map_each {A B} (f : A -> M B) (l : list A) : M (list B) :=
  match l with
  | [] => ret []
  | a :: l' => b <- f a ;; bs <- map_each f l' ;; ret (b :: bs)
  end.

Definition new_object (t : Transaction) : M ref :=
  fun s =>
    Returns (length (heap s))
      (mkState (heap s ++ [t]) (boundsHeap s) (nextDate s) (nextUuid s) (today s)).

Definition load (r : ref) : M Transaction :=
  fun s =>
    match heap s !! r with
    | Some t => Returns t s
    | None => Unmodelled "no such object"
    end.

Definition update (r : ref) (f : Transaction -> Transaction) : M unit :=
  fun s =>
    match heap s !! r with
    | Some t =>
        Returns tt
          (mkState (<[r := f t]> (heap s)) (boundsHeap s) (nextDate s)
             (nextUuid s) (today s))
    | None => Unmodelled "no such object"
    end.

Definition new_bounds (b : Bounds) : M bref :=
  fun s =>
    Returns (length (boundsHeap s))
      (mkState (heap s) (boundsHeap s ++ [b]) (nextDate s) (nextUuid s) (today s)).

Definition load_bounds (r : bref) : M Bounds :=
  fun s =>
    match boundsHeap s !! r with
    | Some b => Returns b s
    | None => Unmodelled "no such object"
    end.

Definition update_bounds (r : bref) (f : Bounds -> Bounds) : M unit :=
  fun s =>
    match boundsHeap s !! r with
    | Some b =>
        Returns tt
          (mkState (heap s) (<[r := f b]> (boundsHeap s)) (nextDate s)
             (nextUuid s) (today s))
    | None => Unmodelled "no such object"
    end.

(** [new Date(day)]: a Date object nobody else holds. *)
Definition new_Date (day : Z) : M Date :=
  fun s =>
    Returns (mkDate (nextDate s) day)
      (mkState (heap s) (boundsHeap s) (S (nextDate s)) (nextUuid s) (today s)).

Definition clock : M Z := fun s => Returns (today s) s.

(** [generateUUID]: specified only as producing a string no earlier call
    produced. *)
Definition generateUUID : M SeriesId :=
  fun s =>
    Returns (Uuid (nextUuid s))
      (mkState (heap s) (boundsHeap s) (nextDate s) (S (nextUuid s)) (today s)).

(** ** [Transaction] *)

Definition copy_date (d : option Date) : M (option Date) :=
  match d with
  | Some d => d' <- new_Date (date_day d) ;; ret (Some d')
  | None => ret None
  end.

(** [new Transaction(blob)]: each field is [blob.f ? ... : default]. *)
Definition new_Transaction (blob : Blob) : M ref :=
  let growth := if truthy_num (blob_growth blob) then blob_growth blob else JNull in
  let description :=
    match blob_description blob with
    | Some d => if truthy_string d then Some d else None
    | None => None
    end in
  let amount :=
    if truthy_num (blob_amount blob) then JNum (to_number (blob_amount blob))
    else JNull in
  startDate <- copy_date (blob_startDate blob) ;;
  endDate <- copy_date (blob_endDate blob) ;;
  let frequency :=
    match blob_frequency blob with
    | Some f => if truthy_string f then f else "none"%string
    | None => "none"%string
    end in
  let transactionType :=
    match blob_transactionType blob with
    | Some f => if truthy_string f then f else "plain"%string
    | None => "plain"%string
    end in
  series <-
    match blob_series blob with
    | Some i => if truthy_series i then ret i else generateUUID
    | None => generateUUID
    end ;;
  new_object
    (mkTransaction (-1) growth description amount startDate endDate frequency
       transactionType series [] None [] [] None None).

(** The argument of [addChild]: a plain definition object or a
    Transaction object. *)
Inductive BlobArg : Type :=
| Plain (b : Blob)
| Node (r : ref).

(** [blob.constructor !== 'Transaction']: [constructor] is a function, and
    a function is never [===] to a string. *)
Definition constructor_is_not_the_string_Transaction (blob : BlobArg) : bool :=
  true.

Definition lodash_sum_loop (f : ref -> M jsnum)
  : list ref -> float -> M float :=
  fix loop (backwards : list ref) (result : float) : M float :=
    match backwards with
    | [] => ret result
    | c :: rest =>
        v <- f c ;;
        loop rest (result + plus_or_zero v)%float
    end.

(** [_.sum(array, function(c) { return f(c); })]: [arraySum], from the
    last element to the first. *)
Definition lodash_sum_by (f : ref -> M jsnum) (array : list ref) : M float :=
  lodash_sum_loop f (rev array) 0%float.

(** [getAmount]. *)
Fixpoint getAmount (fuel : nat) (this : ref) : M jsnum :=
  match fuel with
  | O => out_of_fuel
  | S fuel' =>
      t <- load this ;;
      (if (0 <? length (children t))%nat
       then
         s <- lodash_sum_by (getAmount fuel') (children t) ;;
         update this (set_amount (JNum s))
       else ret tt) ;;;
      t' <- load this ;;
      ret (amount t')
  end.

(** [setAmount(amount)]. *)
Fixpoint setAmount (fuel : nat) (this : ref) (amount : jsnum) : M unit :=
  match fuel with
  | O => out_of_fuel
  | S fuel' =>
      t <- load this ;;
      (if (0 <? length (children t))%nat
       then
         s <- lodash_sum_by (getAmount fuel') (children t) ;;
         update this (set_amount (JNum s))
       else update this (set_amount amount)) ;;;
      t' <- load this ;;
      match parent t' with
      | Some p => setAmount fuel' p JUndefined
      | None => ret tt
      end
  end.

(** [addChild(blob)]. *)
Definition addChild (fuel : nat) (this : ref) (blob : BlobArg) : M ref :=
  newChild <-
    (if constructor_is_not_the_string_Transaction blob
     then
       match blob with
       | Plain b => new_Transaction b
       | Node r => t <- load r ;; new_Transaction (blob_of t)
       end
     else
       match blob with
       | Node r => ret r
       | Plain _ => unmodelled "a plain object used as a Transaction"
       end) ;;
  t <- load this ;;
  update newChild (set_parentTransaction (Some this)) ;;;
  update newChild (set_depth (depth t + 1)) ;;;
  update this (fun t => set_children (children t ++ [newChild]) t) ;;;
  setAmount fuel this JUndefined ;;;
  ret newChild.

(** ** Recurrence expansion *)

(** What [initRepeatTransactions] and [gatherTransactions] hand back: a
    single Transaction object, an array of them, or nothing. *)
Inductive Gathered : Type :=
| GUndefined
| GOne (r : ref)
| GArray (l : list ref).

(** [array.concat(v)]: the elements of an array argument, any other value
    as one element. *)
Definition concat (array : list ref) (v : Gathered) : list ref :=
  match v with
  | GUndefined => array
  | GOne r => array ++ [r]
  | GArray l => array ++ l
  end.

(** [txn.growth !== 0 || txn.growth]. *)
Definition growth_applies (g : jsnum) : bool :=
  negb (strict_eq_num g (JNum 0)) || truthy_num g.

(** [for (i = 1; i < repeatTxns.length; i++)
       repeatTxns[i].amount = repeatTxns[i - 1].amount * (1 + (txn.growth / 100))],
    entered at index [i] with [previous = repeatTxns[i - 1]]. *)
Fixpoint grow (g : jsnum) (previous : ref) (rest : list ref) : M unit :=
  match rest with
  | [] => ret tt
  | r :: rest' =>
      p <- load previous ;;
      update r (set_amount (JNum (to_number (amount p) * (1 + to_number g / 100))%float)) ;;;
      grow g r rest'
  end.

(** The stash can be returned: [this.transactionSeries] exists and its
    five fields are [===] to the transaction's and to [bounds]. *)
Definition stash_hit (this_ txn : Transaction) (bounds : bref) : option (list ref) :=
  match transactionSeries this_ with
  | Some st =>
      if strict_eq_num (stash_amount st) (amount txn)
         && strict_eq_num (stash_growth st) (growth txn)
         && String.eqb (stash_frequency st) (frequency txn)
         && strict_eq_date (stash_startDate st) (startDate txn)
         && Nat.eqb (stash_bounds st) bounds
      then Some (stash_txns st)
      else None
  | None => None
  end.

(** [t = _.clone(txn)] with its [startDate], [endDate], [frequency] and
    [series] assigned. *)
Definition occurrence_of (txn : Transaction) (series : SeriesId) (d : Date)
  : Transaction :=
  set_series series
    (set_frequency "none" (set_endDate None (set_startDate (Some d) txn))).

(** The part of [initRepeatTransactions] after the cache check: generate
    the dates, clone, grow, stash. *)
Definition expand (this txn : ref) (bounds : bref) (start end_ : option Z)
  : M (list ref) :=
  t <- load txn ;;
  this_ <- load this ;;
  let series := series this_ in
  dates <-
    match generateRepeatDates (frequency t) start end_ with
    | Ok dates => ret dates
    | Err e => throw e
    end ;;
  repeatTxns <-
    map_each (fun m => d <- new_Date m ;; new_object (occurrence_of t series d))
      dates ;;
  (if growth_applies (growth t)
   then
     match repeatTxns with
     | [] => ret tt
     | first :: rest => grow (growth t) first rest
     end
   else ret tt) ;;;
  this_ <- load this ;;
  update this
    (set_transactionSeries
       (Some (mkStash repeatTxns (amount this_) (growth this_)
                (frequency this_) (startDate this_) bounds))) ;;;
  ret repeatTxns.

(** [initRepeatTransactions(txn, bounds)]. *)
Definition initRepeatTransactions (this txn : ref) (bounds : bref) : M Gathered :=
  t <- load txn ;;
  if String.eqb (frequency t) "none" then ret (GOne txn)
  else
    b <- load_bounds bounds ;;
    now <- clock ;;
    let start := moment now (of_date (startDate t)) in
    let end_ :=
      match endDate t with
      | None => moment now (bounds_endDate b)
      | Some d => moment now (VDate d)
      end in
    this_ <- load this ;;
    match stash_hit this_ t bounds with
    | Some txns => ret (GArray txns)
    | None =>
        repeatTxns <- expand this txn bounds start end_ ;;
        ret (GArray repeatTxns)
    end.

(** [this.parentTransaction.accumulator =
       this.parentTransaction.accumulator.concat(
         this.initRepeatTransactions(this, bounds))]. *)
Definition accumulate (this p : ref) (bounds : bref) : M unit :=
  pt <- load p ;;
  let acc := accumulator pt in
  g <- initRepeatTransactions this this bounds ;;
  update p (set_accumulator (concat acc g)).

(** [gatherTransactions(bounds)]. *)
Fixpoint gatherTransactions (fuel : nat) (this : ref) (bounds : bref) : M Gathered :=
  match fuel with
  | O => out_of_fuel
  | S fuel' =>
      t <- load this ;;
      match children t, parentTransaction t with
      | [], Some p =>
          (* leaf *)
          accumulate this p bounds ;;;
          ret GUndefined
      | _ :: _, Some p =>
          (* branch *)
          forEach (fun c => gatherTransactions fuel' c bounds ;;; ret tt)
            (children t) ;;;
          accumulate this p bounds ;;;
          update this (set_accumulator []) ;;;
          ret GUndefined
      | _ :: _, None =>
          (* root *)
          update this (set_accumulator []) ;;;
          forEach (fun c => gatherTransactions fuel' c bounds ;;; ret tt)
            (children t) ;;;
          t' <- load this ;;
          ret (GArray (accumulator t'))
      | [], None =>
          (* floater *)
          if negb (String.eqb (frequency t) "none")
          then initRepeatTransactions this this bounds
          else ret (GOne this)
      end
  end.

(** ** Values and paths *)

(** [_.groupBy]: the groups in the order their keys first occur, each
    with its members in array order. *)
Fixpoint group_insert {A} (k : Z) (v : A) (groups : list (Z * list A))
  : list (Z * list A) :=
  match groups with
  | [] => [(k, [v])]
  | (k', vs) :: rest =>
      if k =? k' then (k', vs ++ [v]) :: rest
      else (k', vs) :: group_insert k v rest
  end.

Definition groupBy {A} (l : list (Z * A)) : list (Z * list A) :=
  fold_left (fun groups kv => group_insert (fst kv) (snd kv) groups) l [].

(** [_.sortBy] on the date of the key: ascending and stable. *)
Fixpoint sort_insert {A} (p : Z * A) (sorted : list (Z * A)) : list (Z * A) :=
  match sorted with
  | [] => [p]
  | q :: rest =>
      if fst q <=? fst p then q :: sort_insert p rest
      else p :: q :: rest
  end.

Definition sortBy {A} (l : list (Z * A)) : list (Z * A) :=
  fold_left (fun sorted p => sort_insert p sorted) l [].

(** The day [moment(txn.startDate).format('YYYY-MM-DD')] names, and the
    amount, of each gathered transaction. A transaction without a start
    date falls under the key 'Invalid date', whose place in the sorted
    order is left to the host's sort: not modelled. *)
Definition dated_amounts (gathered : list ref) : M (list (Z * jsnum)) :=
  map_each (fun r =>
          t <- load r ;;
          match startDate t with
          | Some d => ret (date_day d, amount t)
          | None => unmodelled "a transaction without a start date"
          end)
       gathered.

(** The chain [groupBy / pairs / sortBy / map] that both [valueOnDate] and
    [generatePath] start with: the days in ascending order, each with the
    [_.sum] of its amounts. *)
Definition daily_values (gathered : list ref) : M (list (Z * float)) :=
  das <- dated_amounts gathered ;;
  ret (map (fun kv => (fst kv, lodash_sum (snd kv))) (sortBy (groupBy das))).

(** [valueOnDate(date, bounds, gatheredTransactions)]. *)
Definition valueOnDate (fuel : nat) (this : ref) (date : jsval) (bounds : bref)
  (gatheredTransactions : option (list ref)) : M float :=
  update_bounds bounds (fun b => mkBounds (bounds_startDate b) date) ;;;
  gathered <-
    match gatheredTransactions with
    | Some g => ret (GArray g)
    | None => gatherTransactions fuel this bounds
    end ;;
  match gathered with
  | GUndefined => ret 0%float
  | GOne _ => unmodelled "lodash over the properties of a Transaction"
  | GArray g =>
      transactions <- daily_values g ;;
      ret (lodash_sum (map (fun t => JNum (snd t)) transactions))
  end.

(** A point of a path. The synthetic first point has no [value]. *)
Record Point : Type := mkPoint {
  pt_value : option float;
  pt_d : jsval;
  pt_x : Z;
  pt_y : float
}.

Inductive KeyPointType : Type := kp_max | kp_min | kp_positive | kp_negative.

(** The Date that [start.add(n, 'days').toDate()] hands out in the loop
    of a detector. Whether [toDate()] makes a new Date or hands out the
    Date the moment keeps its time in is moment's choice: a new one from
    moment 2.14 on, the moment's own before. A new Date keeps the day of
    the call. The moment's own Date is moved by every later [start.add]
    of the loop, so that after the call it shows, in every point alike,
    the day the loop has left [start] on. Both days are kept; [None] is
    an invalid Date. *)
Record MomentDate : Type := mkMomentDate {
  day_at_call : option Z;
  day_at_return : option Z
}.

Inductive ToDate : Type := toDate_copies | toDate_shares.

(** The day a reader of the Date finds once the detector has returned. *)
Definition day_read (toDate : ToDate) (d : MomentDate) : option Z :=
  match toDate with
  | toDate_copies => day_at_call d
  | toDate_shares => day_at_return d
  end.

Record KeyPoint : Type := mkKeyPoint {
  kp_count : Z;
  kp_x : Z;
  kp_date : MomentDate;
  kp_value : float;
  kp_type : KeyPointType
}.

(** [start.add(n, 'days')]: changes the moment [start] itself, and is that
    moment. *)
Definition add_days (start : option Z) (n : Z) : option Z :=
  match start with
  | Some s => Some (s + n)
  | None => None
  end.

(** The moment [start] as the loop of [getInflectionPoints] leaves it:
    it is moved on every round, whether the round flags its point or
    not. [path] starts two indices before that of the round. *)
Fixpoint inflection_loop_end (start : option Z) (path : list Point) : option Z :=
  match path with
  | _ :: (p1 :: _ :: _) as rest => inflection_loop_end (add_days start (pt_x p1)) rest
  | _ => start
  end.

(** The loop of [getInflectionPoints], entered at index [i] with the
    moment [start] as the rounds before left it; [path] starts at index
    [i - 2]. The point is built, and [start] moved, on every round.
    [finally] is the day the whole loop leaves [start] on, the day the
    moment's own Date shows in the end. *)
Fixpoint inflection_loop (i : Z) (start finally : option Z) (path : list Point)
  : list KeyPoint :=
  match path with
  | p0 :: (p1 :: p2 :: _) as rest =>
      let deltaPrime := (pt_y p2 - pt_y p1)%float in
      let deltaDPrime := (pt_y p1 - pt_y p0)%float in
      let start' := add_days start (pt_x p1) in
      let point :=
        mkKeyPoint (i - 1) (pt_x p1) (mkMomentDate start' finally) (pt_y p1) in
      (if PrimFloat.ltb deltaPrime 0 && PrimFloat.ltb 0 deltaDPrime
       then [point kp_max]
       else if PrimFloat.ltb 0 deltaPrime && PrimFloat.ltb deltaDPrime 0
       then [point kp_min]
       else [])
      ++ inflection_loop (i + 1) start' finally rest
  | _ => []
  end.

(** [getInflectionPoints(path, bounds)]. *)
Definition getInflectionPoints (today_ : Z) (path : list Point) (bounds : Bounds)
  : list KeyPoint :=
  let start := moment today_ (bounds_startDate bounds) in
  inflection_loop 2 start (inflection_loop_end start path) path.

(** The moment [start] as the loop of [getZeroPoints] leaves it; [path]
    starts one index before that of the round. *)
Fixpoint zero_loop_end (start : option Z) (path : list Point) : option Z :=
  match path with
  | _ :: (p2 :: _) as rest => zero_loop_end (add_days start (pt_x p2)) rest
  | _ => start
  end.

(** The loop of [getZeroPoints], entered at index [i]; [path] starts at
    index [i - 1], and [finally] is the day the whole loop leaves [start]
    on. *)
Fixpoint zero_loop (i : Z) (start finally : option Z) (path : list Point)
  : list KeyPoint :=
  match path with
  | p1 :: (p2 :: _) as rest =>
      let start' := add_days start (pt_x p2) in
      let point := mkKeyPoint i (pt_x p2) (mkMomentDate start' finally) (pt_y p2) in
      (if PrimFloat.ltb 0 (pt_y p2) && PrimFloat.ltb (pt_y p1) 0
       then [point kp_positive]
       else if PrimFloat.ltb (pt_y p2) 0 && PrimFloat.ltb 0 (pt_y p1)
       then [point kp_negative]
       else [])
      ++ zero_loop (i + 1) start' finally rest
  | _ => []
  end.

(** [getZeroPoints(path, bounds)]: the loop starts at index 2, so it
    first looks at [path[1]] and [path[2]]. *)
Definition getZeroPoints (today_ : Z) (path : list Point) (bounds : Bounds)
  : list KeyPoint :=
  let start := moment today_ (bounds_startDate bounds) in
  zero_loop 2 start (zero_loop_end start (tail path)) (tail path).

Record KeyPoints : Type := mkKeyPoints {
  inflectionPts : list KeyPoint;
  zeroPts : list KeyPoint
}.

(** [getInflectionZeroPoints(path, bounds)]. *)
Definition getInflectionZeroPoints (today_ : Z) (path : list Point) (bounds : Bounds)
  : KeyPoints :=
  mkKeyPoints (getInflectionPoints today_ path bounds)
              (getZeroPoints today_ path bounds).

(** [_.findIndex]: the index of the first element that passes, or -1. *)
Fixpoint findIndex_from {A} (f : A -> bool) (i : Z) (l : list A) : Z :=
  match l with
  | [] => -1
  | a :: l' => if f a then i else findIndex_from f (i + 1) l'
  end.

Definition findIndex {A} (f : A -> bool) (l : list A) : Z := findIndex_from f 0 l.

(** What [generatePath] returns. With nothing gathered [keyPoints] is an
    empty array, [None] here. *)
Record PathResult : Type := mkPathResult {
  path : list Point;
  keyPoints : option KeyPoints
}.

(** The [_.reduce] of [generatePath]: one point a day, [y] the running
    balance. [acc] is kept with its last point first. *)
Fixpoint running (start : Z) (days : list (Date * float)) (acc : list Point)
  : list Point :=
  match days with
  | [] => rev acc
  | (date, v) :: days' =>
      let y0 := match acc with p :: _ => pt_y p | [] => 0%float end in
      running start days'
        (mkPoint (Some (-1 * v)%float) (VDate date) (date_day date - start)
                 (y0 + v)%float
         :: acc)
  end.

(** [generatePath(bounds, gatheredTransactions)]. *)
Definition generatePath (fuel : nat) (this : ref) (bounds : bref)
  (gatheredTransactions : option (list ref)) : M PathResult :=
  b <- load_bounds bounds ;;
  now <- clock ;;
  let start := moment now (bounds_startDate b) in
  gathered <-
    match gatheredTransactions with
    | Some g => ret (GArray g)
    | None => gatherTransactions fuel this bounds
    end ;;
  match gathered with
  | GUndefined => throw TypeError
  | GOne _ => unmodelled "lodash over the properties of a Transaction"
  | GArray [] => ret (mkPathResult [] None)
  | GArray g =>
      values <- daily_values g ;;
      days <- map_each (fun kv => d <- new_Date (fst kv) ;; ret (d, snd kv)) values ;;
      b <- load_bounds bounds ;;
      match start with
      | None => unmodelled "an invalid start of the bounds"
      | Some s =>
          let transactions := running s days [] in
          transactions <-
            match last transactions with
            | None => throw TypeError
            | Some l =>
                if js_lt (pt_d l) (bounds_endDate b)
                then
                  match moment now (bounds_endDate b) with
                  | Some e =>
                      ret (transactions
                             ++ [mkPoint (pt_value l) (bounds_endDate b) (e - s) (pt_y l)])
                  | None => unmodelled "an invalid end of the bounds"
                  end
                else ret transactions
            end ;;
          let startValueIdx :=
            findIndex (fun t => js_ge (pt_d t) (bounds_startDate b)) transactions in
          startValue <-
            (if 0 <? startValueIdx
             then
               match transactions !! Z.to_nat startValueIdx with
               | Some t => ret (mkPoint None (bounds_startDate b) 0 (pt_y t))
               | None => throw TypeError
               end
             else ret (mkPoint None (bounds_startDate b) 0 0%float)) ;;
          let transactions :=
            if 0 <? startValueIdx then drop (Z.to_nat startValueIdx) transactions
            else transactions in
          let transactions := startValue :: transactions in
          ret (mkPathResult transactions
                 (Some (getInflectionZeroPoints now transactions b)))
      end
  end.

(** ** Scenarios *)

(** [setStartDates(transaction, startDate, setall)]; a missing [setall]
    is [false]. *)
Fixpoint setStartDates (fuel : nat) (this : ref) (transaction : option ref)
  (startDate_ : Date) (setall : bool) : M unit :=
  match fuel with
  | O => out_of_fuel
  | S fuel' =>
      let self := match transaction with None => this | Some t => t end in
      match transaction with
      | None => throw TypeError   (* transaction.startDate, of null *)
      | Some tr =>
          t <- load tr ;;
          if js_lt (of_date (startDate t)) (VDate startDate_) && setall
          then update tr (set_startDate (Some startDate_))
          else if negb setall
          then update tr (set_startDate (Some startDate_))
          else ret tt
      end ;;;
      s <- load self ;;
      if (0 <? length (children s))%nat
      then forEach (fun child => setStartDates fuel' child None startDate_ false)
             (children s)
      else ret tt
  end.

(** [cloneTransaction(transaction, divorceParent, newSeries)]. *)
Definition cloneTransaction (this : ref) (transaction : option ref)
  (divorceParent newSeries : bool) : M ref :=
  let transaction := match transaction with None => this | Some t => t end in
  t <- load transaction ;;
  clone <-
    new_Transaction
      (mkBlob (growth t) (description t) (amount t) (startDate t) (endDate t)
              (Some (frequency t)) None None) ;;
  t <- load transaction ;;
  update clone
    (set_parentTransaction (if divorceParent then None else parentTransaction t)) ;;;
  s <- (if newSeries then generateUUID else ret (series t)) ;;
  update clone (set_series s) ;;;
  ret clone.

Record Scenario : Type := mkScenario {
  sc_name : option string;
  sc_startDate : Date;
  sc_transactions : option ref;
  sc_baseTransaction : ref
}.

(** [new Scenario(startDate, name, blob, baseTransaction)]. The call
    [valueOnDate({startDate: null, endDate: initEndDate}, initEndDate)]
    binds the object literal to the parameter [date] and the Date
    [initEndDate] to the parameter [bounds]; as a bounds object that Date
    has no [startDate] and, until [valueOnDate] assigns it, no [endDate]. *)
Definition new_Scenario (fuel : nat) (startDate_ : Date) (name : option string)
  (blob : Blob) (baseTransaction : ref) : M Scenario :=
  initEndDate <- new_Date (date_day startDate_ - 1) ;;
  transactions <- new_Transaction blob ;;
  initEndDate_as_bounds <- new_bounds (mkBounds VUndefined VUndefined) ;;
  v <- valueOnDate fuel baseTransaction VObject initEndDate_as_bounds None ;;
  addChild fuel transactions
    (Plain (mkBlob (JNum 0) (Some "Scenario Initial Amount"%string) (JNum v)
              (Some startDate_) None (Some "none"%string) None None)) ;;;
  ret (mkScenario name startDate_ (Some transactions) baseTransaction).

(** [cloneTransactionToScenario(transaction)]. *)
Definition cloneTransactionToScenario (fuel : nat) (this : Scenario)
  (transaction : ref) : M ref :=
  clone <- cloneTransaction transaction None true false ;;
  setStartDates fuel clone (Some clone) (sc_startDate this) true ;;;
  match sc_transactions this with
  | None => throw TypeError
  | Some root =>
      addChild fuel root (Node clone) ;;;
      r <- load root ;;
      match last (children r) with
      | Some c => ret c
      | None => unmodelled "undefined"
      end
  end.

(** ** The rest of the tree interface *)

(** [serialize()]: an object literal of eight properties, which is a
    definition object. *)
Definition serialize (this : ref) : M Blob :=
  t <- load this ;;
  ret (mkBlob (growth t) (description t) (amount t) (startDate t) (endDate t)
         (Some (frequency t)) (Some (transactionType t)) (Some (series t))).

(** A plain definition object with its [children] array, of more of
    them. [addChildren] gives a blob without that property an empty
    array: both are [BlobNode b []]. *)
#[local] Set Warnings "-register-all".
Inductive BlobTree : Type :=
| BlobNode (blob : Blob) (blob_children : list BlobTree).
#[local] Set Warnings "register-all".

(** The callback of [addChildren], with [self] the node the children are
    added to; [fuel] is for the aggregation [addChild] ends with. The
    constructor does not read [blob.children]. *)
Fixpoint addChildren_each (fuel : nat) (self : ref) (blob : BlobTree) : M unit :=
  match blob with
  | BlobNode b blob_children =>
      newChild <- addChild fuel self (Plain b) ;;
      if (0 <? length blob_children)%nat
      then forEach (addChildren_each fuel newChild) blob_children
      else ret tt
  end.

(** [addChildren(blobs)]. *)
Definition addChildren (fuel : nat) (this : ref) (blobs : list BlobTree) : M unit :=
  forEach (addChildren_each fuel this) blobs.

(** [array.splice(i, 1)] for a whole number [i > -1]: the element at [i]
    is taken out; past the end nothing is. *)
Definition splice_one {A} (i : Z) (array : list A) : list A :=
  delete (Z.to_nat i) array.

(** [removeChild(childIdx)], for a whole number. *)
Definition removeChild (this : ref) (childIdx : Z) : M unit :=
  if -1 <? childIdx
  then update this (fun t => set_children (splice_one childIdx (children t)) t)
  else ret tt.

(** [array.indexOf(x)] on an array of objects: the first index that holds
    the same object, or -1. *)
Definition indexOf (x : ref) (array : list ref) : Z :=
  findIndex (fun y => Nat.eqb y x) array.

(** [commitSuicide()]. *)
Definition commitSuicide (this : ref) : M unit :=
  t <- load this ;;
  match parentTransaction t with
  | Some p =>
      pt <- load p ;;
      let i := indexOf this (children pt) in
      removeChild p i
  | None => ret tt
  end.

(** ** The rest of the scenario interface *)

(** [===] on two series ids. *)
Definition series_eqb (a b : SeriesId) : bool :=
  match a, b with
  | Named x, Named y => String.eqb x y
  | Uuid m, Uuid n => Nat.eqb m n
  | _, _ => false
  end.

(** [_.includes(ids, id)]. *)
Definition includes (ids : list SeriesId) (id : SeriesId) : bool :=
  existsb (series_eqb id) ids.

(** [_(array).uniq('series').map(function(t) { return t.series; })] on
    the series of the array's elements: each id once, in the order of
    its first occurrence. *)
Fixpoint uniq_series (seen : list SeriesId) (l : list SeriesId) : list SeriesId :=
  match l with
  | [] => []
  | id :: l' =>
      if includes seen id then uniq_series seen l'
      else id :: uniq_series (seen ++ [id]) l'
  end.

(** [_.filter] with a callback that reads the store. *)
Fixpoint filter_each {A} (f : A -> M bool) (l : list A) : M (list A) :=
  match l with
  | [] => ret []
  | a :: l' =>
      keep <- f a ;;
      rest <- filter_each f l' ;;
      ret (if keep then a :: rest else rest)
  end.

(** [Scenario.prototype.gatherTransactions(bounds, scenarioOnly)]; a
    missing [scenarioOnly] is [false]. lodash takes [undefined] for an
    empty collection. *)
Definition Scenario_gatherTransactions (fuel : nat) (this : Scenario)
  (bounds : bref) (scenarioOnly : bool) : M Gathered :=
  match sc_transactions this with
  | None => throw TypeError   (* gatherTransactions, of null *)
  | Some transactions =>
      scenarioTransactions <- gatherTransactions fuel transactions bounds ;;
      if scenarioOnly then ret scenarioTransactions
      else
        scenarioSeriesIDs <-
          match scenarioTransactions with
          | GArray st =>
              ts <- map_each load st ;;
              ret (uniq_series [] (map series ts))
          | GUndefined => ret []
          | GOne _ => unmodelled "lodash over the properties of a Transaction"
          end ;;
        base <- gatherTransactions fuel (sc_baseTransaction this) bounds ;;
        uniqueBaseTransactions <-
          match base with
          | GArray bt =>
              filter_each
                (fun r =>
                   t <- load r ;;
                   let beforeTxn :=
                     js_lt (of_date (startDate t)) (VDate (sc_startDate this)) in
                   let afterTxn :=
                     js_ge (of_date (startDate t)) (VDate (sc_startDate this)) in
                   let series := includes scenarioSeriesIDs (series t) in
                   ret (beforeTxn || (afterTxn && negb series)))
                bt
          | GUndefined => ret []
          | GOne _ => unmodelled "lodash over the properties of a Transaction"
          end ;;
        match scenarioTransactions with
        | GArray st =>
            ret (GArray (if (0 <? length st)%nat then st ++ uniqueBaseTransactions
                         else []))
        | GUndefined => throw TypeError   (* length, of undefined *)
        | GOne _ => unmodelled "lodash over the properties of a Transaction"
        end
  end.

(** [Scenario.prototype.getValueOnDate(bounds)]: [_.sum] with a
    one-argument iteratee, as in [getAmount]. *)
Definition Scenario_getValueOnDate (fuel : nat) (this : Scenario) (bounds : bref)
  : M float :=
  gathered <- Scenario_gatherTransactions fuel this bounds false ;;
  match gathered with
  | GArray g =>
      lodash_sum_by (fun r => t <- load r ;; ret (amount t)) g
  | GUndefined => ret 0%float
  | GOne _ => unmodelled "lodash over the properties of a Transaction"
  end.

(** [removeTransactionFromScenario(transaction)]; the scenario is handed
    back as the call leaves it. *)
Definition removeTransactionFromScenario (this : Scenario) (transaction : ref)
  : M Scenario :=
  t <- load transaction ;;
  match parentTransaction t with
  | Some _ =>
      commitSuicide transaction ;;;
      ret this
  | None =>
      ret (mkScenario (sc_name this) (sc_startDate this) None
             (sc_baseTransaction this))
  end.

(** [generateScenarioPath(bounds)]. *)
Definition generateScenarioPath (fuel : nat) (this : Scenario) (bounds : bref)
  : M PathResult :=
  gatheredTransactions <- Scenario_gatherTransactions fuel this bounds false ;;
  match gatheredTransactions with
  | GArray g => generatePath fuel (sc_baseTransaction this) bounds (Some g)
  | GUndefined => generatePath fuel (sc_baseTransaction this) bounds None
  | GOne _ => unmodelled "lodash over the properties of a Transaction"
  end.

(** * Notions the properties are stated with *)

(** ** Definitions and frequencies *)

(** The frequencies that recur. *)
Definition recurring_frequencies : list string :=
  ["day"; "week"; "biweek"; "month"]%string.

(** A definition with one field replaced. *)
Definition with_blob_amount (v : jsnum) (b : Blob) : Blob :=
  mkBlob (blob_growth b) (blob_description b) v (blob_startDate b)
    (blob_endDate b) (blob_frequency b) (blob_transactionType b) (blob_series b).

(** Likewise for the growth. *)
Definition with_blob_growth (v : jsnum) (b : Blob) : Blob :=
  mkBlob v (blob_description b) (blob_amount b) (blob_startDate b)
    (blob_endDate b) (blob_frequency b) (blob_transactionType b) (blob_series b).

(** The definition [{amount: a}]. *)
Definition amount_blob (a : float) : Blob := with_blob_amount (JNum a) empty_blob.

(** [v ? v : null] on a number. *)
Definition or_null (v : jsnum) : jsnum := if truthy_num v then v else JNull.

(** [d ? d : null] on a string. *)
Definition or_no_string (d : option string) : option string :=
  match d with
  | Some d => if truthy_string d then Some d else None
  | None => None
  end.

(** The definition [addChild] reads from its argument. *)
Definition blob_view (s : State) (blob : BlobArg) : option Blob :=
  match blob with
  | Plain b => Some b
  | Node r => blob_of <$> heap s !! r
  end.

(** [f ? f : fallback] on a string. *)
Definition or_string (fallback : string) (f : option string) : string :=
  match f with
  | Some f => if truthy_string f then f else fallback
  | None => fallback
  end.

(** The object the constructor builds from [b], given the series and the
    Date objects it ends up with. *)
Definition constructed (b : Blob) (sr : SeriesId) (sd ed : option Date) : Transaction :=
  mkTransaction (-1) (or_null (blob_growth b)) (or_no_string (blob_description b))
    (if truthy_num (blob_amount b) then JNum (to_number (blob_amount b)) else JNull)
    sd ed (or_string "none" (blob_frequency b))
    (or_string "plain" (blob_transactionType b)) sr [] None [] [] None None.

(** Two definitions that say the same: equal field by field, the dates
    by their day. *)
Definition same_definition (d d' : Blob) : Prop :=
  blob_growth d' = blob_growth d
  /\ blob_description d' = blob_description d
  /\ blob_amount d' = blob_amount d
  /\ date_day <$> blob_startDate d' = date_day <$> blob_startDate d
  /\ date_day <$> blob_endDate d' = date_day <$> blob_endDate d
  /\ blob_frequency d' = blob_frequency d
  /\ blob_transactionType d' = blob_transactionType d
  /\ blob_series d' = blob_series d.

(** The transaction [t] says what the constructor makes of [b]. *)
Definition defined_by (b : Blob) (t : Transaction) : Prop :=
  growth t = or_null (blob_growth b)
  /\ description t = or_no_string (blob_description b)
  /\ date_day <$> startDate t = date_day <$> blob_startDate b
  /\ date_day <$> endDate t = date_day <$> blob_endDate b
  /\ frequency t = or_string "none" (blob_frequency b)
  /\ transactionType t = or_string "plain" (blob_transactionType b)
  /\ (forall i, blob_series b = Some i -> truthy_series i = true -> series t = i).

(** How many definition objects a blob with its children holds, and how
    deep they nest. *)
Fixpoint blob_count (blob : BlobTree) : nat :=
  match blob with
  | BlobNode _ blob_children => S (list_sum (map blob_count blob_children))
  end.

Fixpoint blob_height (blob : BlobTree) : nat :=
  match blob with
  | BlobNode _ blob_children => S (fold_right Nat.max 0%nat (map blob_height blob_children))
  end.

Definition forest_count (blobs : list BlobTree) : nat := list_sum (map blob_count blobs).

Definition forest_height (blobs : list BlobTree) : nat :=
  fold_right Nat.max 0%nat (map blob_height blobs).

(** The dates [first], [first + k], ... up to [e]. *)
Definition every (k first e : Z) : list Z :=
  map (fun i : nat => first + k * Z.of_nat i) (seq 0 (Z.to_nat ((e - first) / k + 1))).

(** The dates of a range, or none when an end point is invalid. *)
Definition in_range (f : Z -> Z -> list Z) (start end_ : option Z) : list Z :=
  match start, end_ with
  | Some s, Some e => f s e
  | _, _ => []
  end.

(** ** Trees *)

(** The children of every object are objects of the store, and [rank]
    falls from an object to its children: the store holds trees (or
    shared subtrees), no cycle. *)
Definition tree_shaped (rank : ref -> nat) (h : list Transaction) : Prop :=
  forall r t c,
    h !! r = Some t -> In c (children t) ->
    (rank c < rank r)%nat /\ is_Some (h !! c).

(** What a resolved amount adds to a sum of amounts: the number it is,
    and nothing when it is [null], [undefined], [NaN] or a zero. *)
Definition counted (v : jsnum) : float :=
  match v with
  | JNum x =>
      if PrimFloat.is_nan x then 0%float
      else if PrimFloat.eqb x 0 then 0%float
      else x
  | JNull | JUndefined => 0%float
  end.

(** The sum of the amounts of a list, written apart from [_.sum]: added
    up in floating point, the last of the list first, each amount for
    what it counts. *)
Definition sum_counting (vs : list jsnum) : float :=
  fold_left (fun total v => (total + counted v)%float) (rev vs) 0%float.

(** The same sum with every amount added as the number it is
    ([ToNumber]: [undefined] is [NaN]), the sum as C2 states it. *)
Definition sum_of_numbers (vs : list jsnum) : float :=
  fold_left (fun total v => (total + to_number v)%float) (rev vs) 0%float.

(** The recursive sum of C2, amended, read off a store without changing
    it: the stored amount of a node without children; otherwise the sum
    of the children's recursive sums, where [null], [undefined] and
    [NaN] add nothing. [None] when the tree below [r] is deeper than
    [height] or a reference leads nowhere. *)
Fixpoint recursive_sum (height : nat) (h : list Transaction) (r : ref)
  : option jsnum :=
  match height with
  | O => None
  | S height' =>
      match h !! r with
      | None => None
      | Some t =>
          if decide (children t = []) then Some (amount t)
          else
            match mapM (recursive_sum height' h) (children t) with
            | Some vs => Some (JNum (sum_counting vs))
            | None => None
            end
      end
  end.

(** The aggregation as the code computes it, read off a store without
    changing it: the stored amount of a node without children, the
    [_.sum] of the resolved amounts of the children otherwise. [height]
    bounds the depth looked at; [None] when the tree below [r] is deeper
    or a reference leads nowhere. *)
Fixpoint resolvedAmount (height : nat) (h : list Transaction) (r : ref)
  : option jsnum :=
  match height with
  | O => None
  | S height' =>
      match h !! r with
      | None => None
      | Some t =>
          match children t with
          | [] => Some (amount t)
          | _ :: _ =>
              match mapM (resolvedAmount height' h) (children t) with
              | Some vs => Some (JNum (lodash_sum vs))
              | None => None
              end
          end
      end
  end.

(** Two stores that differ at most in the amounts of nodes that have
    children. *)
Definition same_but_amounts (h h' : list Transaction) : Prop :=
  Forall2
    (fun t t' => exists a, t' = set_amount a t /\ (children t = [] -> a = amount t))
    h h'.

(** The same of two states, everything but the store being equal. *)
Definition amounts_rewritten (s s' : State) : Prop :=
  same_but_amounts (heap s) (heap s')
  /\ boundsHeap s' = boundsHeap s
  /\ nextDate s' = nextDate s
  /\ nextUuid s' = nextUuid s
  /\ today s' = today s.

(** Every child names its parent, and lies one level below it. *)
Definition well_linked (h : list Transaction) : Prop :=
  forall r t c,
    h !! r = Some t -> In c (children t) ->
    exists tc, h !! c = Some tc /\ parentTransaction tc = Some r
               /\ depth tc = depth t + 1.

(** No object has the [parent] property [setAmount] reads. *)
Definition no_parent_property (h : list Transaction) : Prop :=
  Forall (fun t => parent t = None) h.

(** A well-formed store. *)
Definition forest (rank : ref -> nat) (h : list Transaction) : Prop :=
  tree_shaped rank h /\ well_linked h /\ no_parent_property h.

(** A store whose children name their parents, one level down, without
    [parent] properties and with every depth below [D]. *)
Definition levelled (D : Z) (h : list Transaction) : Prop :=
  well_linked h /\ no_parent_property h /\ Forall (fun t => depth t < D) h.

(** [rank], with room under every object of [h] for new leaves. *)
Definition rank_with_room (rank : ref -> nat) (h : list Transaction) (r : ref) : nat :=
  if (r <? length h)%nat then S (rank r) else 0%nat.

(** A rank read off the depths. *)
Definition depth_rank (D : Z) (h : list Transaction) (r : nat) : nat :=
  match h !! r with
  | Some t => Z.to_nat (D - depth t)
  | None => 0%nat
  end.

(** The child [addChild] makes of the object [t0] the constructor built. *)
Definition as_child_of (this : ref) (t : Transaction) (t0 : Transaction) : Transaction :=
  set_depth (depth t + 1) (set_parentTransaction (Some this) t0).

(** The store [addChild] hands to [setAmount]. *)
Definition with_new_child (h : list Transaction) (this : ref) (t nt : Transaction)
  : list Transaction :=
  <[this := set_children (children t ++ [length h]) t]> h ++ [nt].

(** The state [s] with the object [r] replaced. *)
Definition with_object (s : State) (r : ref) (t : Transaction) : State :=
  mkState (<[r := t]> (heap s)) (boundsHeap s) (nextDate s) (nextUuid s) (today s).

(** [l] without the first occurrence of [x]. *)
Fixpoint remove_first (x : ref) (l : list ref) : list ref :=
  match l with
  | [] => []
  | y :: l' => if Nat.eqb y x then l' else y :: remove_first x l'
  end.

(** The position of the first element that passes. *)
Fixpoint position {A} (f : A -> bool) (l : list A) : option nat :=
  match l with
  | [] => None
  | a :: l' => if f a then Some 0%nat else S <$> position f l'
  end.

(** The tree at [r] mirrors the blob: the object says what the blob
    defines, has the blob's amount when the blob has no children, and its
    children mirror the blob's children, one for one and in their order.
    [lo] is a lower bound of the references in the tree. *)
#[local] Set Warnings "-register-all".
Inductive built_from (lo : nat) (h : list Transaction) : nat -> BlobTree -> Prop :=
| built_node (r : nat) (t : Transaction) (b : Blob) (blob_children : list BlobTree) :
    (lo <= r)%nat ->
    h !! r = Some t ->
    defined_by b t ->
    (blob_children = [] ->
     amount t = (if truthy_num (blob_amount b) then JNum (to_number (blob_amount b))
                 else JNull)) ->
    Forall2 (built_from lo h) (children t) blob_children ->
    built_from lo h r (BlobNode b blob_children).
#[local] Set Warnings "register-all".

(** [c] is a one-time transaction without children, under [p]. *)
Definition one_time_leaf_of (h : list Transaction) (p c : ref) : Prop :=
  exists tc, h !! c = Some tc /\ children tc = [] /\ parentTransaction tc = Some p
             /\ frequency tc = "none"%string.

(** [l] is a transaction without children under [b], of a frequency the
    generator knows. *)
Definition leaf_under (h : list Transaction) (b l : ref) : Prop :=
  exists tl, h !! l = Some tl /\ children tl = [] /\ parentTransaction tl = Some b
             /\ In (frequency tl) known_frequencies.

(** [c] is a one-time transaction under [root], over any such leaves. *)
Definition first_level (h : list Transaction) (root c : ref) : Prop :=
  exists tc, h !! c = Some tc /\ parentTransaction tc = Some root
             /\ frequency tc = "none"%string
             /\ Forall (leaf_under h c) (children tc).

(** The objects of [h] are in [h'], the same but for the two fields a
    gather pass works in: the accumulator and the stash. *)
Definition scratch_changed (h h' : list Transaction) : Prop :=
  forall r t, h !! r = Some t ->
    exists acc ts, h' !! r = Some (set_accumulator acc (set_transactionSeries ts t)).

(** ** Growth *)

(** The end of the recurrence: the definition's own end date, or else
    the end of the bounds. *)
Definition recurrence_end (now : Z) (t : Transaction) (b : Bounds) : option Z :=
  match endDate t with
  | None => moment now (bounds_endDate b)
  | Some d => moment now (VDate d)
  end.

(** Compound growth: the amount of occurrence [i] of a definition whose
    amount is [a] and whose growth is [g], each the one before it times
    [1 + g / 100]. *)
Fixpoint compounded (g a : jsnum) (i : nat) : jsnum :=
  match i with
  | O => a
  | S j => JNum (to_number (compounded g a j) * (1 + to_number g / 100))%float
  end.

(** The occurrences after the first, as the loop leaves them. *)
Fixpoint grown (g a : jsnum) (occs : list Transaction) : list Transaction :=
  match occs with
  | [] => []
  | o :: rest =>
      let a' := JNum (to_number a * (1 + to_number g / 100))%float in
      set_amount a' o :: grown g a' rest
  end.

(** The clones [initRepeatTransactions] makes for the dates, the first
    with a Date of identity [n]. *)
Fixpoint clones_from (t : Transaction) (sr : SeriesId) (n : nat) (dates : list Z)
  : list Transaction :=
  match dates with
  | [] => []
  | m :: rest => occurrence_of t sr (mkDate n m) :: clones_from t sr (S n) rest
  end.

(** ** Key points *)

(** The tests of the detectors: a turn of the path at its middle point,
    a crossing of zero between two points. *)
Definition turn (y0 y1 y2 : float) : option KeyPointType :=
  if PrimFloat.ltb (y2 - y1) 0 && PrimFloat.ltb 0 (y1 - y0) then Some kp_max
  else if PrimFloat.ltb 0 (y2 - y1) && PrimFloat.ltb (y1 - y0) 0 then Some kp_min
  else None.

Definition crossing (y1 y2 : float) : option KeyPointType :=
  if PrimFloat.ltb 0 y2 && PrimFloat.ltb y1 0 then Some kp_positive
  else if PrimFloat.ltb y2 0 && PrimFloat.ltb 0 y1 then Some kp_negative
  else None.

(** The days of the points [path[from] .. path[from + n - 1]] together. *)
Definition sum_x (path : list Point) (from n : nat) : Z :=
  fold_right (fun p acc => pt_x p + acc) 0 (take n (drop from path)).

(** The coordinates of a path. *)
Definition coordinates (p : list Point) : list (Z * float) :=
  map (fun q => (pt_x q, pt_y q)) p.

(** What a key point says to a reader, by what [toDate()] hands out. *)
Definition key_point_summary (toDate : ToDate) (k : KeyPoint)
  : KeyPointType * Z * float * option Z :=
  (kp_type k, kp_x k, kp_value k, day_read toDate (kp_date k)).

(** ** Days and paths *)

(** The day and the amount of the transaction [c]. *)
Definition dated (h : list Transaction) (c : ref) (da : Z * jsnum) : Prop :=
  exists tc d, h !! c = Some tc /\ startDate tc = Some d
               /\ da = (date_day d, amount tc).

(** The days of the transactions gathered, in ascending order, each with
    the sum of its amounts. *)
Definition day_totals (das : list (Z * jsnum)) : list (Z * float) :=
  map (fun kv => (fst kv, lodash_sum (snd kv))) (sortBy (groupBy das)).

(** The value [valueOnDate] makes of them. *)
Definition value_of_days (das : list (Z * jsnum)) : float :=
  lodash_sum (map (fun t => JNum (snd t)) (day_totals das)).

(** The Date objects [generatePath] makes for the days, the first with
    the identity [n]. *)
Fixpoint dates_from (n : nat) (values : list (Z * float)) : list (Date * float) :=
  match values with
  | [] => []
  | kv :: rest => (mkDate n (fst kv), snd kv) :: dates_from (S n) rest
  end.

(** The points of the [_.reduce], from the balance [y0] on. *)
Fixpoint balances (start : Z) (y0 : float) (days : list (Date * float)) : list Point :=
  match days with
  | [] => []
  | (date, v) :: days' =>
      mkPoint (Some (-1 * v)%float) (VDate date) (date_day date - start) (y0 + v)%float
      :: balances start (y0 + v)%float days'
  end.

(** ** Scenarios *)

(** The transaction [t] starts before the scenario does. *)
Definition starts_before (sc : Scenario) (t : Transaction) : Prop :=
  js_lt (of_date (startDate t)) (VDate (sc_startDate sc)) = true.

(** No transaction of the array [l] is of the series of [t]. *)
Definition no_counterpart (h : list Transaction) (l : list ref) (t : Transaction) : Prop :=
  forall c tc, In c l -> h !! c = Some tc -> series tc <> series t.

(** The scenario with its tree taken away. *)
Definition emptied (sc : Scenario) : Scenario :=
  mkScenario (sc_name sc) (sc_startDate sc) None (sc_baseTransaction sc).

(** The blob of the 'Scenario Initial Amount'. *)
Definition initial_amount_blob (startDate_ : Date) (v : float) : Blob :=
  mkBlob (JNum 0) (Some "Scenario Initial Amount"%string) (JNum v) (Some startDate_)
    None (Some "none"%string) None None.

(** ** The date loop *)

(** [step] moves every one of the [n] days from [z] on to a later day. *)
Fixpoint grows_from (step : Z -> Z) (n : nat) (z : Z) : bool :=
  match n with
  | O => true
  | S n' => (z <? step z) && grows_from step n' (z + 1)
  end.

(** ** Example stores *)

(** A node with the given amount, children and parent. *)
Definition node (a : jsnum) (cs : list ref) (p : option ref) : Transaction :=
  mkTransaction (match p with Some _ => 0 | None => -1 end) JNull None a None
    None "none" "plain" (Uuid 0) cs p [] [] None None.

(** A one-time transaction object, for examples. *)
Definition one_off (day : Z) (a : float) : Transaction :=
  mkTransaction 0 JNull None (JNum a) (Some (mkDate 0 day)) None "none"
    "plain" (Uuid 0) [] None [] [] None None.

(** A root whose stored amount (99) is stale, over the leaves 3 and 4. *)
Definition stale_root_store : State :=
  mkState [node (JNum 99) [1; 2]%nat None;
           node (JNum 3) [] (Some 0%nat);
           node (JNum 4) [] (Some 0%nat)]
    [] 0 3 0.

(** A rank for a store whose object 0 is the root of all the others. *)
Definition root_rank (r : nat) : nat :=
  match r with
  | 0%nat => 1%nat
  | _ => 0%nat
  end.

(** A weekly 100 that grows by 10 percent, from day 0. *)
Definition weekly_100 : Transaction :=
  mkTransaction 0 (JNum 10) None (JNum 100) (Some (mkDate 0 0)) None "week"
    "plain" (Uuid 1) [] (Some 0%nat) [] [] None None.

(** The bounds [day 0, day 14]. *)
Definition two_weeks : Bounds := mkBounds (VDate (mkDate 1 0)) (VDate (mkDate 2 14)).

(** A root over [weekly_100], and the bounds [two_weeks]. *)
Definition weekly_store : State :=
  mkState [node (JNum 100) [1%nat] None; weekly_100] [two_weeks] 3 2 0.

(** A transaction of 7 on day 20. *)
Definition base_child : Transaction :=
  mkTransaction 0 JNull None (JNum 7) (Some (mkDate 0 20)) None "none" "plain"
    (Uuid 1) [] (Some 0%nat) [] [] None None.

(** The root of the scenario's tree. *)
Definition fork_root : Transaction := node JNull [3%nat] None.

(** A base root over [base_child], and the tree of a scenario forked at
    day 10: its root over the 'Scenario Initial Amount'. *)
Definition fork_store : State :=
  mkState [node (JNum 7) [1%nat] None;
           base_child;
           fork_root;
           mkTransaction 0 JNull (Some "Scenario Initial Amount"%string) JNull
             (Some (mkDate 2 10)) None "none" "plain" (Uuid 3) []
             (Some 2%nat) [] [] None None]
    [] 3 4 0.

(** The scenario of that store. *)
Definition fork : Scenario :=
  mkScenario (Some "what if"%string) (mkDate 1 10) (Some 2%nat) 0%nat.

(** A scenario of the same store that starts on day 30, after
    [base_child]. *)
Definition later_fork : Scenario :=
  mkScenario (Some "what if later"%string) (mkDate 9 30) (Some 2%nat) 0%nat.

(** A rank for that store: the two roots above their children. *)
Definition fork_rank (r : nat) : nat :=
  match r with
  | 0%nat | 2%nat => 1%nat
  | _ => 0%nat
  end.

(** The store of [fork_store] with the bounds [two_weeks]. *)
Definition fork_store_with_bounds : State :=
  mkState (heap fork_store) [two_weeks] 3 4 0.

(** A root over a one-time 100 on day 5, under which 100 recur every
    week; and the bounds [two_weeks]. *)
Definition nested_store : State :=
  mkState [node JNull [1%nat] None;
           mkTransaction 0 JNull None (JNum 100) (Some (mkDate 0 5)) None "none" "plain"
             (Uuid 1) [2%nat] (Some 0%nat) [] [] None None;
           mkTransaction 1 JNull None (JNum 100) (Some (mkDate 0 0)) None "week" "plain"
             (Uuid 2) [] (Some 1%nat) [] [] None None]
    [two_weeks] 3 3 0.

(** ** Example programs *)

(** The amounts of the transactions of an array. *)
Definition amounts_of (l : list ref) : M (list jsnum) :=
  map_each (fun r => t <- load r ;; ret (amount t)) l.

(** The days of the transactions of an array. *)
Definition days_of (l : list ref) : M (list (option Z)) :=
  map_each (fun r => t <- load r ;; ret (date_day <$> startDate t)) l.

(** What was handed back, as an array. *)
Definition array_of (g : Gathered) : list ref :=
  match g with
  | GArray l => l
  | GOne r => [r]
  | GUndefined => []
  end.

(** How many objects the store holds. *)
Definition heap_size : M nat := fun s => Returns (length (heap s)) s.

(** [root = new Transaction();
     a = root.addChild({amount: amount, growth: growth, frequency: frequency,
                        startDate: new Date(day 0)})]. *)
Definition recurring_program (frequency_ : string) (amount_ growth_ : float)
  : M (ref * ref) :=
  root <- new_Transaction empty_blob ;;
  d <- new_Date 0 ;;
  a <- addChild 3 root
         (Plain (mkBlob (JNum growth_) None (JNum amount_) (Some d) None
                   (Some frequency_) None None)) ;;
  ret (root, a).

(** [new Bounds(new Date(s), new Date(e))]. *)
Definition make_bounds (s e : Z) : M bref :=
  ds <- new_Date s ;;
  de <- new_Date e ;;
  new_bounds (mkBounds (VDate ds) (VDate de)).

(** [root = new Transaction(); a = root.addChild({amount: 10});
     b = a.addChild({amount: 5})]. *)
Definition grandchild_program : M (ref * ref * ref) :=
  root <- new_Transaction empty_blob ;;
  a <- addChild 3 root (Plain (amount_blob 10)) ;;
  b <- addChild 3 a (Plain (amount_blob 5)) ;;
  ret (root, a, b).

(** [root = new Transaction(); a = root.addChild({amount: 5});
     b = root.addChild({amount: 3}); a.setAmount(NaN)]; then what
    [root.getAmount()] returns, and the leaves' [a.getAmount()] and
    [b.getAmount()]. *)
Definition nan_leaf_program : M (jsnum * list jsnum) :=
  root <- new_Transaction empty_blob ;;
  a <- addChild 3 root (Plain (amount_blob 5)) ;;
  b <- addChild 3 root (Plain (amount_blob 3)) ;;
  setAmount 3 a (JNum nan) ;;;
  v <- getAmount 3 root ;;
  va <- getAmount 3 a ;;
  vb <- getAmount 3 b ;;
  ret (v, [va; vb]).

(** A weekly 100 growing by 10 percent from day 0, expanded over the
    bounds [day 0, day 14]: three occurrences. *)
Definition compounding_program : M (list jsnum) :=
  ra <- recurring_program "week" 100 10 ;;
  let a := snd ra in
  b <- make_bounds 0 14 ;;
  g <- initRepeatTransactions a a b ;;
  amounts_of (array_of g).

(** A one-time 50 on day 5 under a root, and its path over
    [day 0, day 10]. *)
Definition one_off_path_program : M (PathResult * bref) :=
  root <- new_Transaction empty_blob ;;
  d <- new_Date 5 ;;
  addChild 3 root
    (Plain (mkBlob JUndefined None (JNum 50) (Some d) None None None None)) ;;;
  b <- make_bounds 0 10 ;;
  p <- generatePath 3 root b None ;;
  ret (p, b).

(** A weekly 100 from day 0 with no end date, expanded over a bounds
    object [day 0, day 14]; then [valueOnDate(day 28, bounds)] on the
    same bounds object, which assigns [bounds.endDate]; then a fresh
    expansion, and the value over a new bounds object with the same
    dates. *)
Record StashRun : Type := mkStashRun {
  first_expansion : list ref;
  second_expansion : list ref;         (* nothing changed in between *)
  untouched : bool;                    (* ... and the store was left as it was *)
  stale_value : float;                 (* valueOnDate(day 28, the same bounds) *)
  served_days : list (option Z);       (* what the gather behind it was served *)
  fresh_days : list (option Z);        (* the uncached expansion, same bounds *)
  fresh_value : float                  (* valueOnDate(day 28, new bounds) *)
}.

Definition stash_program : M StashRun :=
  ra <- recurring_program "week" 100 0 ;;
  let root := fst ra in
  let a := snd ra in
  b <- make_bounds 0 14 ;;
  g1 <- initRepeatTransactions a a b ;;
  n1 <- heap_size ;;
  t1 <- load a ;;
  g2 <- initRepeatTransactions a a b ;;
  n2 <- heap_size ;;
  t2 <- load a ;;
  d28 <- new_Date 28 ;;
  stale <- valueOnDate 3 root (VDate d28) b None ;;
  g3 <- initRepeatTransactions a a b ;;
  served <- days_of (array_of g3) ;;
  now <- clock ;;
  bb <- load_bounds b ;;
  fresh <- expand a a b (Some 0) (moment now (bounds_endDate bb)) ;;
  fresh_days <- days_of fresh ;;
  b' <- make_bounds 0 28 ;;
  d28' <- new_Date 28 ;;
  v <- valueOnDate 3 root (VDate d28') b' None ;;
  ret (mkStashRun (array_of g1) (array_of g2)
         (Nat.eqb n1 n2
          && match transactionSeries t1, transactionSeries t2 with
             | Some st1, Some st2 =>
                 bool_decide (stash_txns st1 = stash_txns st2)
             | _, _ => false
             end)
         stale served fresh_days v).

(** The same definition, expanded, its amount changed to 200, expanded
    again: the two arrays and the amounts of the second. *)
Definition changed_amount_program : M (list ref * list ref * list jsnum) :=
  ra <- recurring_program "week" 100 0 ;;
  let a := snd ra in
  b <- make_bounds 0 14 ;;
  g1 <- initRepeatTransactions a a b ;;
  update a (set_amount (JNum 200)) ;;;
  g2 <- initRepeatTransactions a a b ;;
  amounts <- amounts_of (array_of g2) ;;
  ret (array_of g1, array_of g2, amounts).

(** Three one-time children of a root: +5 on day 1, -8 on day 2, +7 on
    day 3; the path over [day 0, day 3]. *)
Definition zigzag_program : M PathResult :=
  root <- new_Transaction empty_blob ;;
  d1 <- new_Date 1 ;;
  addChild 3 root
    (Plain (mkBlob JUndefined None (JNum 5) (Some d1) None None None None)) ;;;
  d2 <- new_Date 2 ;;
  addChild 3 root
    (Plain (mkBlob JUndefined None (JNum (-8)) (Some d2) None None None None)) ;;;
  d3 <- new_Date 3 ;;
  addChild 3 root
    (Plain (mkBlob JUndefined None (JNum 7) (Some d3) None None None None)) ;;;
  b <- make_bounds 0 3 ;;
  generatePath 3 root b None.

(** A base tree with one child, 1 a day from day 0 with no end date; a
    scenario forked from it at day 10; then the base tree's value through
    day 9, asked for as [valueOnDate(date, bounds)] is declared. *)
Record ForkRun : Type := mkForkRun {
  fork_children : nat;                    (* children of the scenario's tree *)
  fork_description : option string;
  fork_day : option Z;
  fork_amount : jsnum;
  base_value_through_day_9 : float
}.

Definition fork_program : M ForkRun :=
  ra <- recurring_program "day" 1 0 ;;
  let root := fst ra in
  start <- new_Date 10 ;;
  sc <- new_Scenario 3 start (Some "what if"%string) empty_blob root ;;
  tree <-
    match sc_transactions sc with
    | Some r => load r
    | None => throw TypeError
    end ;;
  leaf <-
    match children tree with
    | c :: _ => load c
    | [] => throw TypeError
    end ;;
  d9 <- new_Date 9 ;;
  b <- new_bounds (mkBounds VNull (VDate d9)) ;;
  v <- valueOnDate 3 root (VDate d9) b None ;;
  ret (mkForkRun (length (children tree)) (description leaf)
         (date_day <$> startDate leaf) (amount leaf) v).

(** A transaction on day 20 with a child, under a root from which a
    scenario is forked at day 10; the transaction is cloned into the
    scenario. The original as it ends up, and the clone. *)
Definition clone_program : M (Transaction * Transaction) :=
  root <- new_Transaction empty_blob ;;
  d20 <- new_Date 20 ;;
  a <- addChild 3 root
         (Plain (mkBlob JUndefined None (JNum 7) (Some d20) None None None None)) ;;
  addChild 3 a
    (Plain (mkBlob JUndefined None (JNum 7) (Some d20) None None None None)) ;;;
  d10 <- new_Date 10 ;;
  sc <- new_Scenario 3 d10 (Some "what if"%string) empty_blob root ;;
  c <- cloneTransactionToScenario 3 sc a ;;
  ta <- load a ;;
  tc <- load c ;;
  ret (ta, tc).

(** A transaction on day 5 over the children +5 and -5, so that its
    amount is 0, under a root from which a scenario is forked at day 10;
    the transaction is cloned into the scenario. The original as it ends
    up, and the clone. *)
Definition balanced_clone_program : M (Transaction * Transaction) :=
  root <- new_Transaction empty_blob ;;
  d5 <- new_Date 5 ;;
  a <- addChild 3 root
         (Plain (mkBlob JUndefined None JUndefined (Some d5) None None None None)) ;;
  addChild 3 a
    (Plain (mkBlob JUndefined None (JNum 5) (Some d5) None None None None)) ;;;
  addChild 3 a
    (Plain (mkBlob JUndefined None (JNum (-5)) (Some d5) None None None None)) ;;;
  d10 <- new_Date 10 ;;
  sc <- new_Scenario 3 d10 (Some "what if"%string) empty_blob root ;;
  c <- cloneTransactionToScenario 3 sc a ;;
  ta <- load a ;;
  tc <- load c ;;
  ret (ta, tc).

(** * Properties *)

(** ** Running a computation step by step *)

Lemma bind_Returns {A B} (m : M A) (k : A -> M B) (s s' : State) (a : A) :
  m s = Returns a s' -> bind m k s = k a s'.
Proof. unfold bind. intros ->. reflexivity. Qed.

Lemma load_Returns (s : State) (r : ref) (t : Transaction) :
  heap s !! r = Some t -> load r s = Returns t s.
Proof. unfold load. intros ->. reflexivity. Qed.

Lemma update_Returns (s : State) (r : ref) (t : Transaction)
  (f : Transaction -> Transaction) :
  heap s !! r = Some t ->
  update r f s
  = Returns tt (mkState (<[r := f t]> (heap s)) (boundsHeap s) (nextDate s)
                  (nextUuid s) (today s)).
Proof. unfold update. intros ->. reflexivity. Qed.

Lemma load_bounds_Returns (s : State) (r : bref) (b : Bounds) :
  boundsHeap s !! r = Some b -> load_bounds r s = Returns b s.
Proof. unfold load_bounds. intros ->. reflexivity. Qed.

(** ** The date series *)

Example weekly_dates :
  generateRepeatDates "week" (Some 0) (Some 70)
  = Ok [0; 7; 14; 21; 28; 35; 42; 49; 56; 63; 70].
Proof. reflexivity. Qed.

Example biweekly_dates :
  generateRepeatDates "biweek" (Some 0) (Some 70) = Ok [0; 14; 28; 42; 56; 70].
Proof. reflexivity. Qed.

(* 2015-01-31 is day 16466; a month later is 2015-02-28, and the clamped
   day of the month sticks. *)
Example monthly_dates :
  generateRepeatDates "month" (Some 16466) (Some 16570)
  = Ok [16466; 16494; 16522; 16553].
Proof. vm_compute. reflexivity. Qed.

(** C9, as stated, fails at ['none']: a frequency outside
    [{day, week, biweek, month}] for which the generator returns (an empty
    series) instead of failing. *)
Lemma generateRepeatDates_accepts_none :
  ~ In "none"%string recurring_frequencies
  /\ generateRepeatDates "none" (Some 0) (Some 10) = Ok [].
Proof.
  split; [|reflexivity].
  unfold recurring_frequencies. simpl. intros [H|[H|[H|[H|[]]]]]; discriminate.
Qed.

Lemma indexOf_frequency_In (f : string) :
  indexOf_frequency f = true <-> In f known_frequencies.
Proof.
  unfold indexOf_frequency. rewrite existsb_exists. split.
  - intros (x & Hx & E). apply String.eqb_eq in E. subst. exact Hx.
  - intros H. exists f. split; [exact H | apply String.eqb_refl].
Qed.

(** C9 (amended): the generator fails exactly for the frequencies outside
    [{none, day, week, biweek, month}]; given ['none'] it returns the empty
    series; and the expander hands a transaction whose frequency is
    ['none'] back before it would call the generator. *)
Theorem generateRepeatDates_fails_outside_its_list
  (f : string) (start end_ : option Z) (s : State) (this txn : ref)
  (bounds : bref) (t : Transaction)
  (Htxn : heap s !! txn = Some t) (Hnone : frequency t = "none"%string) :
  ((exists e, generateRepeatDates f start end_ = Err e) <-> ~ In f known_frequencies)
  /\ (In f recurring_frequencies -> exists dates, generateRepeatDates f start end_ = Ok dates)
  /\ generateRepeatDates "none" start end_ = Ok []
  /\ initRepeatTransactions this txn bounds s = Returns (GOne txn) s.
Proof.
  repeat split.
  - intros [e He] Hin. apply indexOf_frequency_In in Hin.
    unfold generateRepeatDates in He. rewrite Hin in He. simpl in He.
    repeat (destruct (String.eqb _ _) in He; try discriminate).
  - intros Hout. unfold generateRepeatDates.
    destruct (indexOf_frequency f) eqn:E.
    + apply indexOf_frequency_In in E. contradiction.
    + simpl. eauto.
  - intros Hin. unfold recurring_frequencies in Hin. simpl in Hin.
    destruct Hin as [<-|[<-|[<-|[<-|[]]]]]; eexists; reflexivity.
  - unfold initRepeatTransactions, bind, load. rewrite Htxn, Hnone. reflexivity.
Qed.

Lemma generateRepeatDates_fails_outside_its_list_witness :
  ((exists e, generateRepeatDates "year" (Some 0) (Some 400) = Err e)
   <-> ~ In "year"%string known_frequencies)
  /\ (In "year"%string recurring_frequencies
      -> exists dates, generateRepeatDates "year" (Some 0) (Some 400) = Ok dates)
  /\ generateRepeatDates "none" (Some 0) (Some 400) = Ok []
  /\ initRepeatTransactions 0%nat 0%nat 0%nat
       (mkState [one_off 5 50] [mkBounds VNull VNull] 1 1 0)
     = Returns (GOne 0%nat) (mkState [one_off 5 50] [mkBounds VNull VNull] 1 1 0).
Proof.
  apply (generateRepeatDates_fails_outside_its_list "year" (Some 0) (Some 400)
           (mkState [one_off 5 50] [mkBounds VNull VNull] 1 1 0) 0%nat 0%nat 0%nat
           (one_off 5 50)); reflexivity.
Defined.

(** ** Rounds of the date loop *)

Section Rounds.

Variable step : Z -> Z.
Variables s e : Z.
Hypothesis step_grows : forall z, s <= z <= e -> z < step z.

(** More rounds than the days left change nothing: the loop has left the
    range by then. *)
Lemma by_unit_loop_enough :
  forall (n : nat) (current : Z),
    e - current < Z.of_nat n ->
    by_unit_loop (S n) step s e current = by_unit_loop n step s e current.
Proof.
  induction n as [|n IH]; intros current H.
  - simpl. destruct (current <=? e) eqn:E; [lia|]. rewrite andb_false_r. reflexivity.
  - change (by_unit_loop (S (S n)) step s e current)
      with (if (s <=? current) && (current <=? e)
            then current :: by_unit_loop (S n) step s e (step current) else []).
    change (by_unit_loop (S n) step s e current)
      with (if (s <=? current) && (current <=? e)
            then current :: by_unit_loop n step s e (step current) else []).
    destruct ((s <=? current) && (current <=? e)) eqn:E; [|reflexivity].
    apply andb_true_iff in E. destruct E as [E1 E2].
    rewrite IH; [reflexivity|].
    assert (current < step current) by (apply step_grows; lia). lia.
Qed.

Lemma by_unit_enough (extra : nat) :
  by_unit_loop (extra + Z.to_nat (e - s + 1)) step s e s = by_unit step s e.
Proof.
  unfold by_unit. induction extra as [|extra IH]; [reflexivity|].
  rewrite <- IH. apply by_unit_loop_enough. lia.
Qed.

End Rounds.

Lemma grows_from_spec (step : Z -> Z) (n : nat) :
  forall z0 : Z,
    grows_from step n z0 = true ->
    forall z, z0 <= z < z0 + Z.of_nat n -> z < step z.
Proof.
  induction n as [|n IH]; intros z0 H z Hz; [lia|].
  cbn [grows_from] in H. apply andb_true_iff in H. destruct H as [H0 Hrest].
  destruct (Z.eq_dec z z0) as [->|Hne]; [apply Z.ltb_lt; exact H0|].
  apply (IH (z0 + 1) Hrest). lia.
Qed.

(** A month later is a later day, on every day from 1970 to 2189. *)
Lemma add_month_grows_checked :
  grows_from Calendar.add_month (Z.to_nat 80000) 0 = true.
Proof. vm_compute. reflexivity. Qed.

Lemma add_month_grows (z : Z) : 0 <= z < 80000 -> z < Calendar.add_month z.
Proof.
  intros H.
  apply (grows_from_spec Calendar.add_month (Z.to_nat 80000) 0 add_month_grows_checked).
  rewrite Z2Nat.id; lia.
Qed.

(** The rounds allowed are enough for the three units. *)
Lemma days_rounds_enough (s e : Z) (extra : nat) :
  by_unit_loop (extra + Z.to_nat (e - s + 1)) (fun z => z + 1) s e s
  = by_unit (fun z => z + 1) s e.
Proof. apply by_unit_enough. intros. lia. Qed.

Lemma weeks_rounds_enough (s e : Z) (extra : nat) :
  by_unit_loop (extra + Z.to_nat (e - s + 1)) (fun z => z + 7) s e s
  = by_unit (fun z => z + 7) s e.
Proof. apply by_unit_enough. intros. lia. Qed.

Lemma months_rounds_enough (s e : Z) (extra : nat) :
  0 <= s -> e < 80000 ->
  by_unit_loop (extra + Z.to_nat (e - s + 1)) Calendar.add_month s e s
  = by_unit Calendar.add_month s e.
Proof. intros Hs He. apply by_unit_enough. intros z Hz. apply add_month_grows. lia. Qed.

Example the_epoch : Calendar.civil_from_days 0 = (1970, 1, 1).
Proof. reflexivity. Qed.

Example a_leap_day : Calendar.days_from_civil 2000 2 29 = 11016.
Proof. reflexivity. Qed.

(** ** The dates of a series *)

Lemma every_past (k c e : Z) : 0 < k -> e < c -> every k c e = [].
Proof.
  intros Hk H. unfold every.
  assert ((e - c) / k < 0) by (apply Z.div_lt_upper_bound; lia).
  replace (Z.to_nat ((e - c) / k + 1)) with 0%nat by lia. reflexivity.
Qed.

Lemma every_step (k c e : Z) : 0 < k -> c <= e -> every k c e = c :: every k (c + k) e.
Proof.
  intros Hk H. unfold every.
  assert ((e - c) / k = (e - (c + k)) / k + 1) as E.
  { replace (e - c) with ((e - (c + k)) + 1 * k) by lia.
    rewrite Z.div_add by lia. reflexivity. }
  assert (0 <= (e - c) / k) by (apply Z.div_pos; lia).
  rewrite E. rewrite Z2Nat.inj_add by lia.
  change (Z.to_nat 1) with 1%nat. rewrite Nat.add_1_r. cbn [seq map].
  f_equal; [lia|].
  rewrite <- seq_shift, map_map. apply map_ext. intros i. lia.
Qed.

Lemma by_unit_loop_every (k s e : Z) (Hk : 0 < k) :
  forall (n : nat) (c : Z),
    s <= c -> e - c < Z.of_nat n ->
    by_unit_loop n (fun z => z + k) s e c = every k c e.
Proof.
  induction n as [|n IH]; intros c Hs Hn.
  - rewrite every_past by lia. reflexivity.
  - cbn [by_unit_loop]. destruct (Z.leb_spec s c); [|lia]. cbn [andb].
    destruct (Z.leb_spec c e).
    + rewrite every_step by lia. f_equal. apply IH; lia.
    + rewrite every_past by lia. reflexivity.
Qed.

Lemma every_In (k s e d : Z) :
  0 < k -> In d (every k s e) <-> s <= d <= e /\ (d - s) mod k = 0.
Proof.
  intros Hk. unfold every. rewrite in_map_iff. split.
  - intros (i & <- & Hi). apply in_seq in Hi.
    assert (0 <= (e - s) / k + 1) by lia.
    assert (Z.of_nat i <= (e - s) / k) as Hle by lia.
    assert (k * Z.of_nat i <= k * ((e - s) / k)) by (apply Z.mul_le_mono_nonneg_l; lia).
    pose proof (Z.mul_div_le (e - s) k Hk).
    split; [lia|].
    replace (s + k * Z.of_nat i - s) with (Z.of_nat i * k) by lia.
    apply Z.mod_mul. lia.
  - intros [[H1 H2] Hmod]. exists (Z.to_nat ((d - s) / k)).
    assert (0 <= (d - s) / k) by (apply Z.div_pos; lia).
    assert ((d - s) / k <= (e - s) / k) by (apply Z.div_le_mono; lia).
    split.
    + rewrite Z2Nat.id by lia.
      pose proof (Z.div_mod (d - s) k ltac:(lia)). lia.
    + apply in_seq. lia.
Qed.

Lemma every_ascends (k s e : Z) : 0 < k -> StronglySorted Z.lt (every k s e).
Proof.
  intros Hk. unfold every. generalize (Z.to_nat ((e - s) / k + 1)), 0%nat.
  intros n. induction n as [|n IH]; intros a; [constructor|].
  cbn [seq map]. constructor; [apply IH|].
  apply List.Forall_forall. intros d Hd. apply in_map_iff in Hd.
  destruct Hd as (i & <- & Hi). apply in_seq in Hi. nia.
Qed.

(** X1: The dates of the three frequencies with a fixed step: every day,
    every 7th and every 14th day from the start on that is not after the
    end, in ascending order; none when the end is before the start. *)
Theorem fixed_step_dates (s e : Z) :
  exists days weeks biweeks : list Z,
    generateRepeatDates "day" (Some s) (Some e) = Ok days
    /\ generateRepeatDates "week" (Some s) (Some e) = Ok weeks
    /\ generateRepeatDates "biweek" (Some s) (Some e) = Ok biweeks
    /\ (forall d, In d days <-> s <= d <= e)
    /\ (forall d, In d weeks <-> s <= d <= e /\ (d - s) mod 7 = 0)
    /\ (forall d, In d biweeks <-> s <= d <= e /\ (d - s) mod 14 = 0)
    /\ StronglySorted Z.lt days
    /\ StronglySorted Z.lt weeks
    /\ StronglySorted Z.lt biweeks.
Proof.
  exists (every 1 s e), (every 7 s e), (every 14 s e).
  split; [|split; [|split]].
  - change (generateRepeatDates "day" (Some s) (Some e))
      with (@Ok string _ (by_unit (fun z => z + 1) s e)).
    f_equal. unfold by_unit. apply by_unit_loop_every; lia.
  - change (generateRepeatDates "week" (Some s) (Some e))
      with (@Ok string _ (by_unit (fun z => z + 7) s e)).
    f_equal. unfold by_unit. apply by_unit_loop_every; lia.
  - reflexivity.
  - split; [|split; [|split]].
    + intros d. rewrite every_In by lia. rewrite Z.mod_1_r. tauto.
    + intros d. apply every_In. lia.
    + intros d. apply every_In. lia.
    + repeat split; apply every_ascends; lia.
Qed.

Lemma by_unit_loop_range (step : Z -> Z) (s e : Z) :
  forall (n : nat) (c : Z), List.Forall (fun d => s <= d <= e) (by_unit_loop n step s e c).
Proof.
  induction n as [|n IH]; intros c; [constructor|]. cbn [by_unit_loop].
  destruct (Z.leb_spec s c), (Z.leb_spec c e); cbn [andb]; try constructor;
    [lia | apply IH].
Qed.

Lemma by_unit_loop_ascends (step : Z -> Z) (s e : Z) :
  (forall z, s <= z <= e -> z < step z) ->
  forall (n : nat) (c : Z),
    StronglySorted Z.lt (by_unit_loop n step s e c)
    /\ List.Forall (fun d => c <= d) (by_unit_loop n step s e c).
Proof.
  intros Hstep. induction n as [|n IH]; intros c; [split; constructor|].
  cbn [by_unit_loop].
  destruct (Z.leb_spec s c), (Z.leb_spec c e); cbn [andb]; try (split; constructor).
  - apply IH.
  - destruct (IH (step c)) as [_ H1]. eapply List.Forall_impl; [|exact H1].
    intros d Hd. cbn beta in Hd. specialize (Hstep c ltac:(lia)). lia.
  - lia.
  - destruct (IH (step c)) as [_ H1]. eapply List.Forall_impl; [|exact H1].
    intros d Hd. cbn beta in Hd. specialize (Hstep c ltac:(lia)). lia.
Qed.

Lemma by_unit_between (step : Z -> Z) (start end_ : option Z) :
  (forall d, In d (in_range (by_unit step) start end_) ->
     exists s e, start = Some s /\ end_ = Some e /\ s <= d <= e)
  /\ (forall s e, start = Some s -> end_ = Some e -> s <= e ->
        head (in_range (by_unit step) start end_) = Some s).
Proof.
  destruct start as [s|], end_ as [e|]; try (split; [intros d []|intros; discriminate]).
  split.
  - intros d Hd. exists s, e. split; [reflexivity|]. split; [reflexivity|].
    pose proof (by_unit_loop_range step s e (Z.to_nat (e - s + 1)) s) as H.
    rewrite List.Forall_forall in H. apply H, Hd.
  - intros s' e' Es Ee Hle. injection Es as <-. injection Ee as <-.
    cbn [in_range]. unfold by_unit.
    destruct (Z.to_nat (e - s + 1)) as [|n] eqn:En; [lia|].
    cbn [by_unit_loop]. destruct (Z.leb_spec s s), (Z.leb_spec s e); try lia.
    reflexivity.
Qed.

Lemma by_unit_ascends (step : Z -> Z) (start end_ : option Z) :
  (forall s e, start = Some s -> end_ = Some e -> forall z, s <= z <= e -> z < step z) ->
  StronglySorted Z.lt (in_range (by_unit step) start end_).
Proof.
  intros Hstep. destruct start as [s|], end_ as [e|]; try constructor.
  apply by_unit_loop_ascends. apply Hstep; reflexivity.
Qed.

Lemma every_between (start end_ : option Z) :
  (forall d, In d (in_range (by_range 14) start end_) ->
     exists s e, start = Some s /\ end_ = Some e /\ s <= d <= e)
  /\ (forall s e, start = Some s -> end_ = Some e -> s <= e ->
        head (in_range (by_range 14) start end_) = Some s)
  /\ StronglySorted Z.lt (in_range (by_range 14) start end_).
Proof.
  destruct start as [s|], end_ as [e|];
    try (split; [intros d []|split; [intros; discriminate|constructor]]).
  change (in_range (by_range 14) (Some s) (Some e)) with (every 14 s e).
  split; [|split].
  - intros d Hd. apply every_In in Hd; [|lia]. exists s, e. tauto.
  - intros s' e' Es Ee Hle. injection Es as <-. injection Ee as <-.
    rewrite every_step by lia. reflexivity.
  - apply every_ascends. lia.
Qed.

(** X2: Whatever the frequency, the dates generated lie between the start
    and the end, the first of a recurring frequency is the start itself,
    and they ascend (for months: between 1970 and 2189, where a month
    later was checked to be a later day). An invalid start or end gives
    no date. *)
Theorem dates_lie_between_start_and_end (f : string) (start end_ : option Z)
  (dates : list Z)
  (Hdates : generateRepeatDates f start end_ = Ok dates) :
  (forall d, In d dates ->
     exists s e, start = Some s /\ end_ = Some e /\ s <= d <= e)
  /\ (forall s e, start = Some s -> end_ = Some e -> s <= e ->
        In f recurring_frequencies -> head dates = Some s)
  /\ ((f = "month"%string ->
       exists s e, start = Some s /\ end_ = Some e /\ 0 <= s /\ e < 80000) ->
      StronglySorted Z.lt dates).
Proof.
  unfold generateRepeatDates in Hdates.
  destruct (negb (indexOf_frequency f)); [discriminate|].
  fold (in_range (by_unit Calendar.add_month) start end_) in Hdates.
  fold (in_range (by_unit (fun z => z + 7)) start end_) in Hdates.
  fold (in_range (by_range 14) start end_) in Hdates.
  fold (in_range (by_unit (fun z => z + 1)) start end_) in Hdates.
  destruct (String.eqb_spec f "month") as [->|Hm].
  { injection Hdates as <-.
    destruct (by_unit_between Calendar.add_month start end_) as [H1 H2].
    split; [exact H1|]. split; [intros s e Es Ee Hle _; eapply H2; eassumption|].
    intros Hrange. destruct (Hrange eq_refl) as (s & e & -> & -> & Hs & He).
    apply by_unit_ascends. intros s' e' Es Ee z Hz.
    injection Es as <-. injection Ee as <-. apply add_month_grows. lia. }
  destruct (String.eqb_spec f "week") as [->|Hw].
  { injection Hdates as <-.
    destruct (by_unit_between (fun z => z + 7) start end_) as [H1 H2].
    split; [exact H1|]. split; [intros s e Es Ee Hle _; eapply H2; eassumption|].
    intros _. apply by_unit_ascends. intros. lia. }
  destruct (String.eqb_spec f "biweek") as [->|Hb].
  { injection Hdates as <-.
    destruct (every_between start end_) as (H1 & H2 & H3).
    split; [exact H1|]. split; [intros s e Es Ee Hle _; eapply H2; eassumption|].
    intros _. exact H3. }
  destruct (String.eqb_spec f "day") as [->|Hd].
  { injection Hdates as <-.
    destruct (by_unit_between (fun z => z + 1) start end_) as [H1 H2].
    split; [exact H1|]. split; [intros s e Es Ee Hle _; eapply H2; eassumption|].
    intros _. apply by_unit_ascends. intros. lia. }
  injection Hdates as <-. split; [intros d []|]. split; [|intros _; constructor].
  intros s e _ _ _ Hin. unfold recurring_frequencies in Hin. simpl in Hin.
  destruct Hin as [<-|[<-|[<-|[<-|[]]]]]; congruence.
Qed.

Lemma dates_lie_between_start_and_end_witness :
  (forall d, In d [16466; 16494; 16522; 16553] ->
     exists s e, Some 16466 = Some s /\ Some 16570 = Some e /\ s <= d <= e)
  /\ (forall s e, Some 16466 = Some s -> Some 16570 = Some e -> s <= e ->
        In "month"%string recurring_frequencies
        -> head [16466; 16494; 16522; 16553] = Some s)
  /\ (("month"%string = "month"%string ->
       exists s e, Some 16466 = Some s /\ Some 16570 = Some e /\ 0 <= s /\ e < 80000) ->
      StronglySorted Z.lt [16466; 16494; 16522; 16553]).
Proof.
  apply (dates_lie_between_start_and_end "month" (Some 16466) (Some 16570)
           [16466; 16494; 16522; 16553]).
  vm_compute. reflexivity.
Defined.

(** ** The constructor *)

(** What [new Transaction(blob)] does to the store: one object more, at
    the reference returned, with the coerced fields. *)
Lemma new_Transaction_spec (b : Blob) (s : State) :
  exists t s',
    new_Transaction b s = Returns (length (heap s)) s'
    /\ heap s' = heap s ++ [t]
    /\ boundsHeap s' = boundsHeap s
    /\ today s' = today s
    /\ depth t = -1
    /\ growth t = (if truthy_num (blob_growth b) then blob_growth b else JNull)
    /\ amount t = (if truthy_num (blob_amount b)
                   then JNum (to_number (blob_amount b)) else JNull)
    /\ description t
       = match blob_description b with
         | Some d => if truthy_string d then Some d else None
         | None => None
         end
    /\ frequency t
       = match blob_frequency b with
         | Some f => if truthy_string f then f else "none"%string
         | None => "none"%string
         end
    /\ date_day <$> startDate t = date_day <$> blob_startDate b
    /\ date_day <$> endDate t = date_day <$> blob_endDate b
    /\ (forall i, blob_series b = Some i -> truthy_series i = true -> series t = i)
    /\ children t = []
    /\ parentTransaction t = None
    /\ parent t = None
    /\ transactionSeries t = None.
Proof.
  unfold new_Transaction, bind, copy_date, new_Date, generateUUID, new_object, ret.
  destruct (blob_startDate b) as [sd|], (blob_endDate b) as [ed|],
    (blob_series b) as [i|]; try destruct (truthy_series i) eqn:Ei; simpl;
    eexists; eexists; (split; [reflexivity|]); simpl;
    repeat split; try reflexivity; intros; simpl; congruence.
Qed.

(** C10: a definition whose [amount] is 0 builds the node that the
    definition without an [amount] builds, and likewise for [growth]; the
    node built from both zeros has [amount] null and [growth] null. *)
Theorem zero_amount_and_growth_become_null (b : Blob) (s : State) :
  new_Transaction (with_blob_amount (JNum 0) b) s
  = new_Transaction (with_blob_amount JUndefined b) s
  /\ new_Transaction (with_blob_growth (JNum 0) b) s
     = new_Transaction (with_blob_growth JUndefined b) s
  /\ exists t s',
       new_Transaction (with_blob_amount (JNum 0) (with_blob_growth (JNum 0) b)) s
       = Returns (length (heap s)) s'
       /\ heap s' !! length (heap s) = Some t
       /\ amount t = JNull
       /\ growth t = JNull.
Proof.
  split; [reflexivity|]. split; [reflexivity|].
  destruct (new_Transaction_spec
              (with_blob_amount (JNum 0) (with_blob_growth (JNum 0) b)) s)
    as (t & s' & Hrun & Hheap & _ & _ & _ & Hg & Ha & _).
  exists t, s'. split; [exact Hrun|]. split.
  - rewrite Hheap. rewrite lookup_app_r by lia. rewrite Nat.sub_diag. reflexivity.
  - split; [exact Ha | exact Hg].
Qed.

(** ** [serialize] *)

Lemma new_Transaction_constructed (b : Blob) (s : State) :
  exists (sr : SeriesId) (sd ed : option Date) (s' : State),
    new_Transaction b s = Returns (length (heap s)) s'
    /\ heap s' = heap s ++ [constructed b sr sd ed]
    /\ date_day <$> sd = date_day <$> blob_startDate b
    /\ date_day <$> ed = date_day <$> blob_endDate b
    /\ (forall i, blob_series b = Some i -> truthy_series i = true -> sr = i)
    /\ truthy_series sr = true.
Proof.
  unfold new_Transaction, bind, copy_date, new_Date, generateUUID, new_object, ret.
  destruct (blob_startDate b) as [sd|], (blob_endDate b) as [ed|],
    (blob_series b) as [i|]; try destruct (truthy_series i) eqn:Ei; simpl;
    eexists; eexists; eexists; eexists; (split; [reflexivity|]); simpl;
    (split; [reflexivity|]); repeat split; try reflexivity; try assumption;
    intros; congruence.
Qed.

Lemma or_no_string_twice (d : option string) :
  or_no_string (or_no_string d) = or_no_string d.
Proof.
  destruct d as [d|]; [|reflexivity]. simpl.
  destruct (truthy_string d) eqn:E; simpl; rewrite ?E; reflexivity.
Qed.

Lemma or_string_twice (fallback : string) (f : option string) :
  truthy_string fallback = true ->
  or_string fallback (Some (or_string fallback f)) = or_string fallback f.
Proof.
  intros Hf. destruct f as [f|]; simpl.
  - destruct (truthy_string f) eqn:E; simpl; rewrite ?E, ?Hf; reflexivity.
  - rewrite Hf. reflexivity.
Qed.

Lemma serialize_Returns (s : State) (r : ref) (t : Transaction) :
  heap s !! r = Some t ->
  serialize r s
  = Returns (mkBlob (growth t) (description t) (amount t) (startDate t) (endDate t)
               (Some (frequency t)) (Some (transactionType t)) (Some (series t))) s.
Proof.
  intros Ht. unfold serialize. erewrite bind_Returns by (apply load_Returns; exact Ht).
  reflexivity.
Qed.

(** X3: A transaction built by the constructor, serialized, built again from
    what [serialize] gave and serialized again says the same both times:
    the constructor's defaults are applied once and for all, and the
    series is kept. *)
Theorem serialize_round_trip (b : Blob) (s : State) :
  exists (r r' : nat) (d d' : Blob) (s' : State),
    (r <- new_Transaction b ;;
     d <- serialize r ;;
     r' <- new_Transaction d ;;
     d' <- serialize r' ;;
     ret (r, r', d, d')) s
    = Returns (r, r', d, d') s'
    /\ r <> r'
    /\ same_definition d d'.
Proof.
  destruct (new_Transaction_constructed b s)
    as (sr & sd & ed & s1 & Hnew & Hheap1 & Hsd & Hed & _ & Hsr).
  assert (heap s1 !! length (heap s) = Some (constructed b sr sd ed)) as Hr.
  { rewrite Hheap1. apply list_lookup_middle. reflexivity. }
  set (d := mkBlob (or_null (blob_growth b)) (or_no_string (blob_description b))
              (if truthy_num (blob_amount b) then JNum (to_number (blob_amount b))
               else JNull)
              sd ed (Some (or_string "none" (blob_frequency b)))
              (Some (or_string "plain" (blob_transactionType b))) (Some sr)).
  destruct (new_Transaction_constructed d s1)
    as (sr' & sd' & ed' & s2 & Hnew' & Hheap2 & Hsd' & Hed' & Hsr' & _).
  assert (heap s2 !! length (heap s1) = Some (constructed d sr' sd' ed')) as Hr'.
  { rewrite Hheap2. apply list_lookup_middle. reflexivity. }
  do 5 eexists. split; [|split].
  - erewrite bind_Returns by exact Hnew.
    erewrite bind_Returns by (apply serialize_Returns; exact Hr).
    erewrite bind_Returns by exact Hnew'.
    erewrite bind_Returns by (apply serialize_Returns; exact Hr').
    reflexivity.
  - rewrite Hheap1, length_app. simpl. lia.
  - unfold same_definition, constructed, d.
    cbn [blob_growth blob_description blob_amount blob_startDate blob_endDate
         blob_frequency blob_transactionType blob_series growth description amount
         startDate endDate frequency transactionType series].
    repeat split.
    + unfold or_null. destruct (truthy_num (blob_growth b)) eqn:E; simpl; rewrite ?E; reflexivity.
    + apply or_no_string_twice.
    + destruct (blob_amount b) as [| |x]; try reflexivity. simpl.
      destruct (truthy_float x) eqn:E; simpl; rewrite ?E; reflexivity.
    + exact Hsd'.
    + exact Hed'.
    + f_equal. apply or_string_twice. reflexivity.
    + f_equal. apply or_string_twice. reflexivity.
    + f_equal. apply Hsr'; [reflexivity | exact Hsr].
Qed.

(** ** Trees and aggregation *)

Lemma set_amount_same (t : Transaction) : set_amount (amount t) t = t.
Proof. destruct t; reflexivity. Qed.

Lemma set_amount_twice (a b : jsnum) (t : Transaction) :
  set_amount a (set_amount b t) = set_amount a t.
Proof. reflexivity. Qed.

Lemma same_but_amounts_refl (h : list Transaction) : same_but_amounts h h.
Proof.
  apply Forall2_same_length_lookup_2; [reflexivity|].
  intros i t t' H1 H2. rewrite H1 in H2. injection H2 as <-.
  exists (amount t). split; [symmetry; apply set_amount_same | reflexivity].
Qed.

Lemma same_but_amounts_trans (h1 h2 h3 : list Transaction) :
  same_but_amounts h1 h2 -> same_but_amounts h2 h3 -> same_but_amounts h1 h3.
Proof.
  unfold same_but_amounts. intros H12 H23.
  revert h3 H23. induction H12 as [|t1 t2 l1 l2 (a & -> & Ha) _ IH];
    intros h3 H23; inversion H23 as [|? t3 ? l3 (b & -> & Hb) Hrest]; subst.
  - constructor.
  - constructor; [|apply IH; exact Hrest].
    exists b. split; [reflexivity|].
    intros Hc. rewrite (Hb Hc). simpl. apply Ha, Hc.
Qed.

Lemma same_but_amounts_lookup (h h' : list Transaction) (r : ref) (t : Transaction) :
  same_but_amounts h h' -> h !! r = Some t ->
  exists a, h' !! r = Some (set_amount a t) /\ (children t = [] -> a = amount t).
Proof.
  intros H Hr. destruct (Forall2_lookup_l _ _ _ _ _ H Hr) as (t' & Hr' & a & -> & Ha).
  eauto.
Qed.

Lemma same_but_amounts_update (h h' : list Transaction) (r : ref)
  (t : Transaction) (a b : jsnum) :
  same_but_amounts h h' -> h !! r = Some t -> children t <> [] ->
  h' !! r = Some (set_amount a t) ->
  same_but_amounts h (<[r := set_amount b (set_amount a t)]> h').
Proof.
  intros H Hr Hc Hr'. unfold same_but_amounts.
  rewrite <- (list_insert_id h r t Hr).
  apply Forall2_insert; [exact H|].
  exists b. split; [reflexivity | intros; contradiction].
Qed.

Lemma resolvedAmount_same (n : nat) :
  forall (h h' : list Transaction) (r : ref),
    same_but_amounts h h' -> resolvedAmount n h' r = resolvedAmount n h r.
Proof.
  induction n as [|n IH]; intros h h' r H; [reflexivity|]. simpl.
  destruct (h !! r) as [t|] eqn:Hr.
  - destruct (same_but_amounts_lookup _ _ _ _ H Hr) as (a & -> & Ha).
    simpl. destruct (children t) as [|c cs] eqn:Hc.
    + rewrite Ha by reflexivity. reflexivity.
    + replace (mapM (resolvedAmount n h') (c :: cs))
        with (mapM (resolvedAmount n h) (c :: cs)); [reflexivity|].
      apply mapM_ext. intros x. symmetry. apply IH, H.
  - assert (h' !! r = None) as ->; [|reflexivity].
    apply lookup_ge_None. apply lookup_ge_None in Hr.
    rewrite <- (Forall2_length _ _ _ H). exact Hr.
Qed.

Lemma amounts_rewritten_refl (s : State) : amounts_rewritten s s.
Proof. unfold amounts_rewritten. auto using same_but_amounts_refl. Qed.

Lemma amounts_rewritten_trans (s1 s2 s3 : State) :
  amounts_rewritten s1 s2 -> amounts_rewritten s2 s3 -> amounts_rewritten s1 s3.
Proof.
  unfold amounts_rewritten. intros (H1 & A1 & B1 & C1 & D1) (H2 & A2 & B2 & C2 & D2).
  split; [eapply same_but_amounts_trans; eassumption|].
  repeat split; congruence.
Qed.

(** The loop of [_.sum], over children that all resolve. *)
Lemma lodash_sum_loop_resolves (n : nat)
  (IH : forall s r v, resolvedAmount n (heap s) r = Some v ->
        exists s', getAmount n r s = Returns v s' /\ amounts_rewritten s s') :
  forall (l : list ref) (vs : list jsnum) (s : State) (result : float),
    Forall2 (fun c v => resolvedAmount n (heap s) c = Some v) l vs ->
    exists s',
      lodash_sum_loop (getAmount n) l result s
      = Returns (fold_left (fun acc v => (acc + plus_or_zero v)%float) vs result) s'
      /\ amounts_rewritten s s'.
Proof.
  induction l as [|c l IHl]; intros vs s result H; inversion H as [|? v ? vs' Hc Hl]; subst.
  - exists s. split; [reflexivity | apply amounts_rewritten_refl].
  - destruct (IH s c v Hc) as (s1 & Hrun & Hs1).
    destruct (IHl vs' s1 (result + plus_or_zero v)%float) as (s2 & Hloop & Hs2).
    { eapply Forall2_impl; [exact Hl|]. intros x y Hxy. simpl in Hxy.
      rewrite (resolvedAmount_same n (heap s) (heap s1)); [exact Hxy | apply Hs1]. }
    exists s2. split; [|eapply amounts_rewritten_trans; eassumption].
    simpl. unfold bind. rewrite Hrun. exact Hloop.
Qed.

Lemma Forall2_rev {A B} (P : A -> B -> Prop) (l : list A) (k : list B) :
  Forall2 P l k -> Forall2 P (rev l) (rev k).
Proof.
  induction 1 as [|x y l k Hxy _ IH]; simpl; [constructor|].
  apply Forall2_app; [exact IH | constructor; [exact Hxy | constructor]].
Qed.

Lemma lodash_sum_backwards (vs : list jsnum) :
  fold_left (fun acc v => (acc + plus_or_zero v)%float) (rev vs) 0%float
  = lodash_sum vs.
Proof.
  unfold lodash_sum. rewrite <- fold_left_rev_right. rewrite rev_involutive.
  reflexivity.
Qed.

Lemma getAmount_resolves (n : nat) :
  forall (s : State) (r : ref) (v : jsnum),
    resolvedAmount n (heap s) r = Some v ->
    exists s',
      getAmount n r s = Returns v s'
      /\ amounts_rewritten s s'
      /\ amount <$> heap s' !! r = Some v.
Proof.
  induction n as [|n IH]; intros s r v H; [discriminate|].
  simpl in H. destruct (heap s !! r) as [t|] eqn:Hr; [|discriminate].
  destruct (children t) as [|c cs] eqn:Hc.
  - injection H as <-. exists s. split; [|split].
    + simpl. unfold bind, load, ret. rewrite Hr, Hc. simpl. rewrite Hr. reflexivity.
    + apply amounts_rewritten_refl.
    + rewrite Hr. reflexivity.
  - destruct (mapM (resolvedAmount n (heap s)) (c :: cs)) as [vs|] eqn:Hvs; [|discriminate].
    injection H as <-. apply mapM_Some in Hvs.
    destruct (lodash_sum_loop_resolves n
                (fun s r v H => let '(ex_intro _ s' (conj A (conj B _))) := IH s r v H in
                                ex_intro _ s' (conj A B))
                (rev (c :: cs)) (rev vs) s 0%float) as (s1 & Hloop & Hs1).
    { apply Forall2_rev. exact Hvs. }
    rewrite lodash_sum_backwards in Hloop.
    destruct Hs1 as (Hh & Hb & Hd & Hu & Ht).
    destruct (same_but_amounts_lookup _ _ _ _ Hh Hr) as (a & Hr1 & _).
    exists (mkState (<[r := set_amount (JNum (lodash_sum vs)) (set_amount a t)]> (heap s1))
              (boundsHeap s1) (nextDate s1) (nextUuid s1) (today s1)).
    assert (r < length (heap s1))%nat as Hlt by (eapply lookup_lt_Some; exact Hr1).
    split; [|split].
    + simpl. unfold bind, load, ret, lodash_sum_by. rewrite Hr, Hc.
      change (0 <? length (c :: cs))%nat with true. cbv iota beta.
      rewrite Hloop. unfold update. rewrite Hr1. simpl.
      rewrite list_lookup_insert_eq by exact Hlt. reflexivity.
    + split; [|simpl; auto].
      simpl. eapply same_but_amounts_update; try eassumption. rewrite Hc. discriminate.
    + simpl. rewrite list_lookup_insert_eq by exact Hlt. reflexivity.
Qed.

Lemma mapM_ext_Forall {A B} (f g : A -> option B) (l : list A) :
  Forall (fun x => f x = g x) l -> mapM f l = mapM g l.
Proof.
  induction 1 as [|x l Hx _ IH]; [reflexivity|].
  simpl. rewrite Hx, IH. reflexivity.
Qed.

(** Resolving a node looks only at the objects below it. *)
Lemma resolvedAmount_frame (rank : ref -> nat) (h h' : list Transaction) (k : nat) :
  tree_shaped rank h ->
  (forall r, (rank r < k)%nat -> is_Some (h !! r) -> h' !! r = h !! r) ->
  forall (n : nat) (c : ref),
    (rank c < k)%nat -> is_Some (h !! c) ->
    resolvedAmount n h' c = resolvedAmount n h c.
Proof.
  intros Htree Hsame. induction n as [|n IH]; intros c Hc Hvalid; [reflexivity|].
  simpl. rewrite (Hsame c Hc Hvalid). destruct Hvalid as [t Ht]. rewrite Ht.
  destruct (children t) as [|c1 cs] eqn:E; [reflexivity|].
  rewrite (mapM_ext_Forall (resolvedAmount n h') (resolvedAmount n h)); [reflexivity|].
  apply Forall_forall. intros x Hx.
  destruct (Htree c t x Ht) as [Hrank Hx'].
  { rewrite E. apply list_elem_of_In. exact Hx. }
  apply IH; [lia | exact Hx'].
Qed.

(** Every node of a tree resolves, given a height above its rank. *)
Lemma resolvedAmount_total (rank : ref -> nat) (h : list Transaction) :
  tree_shaped rank h ->
  forall (n : nat) (r : ref),
    is_Some (h !! r) -> (rank r < n)%nat -> is_Some (resolvedAmount n h r).
Proof.
  intros Htree. induction n as [|n IH]; intros r [t Ht] Hr; [lia|].
  simpl. rewrite Ht. destruct (children t) as [|c cs] eqn:E; [eexists; reflexivity|].
  destruct (mapM (resolvedAmount n h) (c :: cs)) as [vs|] eqn:Hvs; [eexists; reflexivity|].
  exfalso. assert (is_Some (mapM (resolvedAmount n h) (c :: cs))) as [? Hsome];
    [|congruence].
  apply mapM_is_Some. apply Forall_forall. intros x Hx.
  destruct (Htree r t x Ht) as [Hrank Hx'].
  { rewrite E. apply list_elem_of_In. exact Hx. }
  apply IH; [exact Hx' | lia].
Qed.

Lemma resolved_children (rank : ref -> nat) (h : list Transaction) (n : nat)
  (r : ref) (t : Transaction) :
  tree_shaped rank h -> h !! r = Some t -> (rank r <= n)%nat ->
  exists vs, Forall2 (fun c v => resolvedAmount n h c = Some v) (children t) vs.
Proof.
  intros Htree Ht Hr.
  assert (is_Some (mapM (resolvedAmount n h) (children t))) as [vs Hvs].
  { apply mapM_is_Some. apply Forall_forall. intros x Hx.
    destruct (Htree r t x Ht) as [Hrank Hx']; [apply list_elem_of_In; exact Hx|].
    apply (resolvedAmount_total rank h Htree); [exact Hx' | lia]. }
  exists vs. apply mapM_Some. exact Hvs.
Qed.

Lemma plus_or_zero_counted (v : jsnum) : plus_or_zero v = counted v.
Proof.
  destruct v as [| |x]; [reflexivity | reflexivity |].
  unfold plus_or_zero, counted, truthy_float, to_number.
  destruct (PrimFloat.eqb x 0), (PrimFloat.is_nan x); reflexivity.
Qed.

(** [_.sum] is the sum in which [null], [undefined] and [NaN] add
    nothing. *)
Lemma lodash_sum_counts (vs : list jsnum) : lodash_sum vs = sum_counting vs.
Proof.
  rewrite <- lodash_sum_backwards. unfold sum_counting.
  generalize 0%float. induction (rev vs) as [|v l IH]; intros total; [reflexivity|].
  simpl. rewrite plus_or_zero_counted. apply IH.
Qed.

Lemma resolvedAmount_recursive_sum (n : nat) (h : list Transaction) :
  forall r : ref, resolvedAmount n h r = recursive_sum n h r.
Proof.
  induction n as [|n IH]; intros r; [reflexivity|].
  simpl. destruct (h !! r) as [t|]; [|reflexivity].
  destruct (children t) as [|c cs] eqn:E.
  - rewrite decide_True by reflexivity. reflexivity.
  - rewrite decide_False by discriminate.
    replace (mapM (resolvedAmount n h) (c :: cs))
      with (mapM (recursive_sum n h) (c :: cs))
      by (apply mapM_ext; intros x; symmetry; apply IH).
    destruct (mapM (recursive_sum n h) (c :: cs)) as [vs|]; [|reflexivity].
    rewrite lodash_sum_counts. reflexivity.
Qed.

(** C2 (amended): on every node of a tree [getAmount] returns the
    recursive sum: the stored amount, the store unchanged, when the node
    has no children; otherwise the sum of the children's recursive sums,
    whatever amount the node had stored, where a child's sum that is
    [null], [undefined] or [NaN] adds nothing. Afterwards the node's
    [amount] is the value returned, and nothing but amounts of nodes with
    children has changed. *)
Theorem getAmount_is_the_recursive_sum
  (rank : nat -> nat) (n : nat) (s : State) (r : nat) (t : Transaction)
  (Hr : heap s !! r = Some t)
  (Htree : tree_shaped rank (heap s))
  (Hrank : (rank r <= n)%nat) :
  exists (v : jsnum) (s' : State),
    getAmount (S n) r s = Returns v s'
    /\ recursive_sum (S n) (heap s) r = Some v
    /\ amount <$> heap s' !! r = Some v
    /\ amounts_rewritten s s'
    /\ (children t = [] -> v = amount t /\ s' = s)
    /\ (children t <> [] ->
        (exists vs,
           Forall2 (fun c w => recursive_sum n (heap s) c = Some w) (children t) vs
           /\ v = JNum (sum_counting vs))
        /\ forall a : jsnum,
             exists s'',
               getAmount (S n) r
                 (mkState (<[r := set_amount a t]> (heap s)) (boundsHeap s)
                    (nextDate s) (nextUuid s) (today s))
               = Returns v s''
               /\ amount <$> heap s'' !! r = Some v).
Proof.
  destruct (resolvedAmount_total rank (heap s) Htree (S n) r) as [v Hv];
    [eexists; exact Hr | lia |].
  destruct (getAmount_resolves (S n) s r v Hv) as (s' & Hrun & Hs' & Hamount).
  exists v, s'. split; [exact Hrun|].
  split; [rewrite <- resolvedAmount_recursive_sum; exact Hv|].
  split; [exact Hamount|].
  split; [exact Hs'|]. split.
  - intros Hc. simpl in Hv, Hrun. unfold bind, load, ret in Hrun.
    rewrite Hr in Hv, Hrun. rewrite Hc in Hv, Hrun. simpl in Hrun.
    rewrite Hr in Hrun. split; congruence.
  - intros Hc. split.
    + simpl in Hv. rewrite Hr in Hv.
      destruct (children t) as [|c cs] eqn:E; [contradiction|].
      destruct (mapM (resolvedAmount n (heap s)) (c :: cs)) as [vs|] eqn:Hvs;
        [|discriminate].
      exists vs. split; [|rewrite <- lodash_sum_counts; congruence].
      eapply Forall2_impl; [apply mapM_Some; exact Hvs|].
      intros x w Hx. rewrite <- resolvedAmount_recursive_sum. exact Hx.
    + intros a.
      destruct (getAmount_resolves (S n)
                  (mkState (<[r := set_amount a t]> (heap s)) (boundsHeap s)
                     (nextDate s) (nextUuid s) (today s)) r v)
        as (s'' & Hrun' & _ & Hamount').
      * simpl heap. rewrite <- Hv. apply resolvedAmount_same.
        change (set_amount a t) with (set_amount a (set_amount (amount t) t)).
        eapply same_but_amounts_update;
          [apply same_but_amounts_refl | exact Hr | exact Hc |].
        rewrite set_amount_same. exact Hr.
      * exists s''. split; assumption.
Qed.

(** C2, as stated, fails on a leaf whose amount is [NaN]: over the leaves
    [NaN] and 3 the root's [getAmount] returns 3, while [NaN + 3], in
    either order, is [NaN]. *)
Lemma getAmount_counts_NaN_as_nothing :
  match nan_leaf_program (empty_state 0) with
  | Returns (v, leaves) _ =>
      leaves = [JNum nan; JNum 3]
      /\ v = JNum 3
      /\ PrimFloat.is_nan (sum_of_numbers leaves) = true
      /\ PrimFloat.is_nan (sum_of_numbers (rev leaves)) = true
      /\ v <> JNum (sum_of_numbers leaves)
  | _ => False
  end.
Proof.
  vm_compute. repeat (split; [reflexivity|]).
  intros H.
  apply (f_equal (fun v => match v with
                           | JNum x => PrimFloat.eqb x 3
                           | _ => false
                           end)) in H.
  vm_compute in H. discriminate.
Qed.

Lemma stale_root_store_tree_shaped : tree_shaped root_rank (heap stale_root_store).
Proof.
  intros [|[|[|r]]] t c H Hin; simpl in H; try discriminate;
    injection H as <-; simpl in Hin; try contradiction.
  destruct Hin as [<-|[<-|[]]]; (split; [simpl; lia | eexists; reflexivity]).
Qed.

Lemma getAmount_is_the_recursive_sum_witness :
  exists (v : jsnum) (s' : State),
    getAmount 2 0%nat stale_root_store = Returns v s'
    /\ recursive_sum 2 (heap stale_root_store) 0%nat = Some v
    /\ amount <$> heap s' !! 0%nat = Some v
    /\ amounts_rewritten stale_root_store s'
    /\ (children (node (JNum 99) [1; 2]%nat None) = [] ->
        v = amount (node (JNum 99) [1; 2]%nat None) /\ s' = stale_root_store)
    /\ (children (node (JNum 99) [1; 2]%nat None) <> [] ->
        (exists vs,
           Forall2 (fun c w => recursive_sum 1 (heap stale_root_store) c = Some w)
             (children (node (JNum 99) [1; 2]%nat None)) vs
           /\ v = JNum (sum_counting vs))
        /\ forall a : jsnum,
             exists s'',
               getAmount 2 0%nat
                 (mkState (<[0%nat := set_amount a (node (JNum 99) [1; 2]%nat None)]>
                             (heap stale_root_store))
                    (boundsHeap stale_root_store) (nextDate stale_root_store)
                    (nextUuid stale_root_store) (today stale_root_store))
               = Returns v s''
               /\ amount <$> heap s'' !! 0%nat = Some v).
Proof.
  apply (getAmount_is_the_recursive_sum root_rank 1 stale_root_store 0%nat
           (node (JNum 99) [1; 2]%nat None));
    [reflexivity | exact stale_root_store_tree_shaped | simpl; lia].
Defined.

(** On the example the value is 3 + 4, not the 99 stored. *)
Example stale_root_is_resolved :
  exists s', getAmount 2 0%nat stale_root_store = Returns (JNum 7) s'.
Proof. eexists. vm_compute. reflexivity. Qed.

(** ** [addChild] *)

(** [setAmount()] on a node with children that resolve, and no [parent]
    property: the node's amount becomes their sum, and it stops there. *)
Lemma setAmount_spec (fuel : nat) (s : State) (this : ref) (t : Transaction)
  (vs : list jsnum) :
  heap s !! this = Some t ->
  children t <> [] ->
  parent t = None ->
  Forall2 (fun c v => resolvedAmount fuel (heap s) c = Some v) (children t) vs ->
  exists s',
    setAmount (S fuel) this JUndefined s = Returns tt s'
    /\ amounts_rewritten s s'
    /\ heap s' !! this = Some (set_amount (JNum (lodash_sum vs)) t).
Proof.
  intros Ht Hc Hp Hvs.
  destruct (lodash_sum_loop_resolves fuel
              (fun s r v H => let '(ex_intro _ s' (conj A (conj B _))) :=
                                getAmount_resolves fuel s r v H in
                              ex_intro _ s' (conj A B))
              (rev (children t)) (rev vs) s 0%float) as (s1 & Hloop & Hs1).
  { apply Forall2_rev. exact Hvs. }
  rewrite lodash_sum_backwards in Hloop.
  destruct Hs1 as (Hh & Hb & Hd & Hu & Hto).
  destruct (same_but_amounts_lookup _ _ _ _ Hh Ht) as (a & Ht1 & _).
  assert (this < length (heap s1))%nat as Hlt by (eapply lookup_lt_Some; exact Ht1).
  exists (mkState (<[this := set_amount (JNum (lodash_sum vs)) (set_amount a t)]> (heap s1))
            (boundsHeap s1) (nextDate s1) (nextUuid s1) (today s1)).
  split; [|split].
  - cbn [setAmount].
    erewrite bind_Returns by (apply load_Returns; exact Ht).
    destruct (children t) as [|c cs] eqn:E; [contradiction|].
    change (0 <? length (c :: cs))%nat with true. cbv iota.
    unfold lodash_sum_by.
    erewrite bind_Returns; cycle 1.
    { erewrite bind_Returns by exact Hloop. apply update_Returns. exact Ht1. }
    erewrite bind_Returns; cycle 1.
    { apply load_Returns. cbn [heap]. apply list_lookup_insert_eq. exact Hlt. }
    simpl. rewrite Hp. reflexivity.
  - split; [|cbn; auto].
    cbn [heap]. eapply same_but_amounts_update; eassumption.
  - cbn [heap]. rewrite list_lookup_insert_eq by exact Hlt. reflexivity.
Qed.

Lemma tree_shaped_valid_lt (rank : ref -> nat) (h : list Transaction) (r : ref) :
  is_Some (h !! r) -> (r < length h)%nat.
Proof. intros [t Ht]. eapply lookup_lt_Some. exact Ht. Qed.

Lemma insert_at_end {A} (l : list A) (x y : A) :
  <[length l := y]> (l ++ [x]) = l ++ [y].
Proof.
  replace (length l) with (length l + 0)%nat by lia.
  rewrite insert_app_r. reflexivity.
Qed.

(** What [addChild] does to the store. *)
Lemma addChild_spec (rank : ref -> nat) (fuel : nat) (s : State) (this : ref)
  (blob : BlobArg) (b : Blob) (t : Transaction) :
  heap s !! this = Some t ->
  parent t = None ->
  tree_shaped rank (heap s) ->
  (rank this < fuel)%nat ->
  blob_view s blob = Some b ->
  exists (t0 nt t' : Transaction) (s0 s' : State),
    addChild (S fuel) this blob s = Returns (length (heap s)) s'
    /\ new_Transaction b s = Returns (length (heap s)) s0
    /\ heap s0 = heap s ++ [t0]
    /\ nt = set_depth (depth t + 1) (set_parentTransaction (Some this) t0)
    /\ length (heap s') = S (length (heap s))
    /\ heap s' !! length (heap s) = Some nt
    /\ heap s' !! this = Some t'
    /\ (exists a, t' = set_amount a (set_children (children t ++ [length (heap s)]) t))
    /\ resolvedAmount (S fuel) (heap s') this = Some (amount t')
    /\ boundsHeap s' = boundsHeap s
    /\ today s' = today s.
Proof.
  intros Ht Hp Htree Hrank Hview.
  destruct (new_Transaction_spec b s)
    as (t0 & s0 & Hnew & Hheap0 & Hb0 & Htoday0 & _ & _ & _ & _ & _ & _ & _ & _
        & Hc0 & _ & _ & _).
  pose (L := length (heap s)).
  assert (this < L)%nat as Hlt by (eapply lookup_lt_Some; exact Ht).
  set (nt := set_depth (depth t + 1) (set_parentTransaction (Some this) t0)).
  set (t3 := set_children (children t ++ [L]) t).
  (* the store when [setAmount] is called *)
  set (s3 := mkState (<[this := t3]> (heap s) ++ [nt]) (boundsHeap s0)
               (nextDate s0) (nextUuid s0) (today s0)).
  assert (addChild (S fuel) this blob s
          = bind (setAmount (S fuel) this JUndefined) (fun _ => ret L) s3) as Hrun.
  { unfold addChild. change (constructor_is_not_the_string_Transaction blob) with true.
    cbv iota.
    erewrite bind_Returns; cycle 1.
    { destruct blob as [b'|r]; simpl in Hview.
      - injection Hview as ->. exact Hnew.
      - destruct (heap s !! r) as [tr|] eqn:Hr; [|discriminate].
        injection Hview as <-.
        erewrite bind_Returns by (apply load_Returns; exact Hr). exact Hnew. }
    erewrite bind_Returns; cycle 1.
    { apply load_Returns. rewrite Hheap0. rewrite lookup_app_l by exact Hlt. exact Ht. }
    erewrite bind_Returns; cycle 1.
    { apply update_Returns. rewrite Hheap0. apply list_lookup_middle. reflexivity. }
    erewrite bind_Returns; cycle 1.
    { apply update_Returns. cbn [heap]. rewrite Hheap0.
      rewrite insert_at_end.
      apply list_lookup_middle. reflexivity. }
    erewrite bind_Returns; cycle 1.
    { apply update_Returns. cbn [heap]. rewrite Hheap0.
      rewrite !insert_at_end.
      rewrite lookup_app_l by exact Hlt. exact Ht. }
    cbn [heap boundsHeap nextDate nextUuid today]. rewrite Hheap0.
    rewrite !insert_at_end.
    rewrite insert_app_l by exact Hlt. reflexivity. }
  (* the children resolve in that store *)
  assert (heap s3 !! this = Some t3) as Ht3.
  { cbn [heap s3]. rewrite lookup_app_l by (rewrite length_insert; exact Hlt).
    apply list_lookup_insert_eq. exact Hlt. }
  assert (heap s3 !! L = Some nt) as Hnt.
  { cbn [heap s3]. apply list_lookup_middle. rewrite length_insert. reflexivity. }
  destruct (resolved_children rank (heap s) fuel this t Htree Ht ltac:(lia)) as (vs & Hvs).
  assert (Forall2 (fun c v => resolvedAmount fuel (heap s3) c = Some v)
            (children t3) (vs ++ [amount nt])) as Hvs3.
  { cbn [children t3 set_children]. apply Forall2_app.
    - rewrite Forall2_lookup in Hvs. apply Forall2_same_length_lookup_2.
      + eapply Forall2_length. apply Forall2_lookup. exact Hvs.
      + intros i c v Hc Hv. specialize (Hvs i). rewrite Hc, Hv in Hvs.
        inversion Hvs as [? ? Hcv|]; subst. rewrite <- Hcv.
        destruct (Htree this t c Ht) as [Hrc Hvalid].
        { apply list_elem_of_In. eapply list_elem_of_lookup_2. exact Hc. }
        apply (resolvedAmount_frame rank (heap s) (heap s3) (rank this) Htree);
          [|exact Hrc|exact Hvalid].
        intros r Hr Hr'. cbn [heap s3].
        apply (tree_shaped_valid_lt rank) in Hr'.
        rewrite lookup_app_l by (rewrite length_insert; exact Hr').
        apply list_lookup_insert_ne. intros ->. lia.
    - constructor; [|constructor].
      destruct fuel as [|fuel']; [lia|]. cbn [resolvedAmount]. rewrite Hnt.
      cbn [children nt set_depth set_parentTransaction]. rewrite Hc0. reflexivity. }
  destruct (setAmount_spec fuel s3 this t3 (vs ++ [amount nt]) Ht3)
    as (s' & Hset & Hs' & Hthis'); try exact Hvs3.
  { cbn [children t3 set_children]. intros E. apply app_eq_nil in E. destruct E; discriminate. }
  { exact Hp. }
  destruct Hs' as (Hh & Hb' & _ & _ & Htoday').
  exists t0, nt, (set_amount (JNum (lodash_sum (vs ++ [amount nt]))) t3), s0, s'.
  split; [rewrite Hrun; erewrite bind_Returns by exact Hset; reflexivity|].
  split; [exact Hnew|]. split; [exact Hheap0|]. split; [reflexivity|].
  split.
  { rewrite <- (Forall2_length _ _ _ Hh). cbn [heap s3].
    rewrite length_app, length_insert. simpl. lia. }
  split.
  { destruct (same_but_amounts_lookup _ _ _ _ Hh Hnt) as (a & Ha & Hleaf).
    change (heap s' !! L = Some nt). rewrite Ha. rewrite Hleaf; [rewrite set_amount_same; reflexivity|].
    cbn [children nt set_depth set_parentTransaction]. exact Hc0. }
  split; [exact Hthis'|]. split; [eexists; reflexivity|].
  split.
  { cbn [resolvedAmount]. rewrite Hthis'.
    cbn [children set_amount t3 set_children amount].
    destruct (children t ++ [L]) as [|c cs] eqn:E.
    { apply app_eq_nil in E. destruct E; discriminate. }
    assert (mapM (resolvedAmount fuel (heap s')) (c :: cs) = Some (vs ++ [amount nt])) as ->;
      [|reflexivity].
    apply mapM_Some. eapply Forall2_impl; [exact Hvs3|].
    intros x y Hxy. cbn beta in Hxy.
    rewrite (resolvedAmount_same fuel (heap s3) (heap s')); [exact Hxy | exact Hh]. }
  split; [rewrite Hb'; exact Hb0 | rewrite Htoday'; exact Htoday0].
Qed.

(** C1 fails on a grandparent. After [a.addChild({amount: 5})] the child
    [b] has [a] for [parentTransaction], a depth one more than [a]'s, and
    is the last of [a]'s children; [a.amount] is re-aggregated to 5. But
    [setAmount] goes on from [a] through [a.parent], a property that is
    never set, so the root keeps the amount 10 it had, while its
    children's resolved amounts sum to 5. *)
Theorem addChild_leaves_the_grandparent_stale :
  match grandchild_program (empty_state 0) with
  | Returns (root, a, b) s =>
      match heap s !! root, heap s !! a, heap s !! b with
      | Some troot, Some ta, Some tb =>
          parentTransaction tb = Some a
          /\ depth tb = depth ta + 1
          /\ last (children ta) = Some b
          /\ amount ta = JNum 5
          /\ parentTransaction ta = Some root
          /\ parent ta = None
          /\ resolvedAmount 3 (heap s) root = Some (JNum 5)
          /\ amount troot = JNum 10
          /\ amount troot <> JNum 5
      | _, _, _ => False
      end
  | _ => False
  end.
Proof.
  vm_compute. repeat split; try reflexivity. discriminate.
Qed.

(** ** [setAmount] *)

(** X21: [setAmount] never goes up the tree. On a node without children
    it stores the amount given and stops: no object has the [parent]
    property it would go on through, so the node's parent and all above
    keep the amounts they have, and nothing else changes. On a node with
    children the argument is not looked at, the amount becomes the
    [_.sum] of the children's resolved amounts, and apart from it only
    amounts of nodes that have children can change. *)
Theorem setAmount_changes_one_node (rank : nat -> nat) (fuel : nat) (s : State)
  (this : nat) (t : Transaction) (a : jsnum)
  (Ht : heap s !! this = Some t)
  (Hp : parent t = None)
  (Htree : tree_shaped rank (heap s))
  (Hrank : (rank this <= fuel)%nat) :
  (children t = [] ->
   setAmount (S fuel) this a s = Returns tt (with_object s this (set_amount a t)))
  /\ (children t <> [] ->
      exists (vs : list jsnum) (s' : State),
        Forall2 (fun c v => resolvedAmount fuel (heap s) c = Some v) (children t) vs
        /\ setAmount (S fuel) this a s = Returns tt s'
        /\ heap s' !! this = Some (set_amount (JNum (lodash_sum vs)) t)
        /\ amounts_rewritten s s').
Proof.
  assert (this < length (heap s))%nat as Hlt by (eapply lookup_lt_Some; exact Ht).
  split.
  - intros Hc. cbn [setAmount].
    erewrite bind_Returns by (apply load_Returns; exact Ht).
    rewrite Hc. cbn [length Nat.ltb Nat.leb].
    erewrite bind_Returns by (apply update_Returns; exact Ht).
    erewrite bind_Returns; cycle 1.
    { apply load_Returns. cbn [heap]. apply list_lookup_insert_eq. exact Hlt. }
    cbn [parent set_amount]. rewrite Hp. reflexivity.
  - intros Hc.
    destruct (resolved_children rank (heap s) fuel this t Htree Ht Hrank) as (vs & Hvs).
    destruct (setAmount_spec fuel s this t vs Ht Hc Hp Hvs) as (s' & Hrun & Hs' & Hthis).
    exists vs, s'. split; [exact Hvs|]. split; [|split; assumption].
    rewrite <- Hrun. cbn [setAmount].
    rewrite (bind_Returns (load this) _ s s t) by (apply load_Returns; exact Ht).
    rewrite (bind_Returns (load this) _ s s t) by (apply load_Returns; exact Ht).
    destruct (children t) as [|c cs]; [contradiction|]. reflexivity.
Qed.

Lemma setAmount_changes_one_node_witness :
  (children (node (JNum 3) [] (Some 0%nat)) = [] ->
   setAmount 2 1%nat (JNum 8) stale_root_store
   = Returns tt (with_object stale_root_store 1%nat
                   (set_amount (JNum 8) (node (JNum 3) [] (Some 0%nat)))))
  /\ (children (node (JNum 3) [] (Some 0%nat)) <> [] ->
      exists (vs : list jsnum) (s' : State),
        Forall2 (fun c v => resolvedAmount 1 (heap stale_root_store) c = Some v)
          (children (node (JNum 3) [] (Some 0%nat))) vs
        /\ setAmount 2 1%nat (JNum 8) stale_root_store = Returns tt s'
        /\ heap s' !! 1%nat
           = Some (set_amount (JNum (lodash_sum vs)) (node (JNum 3) [] (Some 0%nat)))
        /\ amounts_rewritten stale_root_store s').
Proof.
  apply (setAmount_changes_one_node root_rank 1 stale_root_store 1%nat
           (node (JNum 3) [] (Some 0%nat)) (JNum 8));
    [reflexivity | reflexivity | exact stale_root_store_tree_shaped | simpl; lia].
Defined.

(** ** The store after [addChild] *)

Lemma addChild_store (rank : ref -> nat) (fuel : nat) (s : State) (this : ref)
  (blob : BlobArg) (b : Blob) (t : Transaction) :
  heap s !! this = Some t ->
  parent t = None ->
  tree_shaped rank (heap s) ->
  (rank this < fuel)%nat ->
  blob_view s blob = Some b ->
  exists (t0 : Transaction) (s0 s' : State) (vs : list jsnum),
    addChild (S fuel) this blob s = Returns (length (heap s)) s'
    /\ new_Transaction b s = Returns (length (heap s)) s0
    /\ heap s0 = heap s ++ [t0]
    /\ same_but_amounts (with_new_child (heap s) this t (as_child_of this t t0)) (heap s')
    /\ Forall2 (fun c v => resolvedAmount fuel (heap s) c = Some v) (children t) vs
    /\ heap s' !! this
       = Some (set_amount (JNum (lodash_sum (vs ++ [amount t0])))
                 (set_children (children t ++ [length (heap s)]) t))
    /\ heap s' !! length (heap s) = Some (as_child_of this t t0)
    /\ boundsHeap s' = boundsHeap s0
    /\ nextDate s' = nextDate s0
    /\ nextUuid s' = nextUuid s0
    /\ today s' = today s0.
Proof.
  intros Ht Hp Htree Hrank Hview.
  destruct (new_Transaction_spec b s)
    as (t0 & s0 & Hnew & Hheap0 & Hb0 & Htoday0 & _ & _ & _ & _ & _ & _ & _ & _
        & Hc0 & _ & _ & _).
  pose (L := length (heap s)).
  assert (this < L)%nat as Hlt by (eapply lookup_lt_Some; exact Ht).
  set (nt := as_child_of this t t0).
  set (t3 := set_children (children t ++ [L]) t).
  set (s3 := mkState (with_new_child (heap s) this t nt) (boundsHeap s0)
               (nextDate s0) (nextUuid s0) (today s0)).
  assert (addChild (S fuel) this blob s
          = bind (setAmount (S fuel) this JUndefined) (fun _ => ret L) s3) as Hrun.
  { unfold addChild. change (constructor_is_not_the_string_Transaction blob) with true.
    cbv iota.
    erewrite bind_Returns; cycle 1.
    { destruct blob as [b'|r]; simpl in Hview.
      - injection Hview as ->. exact Hnew.
      - destruct (heap s !! r) as [tr|] eqn:Hr; [|discriminate].
        injection Hview as <-.
        erewrite bind_Returns by (apply load_Returns; exact Hr). exact Hnew. }
    erewrite bind_Returns; cycle 1.
    { apply load_Returns. rewrite Hheap0. rewrite lookup_app_l by exact Hlt. exact Ht. }
    erewrite bind_Returns; cycle 1.
    { apply update_Returns. rewrite Hheap0. apply list_lookup_middle. reflexivity. }
    erewrite bind_Returns; cycle 1.
    { apply update_Returns. cbn [heap]. rewrite Hheap0.
      rewrite insert_at_end.
      apply list_lookup_middle. reflexivity. }
    erewrite bind_Returns; cycle 1.
    { apply update_Returns. cbn [heap]. rewrite Hheap0.
      rewrite !insert_at_end.
      rewrite lookup_app_l by exact Hlt. exact Ht. }
    cbn [heap boundsHeap nextDate nextUuid today]. rewrite Hheap0.
    rewrite !insert_at_end.
    rewrite insert_app_l by exact Hlt. reflexivity. }
  assert (heap s3 !! this = Some t3) as Ht3.
  { unfold s3, with_new_child. cbn [heap].
    rewrite lookup_app_l by (rewrite length_insert; exact Hlt).
    apply list_lookup_insert_eq. exact Hlt. }
  assert (heap s3 !! L = Some nt) as Hnt.
  { unfold s3, with_new_child. cbn [heap].
    apply list_lookup_middle. rewrite length_insert. reflexivity. }
  assert (children nt = []) as Hcnt by exact Hc0.
  destruct (resolved_children rank (heap s) fuel this t Htree Ht ltac:(lia)) as (vs & Hvs).
  assert (Forall2 (fun c v => resolvedAmount fuel (heap s3) c = Some v)
            (children t3) (vs ++ [amount nt])) as Hvs3.
  { unfold t3. cbn [children set_children]. apply Forall2_app.
    - rewrite Forall2_lookup in Hvs. apply Forall2_same_length_lookup_2.
      + eapply Forall2_length. apply Forall2_lookup. exact Hvs.
      + intros i c v Hc Hv. specialize (Hvs i). rewrite Hc, Hv in Hvs.
        inversion Hvs as [? ? Hcv|]; subst. rewrite <- Hcv.
        destruct (Htree this t c Ht) as [Hrc Hvalid].
        { apply list_elem_of_In. eapply list_elem_of_lookup_2. exact Hc. }
        apply (resolvedAmount_frame rank (heap s) (heap s3) (rank this) Htree);
          [|exact Hrc|exact Hvalid].
        intros r Hr Hr'. unfold s3, with_new_child. cbn [heap].
        apply (tree_shaped_valid_lt rank) in Hr'.
        rewrite lookup_app_l by (rewrite length_insert; exact Hr').
        apply list_lookup_insert_ne. intros ->. lia.
    - constructor; [|constructor].
      destruct fuel as [|fuel']; [lia|]. cbn [resolvedAmount]. rewrite Hnt.
      rewrite Hcnt. reflexivity. }
  destruct (setAmount_spec fuel s3 this t3 (vs ++ [amount nt]) Ht3)
    as (s' & Hset & Hs' & Hthis'); try exact Hvs3.
  { unfold t3. cbn [children set_children]. intros E. apply app_eq_nil in E.
    destruct E; discriminate. }
  { exact Hp. }
  destruct Hs' as (Hh & Hb' & Hd' & Hu' & Htoday').
  exists t0, s0, s', vs.
  split; [rewrite Hrun; erewrite bind_Returns by exact Hset; reflexivity|].
  split; [exact Hnew|]. split; [exact Hheap0|]. split; [exact Hh|].
  split; [exact Hvs|]. split; [exact Hthis'|].
  split.
  { destruct (same_but_amounts_lookup _ _ _ _ Hh Hnt) as (a & Ha & Hleaf).
    change (heap s' !! L = Some nt). rewrite Ha.
    rewrite Hleaf by exact Hcnt. rewrite set_amount_same. reflexivity. }
  auto.
Qed.

Lemma same_but_amounts_length (h h' : list Transaction) :
  same_but_amounts h h' -> length h' = length h.
Proof. intros H. symmetry. eapply Forall2_length. exact H. Qed.

Lemma same_but_amounts_lookup_back (h h' : list Transaction) (r : ref) (t' : Transaction) :
  same_but_amounts h h' -> h' !! r = Some t' ->
  exists t a, h !! r = Some t /\ t' = set_amount a t.
Proof.
  intros H Hr. destruct (Forall2_lookup_r _ _ _ _ _ H Hr) as (t & Ht & a & -> & _).
  eauto.
Qed.

Lemma forest_same_but_amounts (rank : ref -> nat) (h h' : list Transaction) :
  same_but_amounts h h' -> forest rank h -> forest rank h'.
Proof.
  intros H (Htree & Hlink & Hpar). split; [|split].
  - intros r t' c Hr Hc.
    destruct (same_but_amounts_lookup_back _ _ _ _ H Hr) as (t & a & Ht & ->).
    destruct (Htree r t c Ht Hc) as [Hrank [tc Htc]]. split; [exact Hrank|].
    destruct (same_but_amounts_lookup _ _ _ _ H Htc) as (a' & Hc' & _). eauto.
  - intros r t' c Hr Hc.
    destruct (same_but_amounts_lookup_back _ _ _ _ H Hr) as (t & a & Ht & ->).
    destruct (Hlink r t c Ht Hc) as (tc & Htc & Hp & Hd).
    destruct (same_but_amounts_lookup _ _ _ _ H Htc) as (a' & Hc' & _).
    exists (set_amount a' tc). split; [exact Hc'|]. split; [exact Hp | exact Hd].
  - unfold no_parent_property in *. rewrite Forall_lookup in Hpar |- *.
    intros r t' Hr.
    destruct (same_but_amounts_lookup_back _ _ _ _ H Hr) as (t & a & Ht & ->).
    exact (Hpar r t Ht).
Qed.

Lemma tree_shaped_room (rank : ref -> nat) (h : list Transaction) :
  tree_shaped rank h -> tree_shaped (rank_with_room rank h) h.
Proof.
  intros Htree r t c Hr Hc. destruct (Htree r t c Hr Hc) as [Hrank Hvalid].
  split; [|exact Hvalid]. unfold rank_with_room.
  apply lookup_lt_Some in Hr. destruct Hvalid as [tc Htc]. apply lookup_lt_Some in Htc.
  destruct (Nat.ltb_spec r (length h)); [|lia].
  destruct (Nat.ltb_spec c (length h)); lia.
Qed.

Lemma with_new_child_lookup (h : list Transaction) (this : ref) (t nt : Transaction)
  (r : ref) (x : Transaction) :
  h !! this = Some t ->
  with_new_child h this t nt !! r = Some x ->
  (r = length h /\ x = nt)
  \/ (r = this /\ x = set_children (children t ++ [length h]) t)
  \/ (r <> this /\ h !! r = Some x).
Proof.
  intros Ht Hr. assert (this < length h)%nat as Hlt by (eapply lookup_lt_Some; exact Ht).
  unfold with_new_child in Hr.
  destruct (Nat.lt_ge_cases r (length h)) as [Hin|Hout].
  - rewrite lookup_app_l in Hr by (rewrite length_insert; exact Hin).
    destruct (Nat.eq_dec r this) as [->|Hne].
    + rewrite list_lookup_insert_eq in Hr by exact Hlt. injection Hr as <-. auto.
    + rewrite list_lookup_insert_ne in Hr by congruence. auto.
  - left. rewrite lookup_app_r in Hr by (rewrite length_insert; exact Hout).
    rewrite length_insert in Hr.
    destruct (r - length h)%nat as [|k] eqn:E; [|destruct k; discriminate].
    injection Hr as <-. split; [lia | reflexivity].
Qed.

Lemma forest_with_new_child (rank : ref -> nat) (h : list Transaction) (this : ref)
  (t t0 : Transaction) :
  forest rank h -> h !! this = Some t ->
  children t0 = [] -> parent t0 = None ->
  forest (rank_with_room rank h) (with_new_child h this t (as_child_of this t t0)).
Proof.
  intros (Htree & Hlink & Hpar) Ht Hc0 Hp0.
  assert (this < length h)%nat as Hlt by (eapply lookup_lt_Some; exact Ht).
  assert (forall r x, with_new_child h this t (as_child_of this t t0) !! r = Some x ->
            (r = length h /\ x = as_child_of this t t0)
            \/ (r = this /\ x = set_children (children t ++ [length h]) t)
            \/ (r <> this /\ h !! r = Some x)) as Hcases.
  { intros r x Hr. unfold with_new_child in Hr.
    destruct (Nat.lt_ge_cases r (length h)) as [Hin|Hout].
    - rewrite lookup_app_l in Hr by (rewrite length_insert; exact Hin).
      destruct (Nat.eq_dec r this) as [->|Hne].
      + rewrite list_lookup_insert_eq in Hr by exact Hlt. injection Hr as <-. auto.
      + rewrite list_lookup_insert_ne in Hr by congruence. auto.
    - left. rewrite lookup_app_r in Hr by (rewrite length_insert; exact Hout).
      rewrite length_insert in Hr.
      destruct (r - length h)%nat as [|k] eqn:E; [|destruct k; discriminate].
      injection Hr as <-. split; [lia | reflexivity]. }
  assert (forall c tc, c <> this -> h !! c = Some tc ->
            with_new_child h this t (as_child_of this t t0) !! c = Some tc) as Hold.
  { intros c tc Hne Hc. unfold with_new_child.
    rewrite lookup_app_l by (rewrite length_insert; eapply lookup_lt_Some; exact Hc).
    rewrite list_lookup_insert_ne by congruence. exact Hc. }
  assert (with_new_child h this t (as_child_of this t t0) !! this
          = Some (set_children (children t ++ [length h]) t)) as Hthis.
  { unfold with_new_child. rewrite lookup_app_l by (rewrite length_insert; exact Hlt).
    apply list_lookup_insert_eq. exact Hlt. }
  assert (with_new_child h this t (as_child_of this t t0) !! length h
          = Some (as_child_of this t t0)) as Hnew.
  { unfold with_new_child. apply list_lookup_middle. rewrite length_insert. reflexivity. }
  assert (forall c, is_Some (h !! c) ->
            is_Some (with_new_child h this t (as_child_of this t t0) !! c)) as Hvalid.
  { intros c [tc Htc]. destruct (Nat.eq_dec c this) as [->|Hne]; [eexists; exact Hthis|].
    eexists. apply Hold; eassumption. }
  pose proof (tree_shaped_room rank h Htree) as Hroom.
  split; [|split].
  - intros r x c Hr Hc. destruct (Hcases r x Hr) as [[-> ->]|[[-> ->]|[Hne Hx]]].
    + cbn in Hc. rewrite Hc0 in Hc. destruct Hc.
    + cbn [children set_children] in Hc. apply in_app_or in Hc. destruct Hc as [Hc|[<-|[]]].
      * destruct (Hroom this t c Ht Hc) as [Hrank Hv]. split; [exact Hrank | apply Hvalid, Hv].
      * split; [|eexists; exact Hnew]. unfold rank_with_room.
        rewrite Nat.ltb_irrefl. destruct (Nat.ltb_spec this (length h)); lia.
    + destruct (Hroom r x c Hx Hc) as [Hrank Hv]. split; [exact Hrank | apply Hvalid, Hv].
  - intros r x c Hr Hc. destruct (Hcases r x Hr) as [[-> ->]|[[-> ->]|[Hne Hx]]].
    + cbn in Hc. rewrite Hc0 in Hc. destruct Hc.
    + cbn [children set_children] in Hc. apply in_app_or in Hc. destruct Hc as [Hc|[<-|[]]].
      * destruct (Hlink this t c Ht Hc) as (tc & Htc & Hp & Hd).
        destruct (Nat.eq_dec c this) as [->|Hne].
        -- rewrite Ht in Htc. injection Htc as <-.
           eexists. split; [exact Hthis|]. split; [exact Hp | exact Hd].
        -- exists tc. split; [apply Hold; assumption|]. split; [exact Hp | exact Hd].
      * eexists. split; [exact Hnew|]. split; reflexivity.
    + destruct (Hlink r x c Hx Hc) as (tc & Htc & Hp & Hd).
      destruct (Nat.eq_dec c this) as [->|Hne'].
      * rewrite Ht in Htc. injection Htc as <-.
        eexists. split; [exact Hthis|]. split; [exact Hp | exact Hd].
      * exists tc. split; [apply Hold; assumption|]. split; [exact Hp | exact Hd].
  - unfold no_parent_property in *. rewrite Forall_lookup in Hpar |- *.
    intros r x Hr. destruct (Hcases r x Hr) as [[-> ->]|[[-> ->]|[Hne Hx]]].
    + exact Hp0.
    + exact (Hpar this t Ht).
    + exact (Hpar r x Hx).
Qed.

(** X4: [addChild] on a node of a tree makes one new object and returns it.
    The new child names the node as its parent, lies one level below it,
    has no children and the amount the constructor makes of the
    definition. The node gets the child as the last of its children, and
    for amount the sum of its children's resolved amounts, the new one's
    included; its depth and parent stay. Of every other object only the
    amount can change, and only where the object has children. *)
Theorem addChild_attaches_a_new_leaf (rank : nat -> nat) (fuel : nat) (s : State)
  (this : nat) (blob : BlobArg) (b : Blob) (t : Transaction)
  (Ht : heap s !! this = Some t)
  (Hp : parent t = None)
  (Htree : tree_shaped rank (heap s))
  (Hrank : (rank this < fuel)%nat)
  (Hview : blob_view s blob = Some b) :
  exists (nt t' : Transaction) (s' : State) (vs : list jsnum),
    addChild (S fuel) this blob s = Returns (length (heap s)) s'
    /\ length (heap s') = S (length (heap s))
    /\ heap s' !! length (heap s) = Some nt
    /\ parentTransaction nt = Some this
    /\ depth nt = depth t + 1
    /\ children nt = []
    /\ amount nt = (if truthy_num (blob_amount b)
                    then JNum (to_number (blob_amount b)) else JNull)
    /\ heap s' !! this = Some t'
    /\ children t' = children t ++ [length (heap s)]
    /\ Forall2 (fun c v => resolvedAmount fuel (heap s) c = Some v) (children t) vs
    /\ amount t' = JNum (lodash_sum (vs ++ [amount nt]))
    /\ resolvedAmount (S fuel) (heap s') this = Some (amount t')
    /\ depth t' = depth t
    /\ parentTransaction t' = parentTransaction t
    /\ forall (r : nat) (tr : Transaction),
         r <> this -> heap s !! r = Some tr ->
         exists a, heap s' !! r = Some (set_amount a tr)
                   /\ (children tr = [] -> a = amount tr).
Proof.
  destruct (addChild_store rank fuel s this blob b t Ht Hp Htree Hrank Hview)
    as (t0 & s0 & s' & vs & Hrun & Hnew & Hheap0 & Hh & Hvs & Hthis & Hnt & _).
  destruct (new_Transaction_spec b s)
    as (t0' & s0' & Hnew' & Hheap0' & _ & _ & _ & _ & Ha0 & _ & _ & _ & _ & _
        & Hc0 & _ & _ & _).
  rewrite Hnew in Hnew'. injection Hnew' as <-. rewrite Hheap0 in Hheap0'.
  apply app_inv_head in Hheap0'. injection Hheap0' as <-.
  assert (this < length (heap s))%nat as Hlt by (eapply lookup_lt_Some; exact Ht).
  exists (as_child_of this t t0),
    (set_amount (JNum (lodash_sum (vs ++ [amount t0])))
       (set_children (children t ++ [length (heap s)]) t)), s', vs.
  split; [exact Hrun|]. split.
  { rewrite (same_but_amounts_length _ _ Hh). unfold with_new_child.
    rewrite length_app, length_insert. simpl. lia. }
  split; [exact Hnt|]. split; [reflexivity|]. split; [reflexivity|].
  split; [exact Hc0|]. split.
  { exact Ha0. }
  split; [exact Hthis|]. split; [reflexivity|]. split; [exact Hvs|].
  split; [reflexivity|]. split.
  { destruct (addChild_spec rank fuel s this blob b t Ht Hp Htree Hrank Hview)
      as (? & ? & t'' & ? & s'' & Hrun' & _ & _ & _ & _ & _ & Hthis' & _ & Hres & _).
    rewrite Hrun in Hrun'. injection Hrun' as <-.
    rewrite Hthis in Hthis'. injection Hthis' as <-. exact Hres. }
  split; [reflexivity|]. split; [reflexivity|].
  intros r tr Hne Hr.
  apply (same_but_amounts_lookup _ _ r tr Hh). unfold with_new_child.
  rewrite lookup_app_l by (rewrite length_insert; eapply lookup_lt_Some; exact Hr).
  rewrite list_lookup_insert_ne by congruence. exact Hr.
Qed.

Lemma addChild_attaches_a_new_leaf_witness :
  exists (nt t' : Transaction) (s' : State) (vs : list jsnum),
    addChild 3 0%nat (Plain (amount_blob 5)) stale_root_store = Returns 3%nat s'
    /\ length (heap s') = 4%nat
    /\ heap s' !! 3%nat = Some nt
    /\ parentTransaction nt = Some 0%nat
    /\ depth nt = -1 + 1
    /\ children nt = []
    /\ amount nt = JNum 5
    /\ heap s' !! 0%nat = Some t'
    /\ children t' = [1; 2; 3]%nat
    /\ Forall2 (fun c v => resolvedAmount 2 (heap stale_root_store) c = Some v)
         [1; 2]%nat vs
    /\ amount t' = JNum (lodash_sum (vs ++ [amount nt]))
    /\ resolvedAmount 3 (heap s') 0%nat = Some (amount t')
    /\ depth t' = -1
    /\ parentTransaction t' = None
    /\ forall (r : nat) (tr : Transaction),
         r <> 0%nat -> heap stale_root_store !! r = Some tr ->
         exists a, heap s' !! r = Some (set_amount a tr)
                   /\ (children tr = [] -> a = amount tr).
Proof.
  apply (addChild_attaches_a_new_leaf root_rank 2 stale_root_store 0%nat
           (Plain (amount_blob 5)) (amount_blob 5) (node (JNum 99) [1; 2]%nat None));
    [reflexivity | reflexivity | exact stale_root_store_tree_shaped | simpl; lia
    | reflexivity].
Defined.

(** X5: [addChild] keeps a store well formed: afterwards the children still
    form trees, every child names its parent and lies one level below
    it, and no object has a [parent] property. *)
Theorem addChild_keeps_the_forest (rank : nat -> nat) (fuel : nat) (s : State)
  (this : nat) (blob : BlobArg)
  (Hforest : forest rank (heap s))
  (Hthis : is_Some (heap s !! this))
  (Hblob : is_Some (blob_view s blob))
  (Hrank : (rank this < fuel)%nat) :
  exists (s' : State),
    addChild (S fuel) this blob s = Returns (length (heap s)) s'
    /\ forest (rank_with_room rank (heap s)) (heap s').
Proof.
  destruct Hthis as [t Ht]. destruct Hblob as [b Hview].
  pose proof Hforest as (Htree & Hlink & Hpar).
  assert (parent t = None) as Hp.
  { unfold no_parent_property in Hpar. rewrite Forall_lookup in Hpar. exact (Hpar this t Ht). }
  destruct (addChild_store rank fuel s this blob b t Ht Hp Htree Hrank Hview)
    as (t0 & s0 & s' & vs & Hrun & Hnew & Hheap0 & Hh & _).
  destruct (new_Transaction_spec b s)
    as (t0' & s0' & Hnew' & Hheap0' & _ & _ & _ & _ & _ & _ & _ & _ & _ & _
        & Hc0 & _ & Hp0 & _).
  rewrite Hnew in Hnew'. injection Hnew' as <-. rewrite Hheap0 in Hheap0'.
  apply app_inv_head in Hheap0'. injection Hheap0' as <-.
  exists s'. split; [exact Hrun|].
  eapply forest_same_but_amounts; [exact Hh|].
  apply forest_with_new_child; assumption.
Qed.

Lemma stale_root_store_forest : forest root_rank (heap stale_root_store).
Proof.
  split; [exact stale_root_store_tree_shaped|]. split.
  - intros [|[|[|r]]] t c H Hin; simpl in H; try discriminate;
      injection H as <-; simpl in Hin; try contradiction.
    destruct Hin as [<-|[<-|[]]]; eexists; (split; [reflexivity|]); split; reflexivity.
  - repeat constructor.
Qed.

Lemma addChild_keeps_the_forest_witness :
  exists s' : State,
    addChild 3 0%nat (Plain (amount_blob 5)) stale_root_store = Returns 3%nat s'
    /\ forest (rank_with_room root_rank (heap stale_root_store)) (heap s').
Proof.
  apply (addChild_keeps_the_forest root_rank 2 stale_root_store 0%nat
           (Plain (amount_blob 5)));
    [exact stale_root_store_forest | eexists; reflexivity | eexists; reflexivity
    | simpl; lia].
Defined.

(** ** Taking a node out *)

Lemma state_same (s : State) :
  mkState (heap s) (boundsHeap s) (nextDate s) (nextUuid s) (today s) = s.
Proof. destruct s; reflexivity. Qed.

Lemma set_children_same (t : Transaction) : set_children (children t) t = t.
Proof. destruct t; reflexivity. Qed.

Lemma findIndex_from_position {A} (f : A -> bool) (l : list A) :
  forall i : Z,
    findIndex_from f i l
    = match position f l with
      | Some n => i + Z.of_nat n
      | None => -1
      end.
Proof.
  induction l as [|a l IH]; intros i; [reflexivity|].
  cbn [findIndex_from position]. destruct (f a); [lia|].
  rewrite IH. destruct (position f l) as [n|]; simpl; lia.
Qed.

Lemma splice_indexOf (x : ref) (l : list ref) :
  (if -1 <? indexOf x l then splice_one (indexOf x l) l else l) = remove_first x l.
Proof.
  unfold indexOf, findIndex, splice_one. rewrite findIndex_from_position.
  induction l as [|y l IH]; [reflexivity|].
  cbn [position remove_first]. destruct (Nat.eqb y x); [reflexivity|].
  destruct (position (fun y0 => Nat.eqb y0 x) l) as [n|] eqn:E; cbn [fmap option_fmap option_map].
  - destruct (Z.ltb_spec (-1) (0 + Z.of_nat (S n))); [|lia].
    destruct (Z.ltb_spec (-1) (0 + Z.of_nat n)); [|lia].
    replace (Z.to_nat (0 + Z.of_nat (S n))) with (S n) by lia.
    replace (Z.to_nat (0 + Z.of_nat n)) with n in IH by lia.
    cbn [delete list_delete]. f_equal. exact IH.
  - change (-1 <? -1) with false in *. cbv iota in *. f_equal. exact IH.
Qed.

Lemma remove_first_absent (x : ref) (l : list ref) :
  ~ In x l -> remove_first x l = l.
Proof.
  induction l as [|y l IH]; intros H; [reflexivity|]. cbn [remove_first].
  destruct (Nat.eqb_spec y x) as [->|Hne]; [exfalso; apply H; left; reflexivity|].
  f_equal. apply IH. intros Hin. apply H. right. exact Hin.
Qed.

Lemma remove_first_last (x : ref) (l : list ref) :
  ~ In x l -> remove_first x (l ++ [x]) = l.
Proof.
  induction l as [|y l IH]; intros H.
  - simpl. rewrite Nat.eqb_refl. reflexivity.
  - cbn [app remove_first].
    destruct (Nat.eqb_spec y x) as [->|Hne]; [exfalso; apply H; left; reflexivity|].
    f_equal. apply IH. intros Hin. apply H. right. exact Hin.
Qed.

(** What [removeChild] does to the store. *)
Lemma removeChild_Returns (s : State) (this : ref) (t : Transaction) (i : Z) :
  heap s !! this = Some t ->
  removeChild this i s
  = Returns tt
      (mkState
         (<[this := set_children (if -1 <? i then splice_one i (children t)
                                  else children t) t]> (heap s))
         (boundsHeap s) (nextDate s) (nextUuid s) (today s)).
Proof.
  intros Ht. unfold removeChild. destruct (-1 <? i).
  - unfold update. rewrite Ht. reflexivity.
  - rewrite set_children_same, list_insert_id by exact Ht. rewrite state_same. reflexivity.
Qed.

(** What [commitSuicide] does to the store. *)
Lemma commitSuicide_Returns (s : State) (this p : ref) (t pt : Transaction) :
  heap s !! this = Some t ->
  parentTransaction t = Some p ->
  heap s !! p = Some pt ->
  commitSuicide this s
  = Returns tt
      (mkState (<[p := set_children (remove_first this (children pt)) pt]> (heap s))
         (boundsHeap s) (nextDate s) (nextUuid s) (today s)).
Proof.
  intros Ht Hp Hpt. unfold commitSuicide.
  erewrite bind_Returns by (apply load_Returns; exact Ht). rewrite Hp.
  erewrite bind_Returns by (apply load_Returns; exact Hpt).
  cbv zeta. rewrite (removeChild_Returns s p pt _ Hpt).
  rewrite splice_indexOf. reflexivity.
Qed.

(** X8: [commitSuicide], on every node. A node without a parent is left
    alone, with the whole store. A node with a parent is taken out of
    its parent's [children], at its first occurrence there, and no other
    property of any object changes: the parent's [amount] still counts
    the node, and the node still names the parent. A node that is not
    among its parent's children, as after a first call, changes
    nothing. *)
Theorem commitSuicide_takes_the_node_out (s : State) (this : ref) (t : Transaction)
  (Ht : heap s !! this = Some t) :
  (parentTransaction t = None -> commitSuicide this s = Returns tt s)
  /\ forall (p : ref) (pt : Transaction),
       parentTransaction t = Some p ->
       heap s !! p = Some pt ->
       commitSuicide this s
       = Returns tt
           (mkState (<[p := set_children (remove_first this (children pt)) pt]> (heap s))
              (boundsHeap s) (nextDate s) (nextUuid s) (today s))
       /\ (~ In this (children pt) -> commitSuicide this s = Returns tt s).
Proof.
  split.
  - intros Hp. unfold commitSuicide.
    erewrite bind_Returns by (apply load_Returns; exact Ht). rewrite Hp. reflexivity.
  - intros p pt Hp Hpt.
    rewrite (commitSuicide_Returns s this p t pt) by assumption.
    split; [reflexivity|].
    intros Hout. rewrite remove_first_absent by exact Hout.
    rewrite set_children_same, list_insert_id by exact Hpt. rewrite state_same.
    reflexivity.
Qed.

Lemma commitSuicide_takes_the_node_out_witness :
  (parentTransaction (node (JNum 3) [] (Some 0%nat)) = None ->
   commitSuicide 1%nat stale_root_store = Returns tt stale_root_store)
  /\ forall (p : nat) (pt : Transaction),
       parentTransaction (node (JNum 3) [] (Some 0%nat)) = Some p ->
       heap stale_root_store !! p = Some pt ->
       commitSuicide 1%nat stale_root_store
       = Returns tt
           (mkState (<[p := set_children (remove_first 1%nat (children pt)) pt]>
                       (heap stale_root_store))
              (boundsHeap stale_root_store) (nextDate stale_root_store)
              (nextUuid stale_root_store) (today stale_root_store))
       /\ (~ In 1%nat (children pt) ->
           commitSuicide 1%nat stale_root_store = Returns tt stale_root_store).
Proof.
  apply (commitSuicide_takes_the_node_out stale_root_store 1%nat
           (node (JNum 3) [] (Some 0%nat))).
  reflexivity.
Defined.

Lemma tree_shaped_children_lt (rank : ref -> nat) (h : list Transaction) (r : ref)
  (t : Transaction) :
  tree_shaped rank h -> h !! r = Some t -> ~ In (length h) (children t).
Proof.
  intros Htree Ht Hin. destruct (Htree r t _ Ht Hin) as [_ [x Hx]].
  apply lookup_lt_Some in Hx. lia.
Qed.

(** X9: [c = this.addChild(blob); c.commitSuicide()]: the children of [this]
    are again what they were, but its [amount] is the sum that counts
    [c]; [c] still names [this] as its parent, and a second
    [c.commitSuicide()] changes nothing. A node without children loses
    the amount of its own. *)
Theorem commitSuicide_does_not_undo_addChild (rank : nat -> nat) (fuel : nat)
  (s : State) (this : nat) (blob : BlobArg) (b : Blob) (t : Transaction)
  (Ht : heap s !! this = Some t)
  (Hp : parent t = None)
  (Htree : tree_shaped rank (heap s))
  (Hrank : (rank this < fuel)%nat)
  (Hview : blob_view s blob = Some b) :
  exists (nt : Transaction) (s' : State) (vs : list jsnum),
    (c <- addChild (S fuel) this blob ;; commitSuicide c ;;; ret c) s
    = Returns (length (heap s)) s'
    /\ Forall2 (fun c v => resolvedAmount fuel (heap s) c = Some v) (children t) vs
    /\ heap s' !! this = Some (set_amount (JNum (lodash_sum (vs ++ [amount nt]))) t)
    /\ heap s' !! length (heap s) = Some nt
    /\ parentTransaction nt = Some this
    /\ amount nt = (if truthy_num (blob_amount b)
                    then JNum (to_number (blob_amount b)) else JNull)
    /\ commitSuicide (length (heap s)) s' = Returns tt s'.
Proof.
  destruct (addChild_store rank fuel s this blob b t Ht Hp Htree Hrank Hview)
    as (t0 & s0 & s1 & vs & Hrun & Hnew & Hheap0 & Hh & Hvs & Hthis & Hnt & _).
  destruct (new_Transaction_spec b s)
    as (t0' & s0' & Hnew' & Hheap0' & _ & _ & _ & _ & Ha0 & _).
  rewrite Hnew in Hnew'. injection Hnew' as <-. rewrite Hheap0 in Hheap0'.
  apply app_inv_head in Hheap0'. injection Hheap0' as <-.
  assert (this < length (heap s))%nat as Hlt by (eapply lookup_lt_Some; exact Ht).
  assert (this < length (heap s1))%nat as Hlt1 by (eapply lookup_lt_Some; exact Hthis).
  pose proof (tree_shaped_children_lt rank (heap s) this t Htree Ht) as Hfresh.
  assert (set_children (remove_first (length (heap s)) (children t ++ [length (heap s)]))
            (set_amount (JNum (lodash_sum (vs ++ [amount t0])))
               (set_children (children t ++ [length (heap s)]) t))
          = set_amount (JNum (lodash_sum (vs ++ [amount t0]))) t) as Hback.
  { rewrite remove_first_last by exact Hfresh. destruct t; reflexivity. }
  exists (as_child_of this t t0). eexists. exists vs. split.
  { erewrite bind_Returns by exact Hrun.
    erewrite bind_Returns; [reflexivity|].
    erewrite commitSuicide_Returns; [reflexivity | exact Hnt | reflexivity | exact Hthis]. }
  cbn [heap children set_amount set_children]. rewrite Hback.
  split; [exact Hvs|]. split; [apply list_lookup_insert_eq; exact Hlt1|].
  split; [rewrite list_lookup_insert_ne by lia; exact Hnt|].
  split; [reflexivity|]. split; [exact Ha0|].
  erewrite commitSuicide_Returns; cycle 1.
  { cbn [heap]. rewrite list_lookup_insert_ne by lia. exact Hnt. }
  { reflexivity. }
  { cbn [heap]. apply list_lookup_insert_eq. exact Hlt1. }
  cbn [heap boundsHeap nextDate nextUuid today].
  rewrite remove_first_absent by exact Hfresh.
  rewrite set_children_same, list_insert_insert_eq. reflexivity.
Qed.

Lemma commitSuicide_does_not_undo_addChild_witness :
  exists (nt : Transaction) (s' : State) (vs : list jsnum),
    (c <- addChild 3 0%nat (Plain (amount_blob 5)) ;; commitSuicide c ;;; ret c)
      stale_root_store
    = Returns 3%nat s'
    /\ Forall2 (fun c v => resolvedAmount 2 (heap stale_root_store) c = Some v)
         [1; 2]%nat vs
    /\ heap s' !! 0%nat
       = Some (set_amount (JNum (lodash_sum (vs ++ [amount nt])))
                 (node (JNum 99) [1; 2]%nat None))
    /\ heap s' !! 3%nat = Some nt
    /\ parentTransaction nt = Some 0%nat
    /\ amount nt = JNum 5
    /\ commitSuicide 3%nat s' = Returns tt s'.
Proof.
  apply (commitSuicide_does_not_undo_addChild root_rank 2 stale_root_store 0%nat
           (Plain (amount_blob 5)) (amount_blob 5) (node (JNum 99) [1; 2]%nat None));
    [reflexivity | reflexivity | exact stale_root_store_tree_shaped | simpl; lia
    | reflexivity].
Defined.

Lemma In_delete {A} (i : nat) (l : list A) (x : A) : In x (delete i l) -> In x l.
Proof.
  revert i. induction l as [|y l IH]; intros [|i] H; simpl in *; auto.
  destruct H as [H|H]; eauto.
Qed.

(** X7: [removeChild], on every node of a tree and for every whole number.
    The stored [amount] stays what it was, and nothing else changes but
    the node's [children]; an index below 0 or past the end leaves them
    too. A [getAmount] afterwards returns the sum over the children that
    remain, and, when none remains, the amount left stored. *)
Theorem removeChild_leaves_the_amount (rank : nat -> nat) (n : nat) (s : State)
  (this : nat) (t : Transaction) (i : Z)
  (Ht : heap s !! this = Some t)
  (Htree : tree_shaped rank (heap s))
  (Hrank : (rank this <= n)%nat) :
  exists (remaining : list nat) (s' s'' : State) (vs : list jsnum),
    removeChild this i s = Returns tt s'
    /\ remaining = (if (0 <=? i) && (i <? Z.of_nat (length (children t)))
                    then take (Z.to_nat i) (children t)
                         ++ drop (S (Z.to_nat i)) (children t)
                    else children t)
    /\ heap s' = <[this := set_children remaining t]> (heap s)
    /\ Forall2 (fun c v => resolvedAmount n (heap s) c = Some v) remaining vs
    /\ getAmount (S n) this s'
       = Returns (match remaining with
                  | [] => amount t
                  | _ :: _ => JNum (lodash_sum vs)
                  end) s''.
Proof.
  assert (this < length (heap s))%nat as Hlt by (eapply lookup_lt_Some; exact Ht).
  set (cs := if -1 <? i then splice_one i (children t) else children t).
  assert (cs = (if (0 <=? i) && (i <? Z.of_nat (length (children t)))
                then take (Z.to_nat i) (children t)
                     ++ drop (S (Z.to_nat i)) (children t)
                else children t)) as Hcs.
  { unfold cs, splice_one.
    destruct (Z.ltb_spec (-1) i), (Z.leb_spec 0 i); try lia; cbn [andb]; [|reflexivity].
    destruct (Z.ltb_spec i (Z.of_nat (length (children t)))).
    - apply delete_take_drop.
    - rewrite delete_take_drop, take_ge, drop_ge, app_nil_r by lia. reflexivity. }
  assert (forall c, In c cs -> In c (children t)) as Hsub.
  { intros c. unfold cs, splice_one. destruct (-1 <? i); [apply In_delete | auto]. }
  set (h' := <[this := set_children cs t]> (heap s)).
  assert (h' !! this = Some (set_children cs t)) as Ht'
      by (apply list_lookup_insert_eq; exact Hlt).
  assert (tree_shaped rank h') as Htree'.
  { intros r x c Hr Hc. unfold h' in *.
    destruct (Nat.eq_dec r this) as [->|Hne].
    - rewrite list_lookup_insert_eq in Hr by exact Hlt. injection Hr as <-.
      destruct (Htree this t c Ht (Hsub c Hc)) as [Hrk Hv]. split; [exact Hrk|].
      apply lookup_lt_is_Some. rewrite length_insert. apply lookup_lt_is_Some. exact Hv.
    - rewrite list_lookup_insert_ne in Hr by congruence.
      destruct (Htree r x c Hr Hc) as [Hrk Hv]. split; [exact Hrk|].
      apply lookup_lt_is_Some. rewrite length_insert. apply lookup_lt_is_Some. exact Hv. }
  destruct (resolved_children rank h' n this (set_children cs t) Htree' Ht' Hrank)
    as (vs & Hvs).
  cbn [children set_children] in Hvs.
  assert (Forall2 (fun c v => resolvedAmount n (heap s) c = Some v) cs vs) as Hvs0.
  { apply Forall2_same_length_lookup_2; [eapply Forall2_length; exact Hvs|].
    intros k c v Hc Hv.
    pose proof (Forall2_lookup_lr _ _ _ _ _ _ Hvs Hc Hv) as Hcv. cbn beta in Hcv.
    rewrite <- Hcv. symmetry.
    assert (In c (children t)) as Hin.
    { apply Hsub. apply list_elem_of_In. eapply list_elem_of_lookup_2. exact Hc. }
    destruct (Htree this t c Ht Hin) as [Hrc Hvalid].
    apply (resolvedAmount_frame rank (heap s) h' (rank this) Htree);
      [|exact Hrc|exact Hvalid].
    intros r Hr _. unfold h'. apply list_lookup_insert_ne. intros ->. lia. }
  assert (resolvedAmount (S n) h' this
          = Some (match cs with [] => amount t | _ :: _ => JNum (lodash_sum vs) end))
    as Hres.
  { cbn [resolvedAmount]. rewrite Ht'. cbn [children set_children amount].
    destruct cs as [|c cs']; [reflexivity|].
    apply mapM_Some in Hvs. rewrite Hvs. reflexivity. }
  destruct (getAmount_resolves (S n)
              (mkState h' (boundsHeap s) (nextDate s) (nextUuid s) (today s)) this _ Hres)
    as (s'' & Hget & _).
  exists cs. eexists. exists s'', vs.
  split; [apply (removeChild_Returns s this t i Ht)|].
  split; [exact Hcs|]. split; [reflexivity|]. split; [exact Hvs0|]. exact Hget.
Qed.

Lemma removeChild_leaves_the_amount_witness :
  exists (remaining : list nat) (s' s'' : State) (vs : list jsnum),
    removeChild 0%nat 0 stale_root_store = Returns tt s'
    /\ remaining = [2%nat]
    /\ heap s' = <[0%nat := set_children remaining (node (JNum 99) [1; 2]%nat None)]>
                   (heap stale_root_store)
    /\ Forall2 (fun c v => resolvedAmount 1 (heap stale_root_store) c = Some v)
         remaining vs
    /\ getAmount 2 0%nat s'
       = Returns (match remaining with
                  | [] => JNum 99
                  | _ :: _ => JNum (lodash_sum vs)
                  end) s''.
Proof.
  apply (removeChild_leaves_the_amount root_rank 1 stale_root_store 0%nat
           (node (JNum 99) [1; 2]%nat None) 0);
    [reflexivity | exact stale_root_store_tree_shaped | simpl; lia].
Defined.

(** ** [addChildren] *)

Lemma BlobTree_induction (P : BlobTree -> Prop) :
  (forall b cs, Forall P cs -> P (BlobNode b cs)) -> forall blob, P blob.
Proof.
  intros H. fix F 1. intros [b cs]. apply H.
  induction cs as [|c cs IH]; constructor; [apply F | exact IH].
Qed.

Lemma levelled_tree_shaped (D : Z) (h : list Transaction) :
  levelled D h -> tree_shaped (depth_rank D h) h.
Proof.
  intros (Hlink & _ & Hdepth) r t c Hr Hc.
  destruct (Hlink r t c Hr Hc) as (tc & Htc & _ & Hd).
  split; [|eexists; exact Htc]. unfold depth_rank. rewrite Hr, Htc.
  rewrite Forall_lookup in Hdepth. pose proof (Hdepth c tc Htc). lia.
Qed.

Lemma built_from_lower (lo lo' : nat) (h : list Transaction) :
  (lo' <= lo)%nat ->
  forall blob r, built_from lo h r blob -> built_from lo' h r blob.
Proof.
  intros Hlo. induction blob as [b cs IH] using BlobTree_induction.
  intros r H. inversion H as [? t ? ? Hr Ht Hdef Hleaf Hkids]; subst.
  econstructor; [lia | exact Ht | exact Hdef | exact Hleaf |].
  clear -IH Hkids. revert IH. induction Hkids as [|c bc l bl Hc _ IHk]; intros IH;
    [constructor|].
  inversion IH as [|? ? Hbc Hbl]; subst. constructor; [apply Hbc, Hc | apply IHk, Hbl].
Qed.

(** Objects at [lo] and above that are the same but for amounts of
    nodes with children: the trees built stay what they are. *)
Lemma built_from_frame (lo : nat) (h h' : list Transaction) :
  (forall x tx, (lo <= x)%nat -> h !! x = Some tx ->
     exists a, h' !! x = Some (set_amount a tx) /\ (children tx = [] -> a = amount tx)) ->
  forall blob r, built_from lo h r blob -> built_from lo h' r blob.
Proof.
  intros Hsame. induction blob as [b cs IH] using BlobTree_induction.
  intros r H. inversion H as [? t ? ? Hr Ht Hdef Hleaf Hkids]; subst.
  destruct (Hsame r t Hr Ht) as (a & Ht' & Ha).
  econstructor; [exact Hr | exact Ht' | exact Hdef | |].
  - intros E. cbn [amount set_amount]. rewrite Ha; [apply Hleaf, E|].
    rewrite E in Hkids. inversion Hkids. reflexivity.
  - cbn [children set_amount].
    clear -IH Hkids. revert IH. induction Hkids as [|c bc l bl Hc _ IHk]; intros IH;
      [constructor|].
    inversion IH as [|? ? Hbc Hbl]; subst. constructor; [apply Hbc, Hc | apply IHk, Hbl].
Qed.

Lemma forest_count_cons (b : Blob) (cs rest : list BlobTree) :
  forest_count (BlobNode b cs :: rest) = S (forest_count cs + forest_count rest).
Proof. reflexivity. Qed.

Lemma forest_height_cons (b : Blob) (cs rest : list BlobTree) :
  forest_height (BlobNode b cs :: rest)
  = Nat.max (S (forest_height cs)) (forest_height rest).
Proof. reflexivity. Qed.

Lemma defined_by_constructed (b : Blob) (sr : SeriesId) (sd ed : option Date)
  (this : ref) (t : Transaction) :
  date_day <$> sd = date_day <$> blob_startDate b ->
  date_day <$> ed = date_day <$> blob_endDate b ->
  (forall i, blob_series b = Some i -> truthy_series i = true -> sr = i) ->
  defined_by b (as_child_of this t (constructed b sr sd ed)).
Proof. intros Hsd Hed Hsr. repeat split; try reflexivity; assumption. Qed.

Lemma same_up_to_amounts_trans (h1 h2 h3 : list Transaction) (r : ref)
  (t1 : Transaction) :
  h1 !! r = Some t1 ->
  (exists a, h2 !! r = Some (set_amount a t1) /\ (children t1 = [] -> a = amount t1)) ->
  (forall t2, h2 !! r = Some t2 ->
     exists a, h3 !! r = Some (set_amount a t2) /\ (children t2 = [] -> a = amount t2)) ->
  exists a, h3 !! r = Some (set_amount a t1) /\ (children t1 = [] -> a = amount t1).
Proof.
  intros _ (a & H2 & Ha) H3. destruct (H3 _ H2) as (a' & H3' & Ha').
  exists a'. split; [exact H3'|]. intros Hc. rewrite (Ha' Hc). cbn. apply Ha, Hc.
Qed.

Lemma addChildren_run (D : Z) (fuel : nat) (n : nat) :
  forall (blobs : list BlobTree) (this : ref) (s : State) (t : Transaction),
    (forest_count blobs <= n)%nat ->
    levelled D (heap s) ->
    heap s !! this = Some t ->
    depth t + Z.of_nat (forest_height blobs) < D ->
    D - depth t < Z.of_nat fuel ->
    exists (s' : State) (news : list ref) (a : jsnum),
      addChildren (S fuel) this blobs s = Returns tt s'
      /\ heap s' !! this = Some (set_amount a (set_children (children t ++ news) t))
      /\ Forall2 (built_from (length (heap s)) (heap s')) news blobs
      /\ length (heap s') = (length (heap s) + forest_count blobs)%nat
      /\ (forall r tr, r <> this -> heap s !! r = Some tr ->
            exists a', heap s' !! r = Some (set_amount a' tr)
                       /\ (children tr = [] -> a' = amount tr))
      /\ levelled D (heap s').
Proof.
  induction n as [|n IH]; intros blobs this s t Hcount Hlev Ht Hdepth Hfuel.
  - destruct blobs as [|[b cs] rest]; [|rewrite forest_count_cons in Hcount; lia].
    exists s, [], (amount t). split; [reflexivity|]. split.
    { rewrite app_nil_r, set_children_same, set_amount_same. exact Ht. }
    split; [constructor|]. split; [cbn; lia|]. split; [|exact Hlev].
    intros r tr _ Hr. exists (amount tr). rewrite set_amount_same. auto.
  - destruct blobs as [|[b cs] rest].
    { exists s, [], (amount t). split; [reflexivity|]. split.
      { rewrite app_nil_r, set_children_same, set_amount_same. exact Ht. }
      split; [constructor|]. split; [cbn; lia|]. split; [|exact Hlev].
      intros r tr _ Hr. exists (amount tr). rewrite set_amount_same. auto. }
    rewrite forest_count_cons in Hcount. rewrite forest_height_cons in Hdepth.
    pose proof Hlev as (Hlink & Hpar & Hdep).
    assert (this < length (heap s))%nat as Hlt by (eapply lookup_lt_Some; exact Ht).
    assert (parent t = None) as Hp.
    { unfold no_parent_property in Hpar. rewrite Forall_lookup in Hpar.
      exact (Hpar this t Ht). }
    (* the child *)
    destruct (addChild_store (depth_rank D (heap s)) fuel s this (Plain b) b t Ht Hp
                (levelled_tree_shaped D (heap s) Hlev))
      as (t0 & s0 & s1 & vs & Hrun & Hnew & Hheap0 & Hh & _ & Hthis1 & Hnt & _);
      [unfold depth_rank; rewrite Ht; lia | reflexivity|].
    destruct (new_Transaction_constructed b s)
      as (sr & sd & ed & s0' & Hnew' & Hheap0' & Hsd & Hed & Hsr & _).
    rewrite Hnew in Hnew'. injection Hnew' as <-. rewrite Hheap0 in Hheap0'.
    apply app_inv_head in Hheap0'. injection Hheap0' as ->.
    set (L := length (heap s)) in *.
    set (nt := as_child_of this t (constructed b sr sd ed)) in *.
    assert (length (heap s1) = S L) as Hlen1.
    { rewrite (same_but_amounts_length _ _ Hh). unfold with_new_child.
      rewrite length_app, length_insert. simpl. lia. }
    assert (levelled D (heap s1)) as Hlev1.
    { destruct (forest_same_but_amounts _ _ _ Hh
                  (forest_with_new_child (depth_rank D (heap s)) (heap s) this t
                     (constructed b sr sd ed)
                     (conj (levelled_tree_shaped D (heap s) Hlev) (conj Hlink Hpar))
                     Ht eq_refl eq_refl)) as (_ & Hlink1 & Hpar1).
      split; [exact Hlink1|]. split; [exact Hpar1|].
      apply Forall_lookup. intros r x Hr.
      destruct (same_but_amounts_lookup_back _ _ _ _ Hh Hr) as (x0 & a0 & Hx0 & ->).
      cbn [depth set_amount].
      destruct (with_new_child_lookup _ _ _ _ _ _ Ht Hx0) as [[_ ->]|[[_ ->]|[_ Hx]]].
      - cbn. lia.
      - cbn. lia.
      - rewrite Forall_lookup in Hdep. exact (Hdep r x0 Hx). }
    (* the children of the child *)
    destruct (IH cs L s1 nt) as (s2 & news_c & a2 & Hrun2 & HL2 & Hbuilt2 & Hlen2 & Hframe2
                                  & Hlev2);
      [lia | exact Hlev1 | exact Hnt | cbn; lia | cbn; lia |].
    assert ((if (0 <? length cs)%nat
             then forEach (addChildren_each (S fuel) L) cs else ret tt) s1
            = Returns tt s2) as Hkids.
    { destruct cs; [|exact Hrun2]. cbn in Hrun2. exact Hrun2. }
    destruct (Hframe2 this _ ltac:(lia) Hthis1) as (a1 & Hthis2 & _).
    (* the rest, under [this] *)
    destruct (IH rest this s2 _ ltac:(lia) Hlev2 Hthis2)
      as (s3 & news_r & a3 & Hrun3 & Hthis3 & Hbuilt3 & Hlen3 & Hframe3 & Hlev3);
      [cbn; lia | cbn; lia|].
    exists s3, (L :: news_r), a3. split.
    { unfold addChildren. cbn [forEach addChildren_each].
      erewrite bind_Returns; cycle 1.
      { erewrite bind_Returns by exact Hrun. exact Hkids. }
      exact Hrun3. }
    split.
    { rewrite Hthis3. cbn [children set_amount set_children].
      rewrite <- app_assoc. reflexivity. }
    split.
    { constructor.
      - apply (built_from_frame L (heap s2)).
        + intros x tx Hx Htx. apply Hframe3; [lia | exact Htx].
        + econstructor; [lia | exact HL2 | | |].
          * apply defined_by_constructed; assumption.
          * intros ->. inversion Hbuilt2; subst. cbn in Hrun2.
            injection Hrun2 as <-. rewrite Hnt in HL2. injection HL2 as E.
            cbn [amount set_amount]. symmetry. exact E.
          * cbn [children set_amount set_children nt as_child_of set_depth
                 set_parentTransaction constructed app].
            eapply Forall2_impl; [exact Hbuilt2|]. intros r blob.
            apply built_from_lower. lia.
      - eapply Forall2_impl; [exact Hbuilt3|]. intros r blob.
        apply built_from_lower. lia. }
    split; [rewrite Hlen3, Hlen2, Hlen1, forest_count_cons; lia|].
    split; [|exact Hlev3].
    intros r tr Hne Hr.
    assert (r < L)%nat as HrL by (eapply lookup_lt_Some; exact Hr).
    eapply (same_up_to_amounts_trans (heap s) (heap s2)); [exact Hr | |].
    + eapply (same_up_to_amounts_trans (heap s) (heap s1)); [exact Hr | |].
      * apply (same_but_amounts_lookup _ _ r tr Hh). unfold with_new_child.
        rewrite lookup_app_l by (rewrite length_insert; exact HrL).
        rewrite list_lookup_insert_ne by congruence. exact Hr.
      * intros t2 Ht2. apply Hframe2; [lia | exact Ht2].
    + intros t2 Ht2. apply Hframe3; [exact Hne | exact Ht2].
Qed.

(** X6: [addChildren] builds the tree the blobs describe. Under [this] it
    makes one new transaction for every blob, the children in the order
    of the blobs and nested as the blobs nest; each says what the
    constructor makes of its blob, and those made of blobs without
    children have their blob's amount. The objects there were keep all
    but the amounts of those with children, and the store stays
    levelled. *)
Theorem addChildren_builds_the_tree (D : Z) (fuel : nat) (s : State) (this : nat)
  (t : Transaction) (blobs : list BlobTree)
  (Hlev : levelled D (heap s))
  (Ht : heap s !! this = Some t)
  (Hdepth : depth t + Z.of_nat (forest_height blobs) < D)
  (Hfuel : D - depth t < Z.of_nat fuel) :
  exists (s' : State) (news : list nat) (a : jsnum),
    addChildren (S fuel) this blobs s = Returns tt s'
    /\ heap s' !! this = Some (set_amount a (set_children (children t ++ news) t))
    /\ Forall2 (built_from (length (heap s)) (heap s')) news blobs
    /\ length (heap s') = (length (heap s) + forest_count blobs)%nat
    /\ (forall r tr, r <> this -> heap s !! r = Some tr ->
          exists a', heap s' !! r = Some (set_amount a' tr)
                     /\ (children tr = [] -> a' = amount tr))
    /\ levelled D (heap s').
Proof.
  exact (addChildren_run D fuel (forest_count blobs) blobs this s t (Nat.le_refl _)
           Hlev Ht Hdepth Hfuel).
Qed.

Lemma stale_root_store_levelled : levelled 3 (heap stale_root_store).
Proof.
  split; [exact (proj1 (proj2 stale_root_store_forest))|].
  split; [exact (proj2 (proj2 stale_root_store_forest))|].
  repeat constructor.
Qed.

Lemma addChildren_builds_the_tree_witness :
  exists (s' : State) (news : list nat) (a : jsnum),
    addChildren 5 1%nat [BlobNode (amount_blob 10) [BlobNode (amount_blob 5) []]]
      stale_root_store
    = Returns tt s'
    /\ heap s' !! 1%nat
       = Some (set_amount a (set_children ([] ++ news) (node (JNum 3) [] (Some 0%nat))))
    /\ Forall2 (built_from 3 (heap s')) news
         [BlobNode (amount_blob 10) [BlobNode (amount_blob 5) []]]
    /\ length (heap s') = 5%nat
    /\ (forall r tr, r <> 1%nat -> heap stale_root_store !! r = Some tr ->
          exists a', heap s' !! r = Some (set_amount a' tr)
                     /\ (children tr = [] -> a' = amount tr))
    /\ levelled 3 (heap s').
Proof.
  apply (addChildren_builds_the_tree 3 4 stale_root_store 1%nat
           (node (JNum 3) [] (Some 0%nat))
           [BlobNode (amount_blob 10) [BlobNode (amount_blob 5) []]]);
    [exact stale_root_store_levelled | reflexivity | reflexivity | reflexivity].
Defined.

(** ** Growth *)

Section Growth.

Variable g : jsnum.

Lemma grown_length (occs : list Transaction) : forall a, length (grown g a occs) = length occs.
Proof. induction occs as [|o rest IH]; intros a; simpl; [reflexivity | rewrite IH; reflexivity]. Qed.

Lemma compounded_shift (a : jsnum) (i : nat) :
  compounded g (compounded g a 1) i = compounded g a (S i).
Proof. induction i as [|i IH]; [reflexivity|]. simpl in *. rewrite IH. reflexivity. Qed.

Lemma grown_lookup (occs : list Transaction) :
  forall (a : jsnum) (i : nat) (o : Transaction),
    occs !! i = Some o ->
    grown g a occs !! i = Some (set_amount (compounded g a (S i)) o).
Proof.
  induction occs as [|o' rest IH]; intros a i o H; [discriminate|].
  destruct i as [|i]; simpl in *.
  - injection H as ->. reflexivity.
  - rewrite (IH _ i o H). f_equal. f_equal. apply (compounded_shift a (S i)).
Qed.

Lemma grow_spec (occs : list Transaction) :
  forall (pre : list Transaction) (o : Transaction) (s : State),
    heap s = pre ++ o :: occs ->
    grow g (length pre) (seq (S (length pre)) (length occs)) s
    = Returns tt (mkState (pre ++ o :: grown g (amount o) occs) (boundsHeap s)
                    (nextDate s) (nextUuid s) (today s)).
Proof.
  induction occs as [|o1 rest IH]; intros pre o s Hs.
  - simpl. unfold ret. rewrite <- Hs. destruct s; reflexivity.
  - cbn [length seq grow].
    erewrite bind_Returns; cycle 1.
    { apply load_Returns. rewrite Hs. apply list_lookup_middle. reflexivity. }
    erewrite bind_Returns; cycle 1.
    { apply update_Returns. rewrite Hs.
      change (pre ++ o :: o1 :: rest) with (pre ++ [o] ++ o1 :: rest).
      rewrite app_assoc. apply list_lookup_middle.
      rewrite length_app. simpl. lia. }
    replace (S (length pre)) with (length (pre ++ [o]))
      by (rewrite length_app; simpl; lia).
    rewrite (IH (pre ++ [o]) (set_amount
                 (JNum (to_number (amount o) * (1 + to_number g / 100))%float) o1)).
    + simpl. rewrite <- app_assoc. reflexivity.
    + simpl. rewrite Hs.
      change (pre ++ o :: o1 :: rest) with (pre ++ [o] ++ o1 :: rest).
      rewrite app_assoc.
      rewrite <- (Nat.add_0_r (length (pre ++ [o]))) at 1.
      rewrite insert_app_r. reflexivity.
Qed.
End Growth.

(** ** Expansion *)

Lemma clone_each (t : Transaction) (sr : SeriesId) (dates : list Z) :
  forall s : State,
    exists (occs : list Transaction) (n : nat),
      map_each (fun m => d <- new_Date m ;; new_object (occurrence_of t sr d)) dates s
      = Returns (seq (length (heap s)) (length dates))
          (mkState (heap s ++ occs) (boundsHeap s) n (nextUuid s) (today s))
      /\ length occs = length dates
      /\ Forall (fun o => exists d, o = occurrence_of t sr d) occs.
Proof.
  induction dates as [|m dates IH]; intros s.
  - exists [], (nextDate s). split; [|split; [reflexivity|constructor]].
    simpl. unfold ret. rewrite app_nil_r. destruct s; reflexivity.
  - destruct (IH (mkState (heap s ++ [occurrence_of t sr (mkDate (nextDate s) m)])
                    (boundsHeap s) (S (nextDate s)) (nextUuid s) (today s)))
      as (occs & n & Hrun & Hlen & Hall).
    exists (occurrence_of t sr (mkDate (nextDate s) m) :: occs), n.
    split; [|split].
    + cbn [map_each]. unfold bind at 1. unfold bind at 1.
      unfold new_Date at 1. unfold new_object at 1. cbn [heap boundsHeap nextDate nextUuid today].
      erewrite bind_Returns by exact Hrun. unfold ret. cbn [heap boundsHeap nextDate nextUuid today length seq].
      rewrite length_app. simpl length. rewrite Nat.add_1_r.
      rewrite <- app_assoc. reflexivity.
    + simpl. rewrite Hlen. reflexivity.
    + constructor; [eexists; reflexivity | exact Hall].
Qed.

Lemma amount_occurrence_of (t : Transaction) (sr : SeriesId) (d : Date) :
  amount (occurrence_of t sr d) = amount t.
Proof. reflexivity. Qed.

Lemma lookup_seq_Some (start len i r : nat) :
  seq start len !! i = Some r -> r = (start + i)%nat /\ (i < len)%nat.
Proof. intros H. apply lookup_seq in H. exact H. Qed.

(** What an uncached expansion does to the store: the occurrences are
    new objects after all the others, copies of the transaction except for
    the date and, when the growth applies, the compounded amount; and
    [this] gets the stash. *)
Lemma expand_spec (s : State) (this txn : ref) (bounds : bref)
  (t th : Transaction) (start end_ : option Z) (dates : list Z) :
  heap s !! txn = Some t ->
  heap s !! this = Some th ->
  generateRepeatDates (frequency t) start end_ = Ok dates ->
  exists (occs : list Transaction) (n : nat),
    expand this txn bounds start end_ s
    = Returns (seq (length (heap s)) (length dates))
        (mkState
           (<[this := set_transactionSeries
                        (Some (mkStash (seq (length (heap s)) (length dates))
                                 (amount th) (growth th) (frequency th)
                                 (startDate th) bounds)) th]> (heap s)
            ++ occs)
           (boundsHeap s) n (nextUuid s) (today s))
    /\ length occs = length dates
    /\ forall i o, occs !! i = Some o ->
         exists d,
           o = set_amount (if growth_applies (growth t)
                           then compounded (growth t) (amount t) i
                           else amount t)
                 (occurrence_of t (series th) d).
Proof.
  intros Htxn Hthis Hdates.
  destruct (clone_each t (series th) dates s) as (occs & n & Hrun & Hlen & Hall).
  assert (this < length (heap s))%nat as Hlt by (eapply lookup_lt_Some; exact Hthis).
  unfold expand.
  erewrite bind_Returns by (apply load_Returns; exact Htxn).
  erewrite bind_Returns by (apply load_Returns; exact Hthis).
  rewrite Hdates.
  erewrite bind_Returns by reflexivity.
  erewrite bind_Returns by exact Hrun.
  destruct (growth_applies (growth t)) eqn:Happ.
  - destruct occs as [|o occs]; destruct dates as [|m dates]; try discriminate.
    + exists [], n. split; [|split; [reflexivity|intros i o H; discriminate]].
      simpl seq. cbv iota.
      erewrite bind_Returns by reflexivity.
      erewrite bind_Returns; cycle 1.
      { apply load_Returns. simpl. rewrite app_nil_r. exact Hthis. }
      erewrite bind_Returns; cycle 1.
      { apply update_Returns. simpl. rewrite app_nil_r. exact Hthis. }
      simpl. rewrite !app_nil_r. reflexivity.
    + exists (o :: grown (growth t) (amount o) occs), n.
      injection Hlen as Hlen.
      split; [|split].
      * cbn [length seq]. cbv iota. rewrite <- Hlen.
        erewrite bind_Returns; cycle 1.
        { apply grow_spec. reflexivity. }
        erewrite bind_Returns; cycle 1.
        { apply load_Returns. simpl. rewrite lookup_app_l by exact Hlt. exact Hthis. }
        erewrite bind_Returns; cycle 1.
        { apply update_Returns. simpl. rewrite lookup_app_l by exact Hlt. exact Hthis. }
        simpl. rewrite insert_app_l by exact Hlt. reflexivity.
      * simpl. rewrite grown_length. rewrite Hlen. reflexivity.
      * inversion Hall as [|? ? (d & ->) Hrest]; subst.
        intros [|i] o' Hi.
        -- injection Hi as <-. exists d. symmetry.
           exact (set_amount_same (occurrence_of t (series th) d)).
        -- simpl in Hi.
           destruct (occs !! i) as [o1|] eqn:Ho1.
           ++ rewrite (grown_lookup _ _ _ _ _ Ho1) in Hi. injection Hi as <-.
              rewrite Forall_lookup in Hrest. destruct (Hrest i o1 Ho1) as (d1 & ->).
              exists d1. reflexivity.
           ++ apply lookup_ge_None in Ho1.
              apply lookup_lt_Some in Hi. rewrite grown_length in Hi. lia.
  - exists occs, n. split; [|split; [exact Hlen|]].
    + erewrite bind_Returns by reflexivity.
      erewrite bind_Returns; cycle 1.
      { apply load_Returns. simpl. rewrite lookup_app_l by exact Hlt. exact Hthis. }
      erewrite bind_Returns; cycle 1.
      { apply update_Returns. simpl. rewrite lookup_app_l by exact Hlt. exact Hthis. }
      simpl. rewrite insert_app_l by exact Hlt. reflexivity.
    + intros i o Hi. rewrite Forall_lookup in Hall. destruct (Hall i o Hi) as (d & ->).
      exists d. symmetry. exact (set_amount_same (occurrence_of t (series th) d)).
Qed.

Lemma initRepeatTransactions_expands (s : State) (this txn : ref) (bounds : bref)
  (t th : Transaction) (bb : Bounds) :
  heap s !! txn = Some t ->
  heap s !! this = Some th ->
  boundsHeap s !! bounds = Some bb ->
  frequency t <> "none"%string ->
  stash_hit th t bounds = None ->
  initRepeatTransactions this txn bounds s
  = bind (expand this txn bounds (moment (today s) (of_date (startDate t)))
            (recurrence_end (today s) t bb))
      (fun repeatTxns => ret (GArray repeatTxns)) s.
Proof.
  intros Htxn Hthis Hb Hfreq Hmiss. unfold initRepeatTransactions.
  erewrite bind_Returns by (apply load_Returns; exact Htxn).
  apply String.eqb_neq in Hfreq. rewrite Hfreq.
  erewrite bind_Returns by (apply load_bounds_Returns; exact Hb).
  erewrite bind_Returns by reflexivity.
  erewrite bind_Returns by (apply load_Returns; exact Hthis).
  rewrite Hmiss. reflexivity.
Qed.

(** C4 (amended): an uncached expansion of a recurring definition whose
    growth is a number [g] other than zero gives the first occurrence the
    definition's amount and every later one the amount of the occurrence
    before it times [1 + g / 100], in binary64 arithmetic. For amount 100
    and growth 10 the three amounts are 100, [100 * 1.1] and
    [100 * 1.1 * 1.1], which are 110.00000000000001 and
    121.00000000000003. *)
Theorem growth_compounds
  (s : State) (this txn : ref) (bounds : bref) (t th : Transaction)
  (bb : Bounds) (g : float)
  (Htxn : heap s !! txn = Some t)
  (Hthis : heap s !! this = Some th)
  (Hbounds : boundsHeap s !! bounds = Some bb)
  (Hrecurs : In (frequency t) recurring_frequencies)
  (Hgrowth : growth t = JNum g)
  (Hnonzero : PrimFloat.eqb g 0 = false)
  (Hmiss : stash_hit th t bounds = None) :
  (exists (dates : list Z) (rs : list ref) (s' : State),
     generateRepeatDates (frequency t) (moment (today s) (of_date (startDate t)))
       (recurrence_end (today s) t bb) = Ok dates
     /\ initRepeatTransactions this txn bounds s = Returns (GArray rs) s'
     /\ length rs = length dates
     /\ (forall i r, rs !! i = Some r ->
           exists o, heap s' !! r = Some o
                     /\ amount o = compounded (JNum g) (amount t) i)
     /\ (forall i r r' o o',
           rs !! i = Some r -> rs !! S i = Some r' ->
           heap s' !! r = Some o -> heap s' !! r' = Some o' ->
           amount o' = JNum (to_number (amount o) * (1 + g / 100))%float))
  /\ (exists s',
        compounding_program (empty_state 0)
        = Returns [JNum 100;
                   JNum (100 * (1 + 10 / 100))%float;
                   JNum (100 * (1 + 10 / 100) * (1 + 10 / 100))%float] s')
  /\ (100 * (1 + 10 / 100) = 0x1.b800000000001p+6)%float
  /\ (100 * (1 + 10 / 100) * (1 + 10 / 100) = 0x1.e400000000002p+6)%float.
Proof.
  split; [|split; [eexists; vm_compute; reflexivity | split; vm_compute; reflexivity]].
  assert (frequency t <> "none"%string) as Hfreq.
  { intros E. rewrite E in Hrecurs. simpl in Hrecurs.
    destruct Hrecurs as [H|[H|[H|[H|[]]]]]; discriminate. }
  assert (exists dates,
             generateRepeatDates (frequency t) (moment (today s) (of_date (startDate t)))
               (recurrence_end (today s) t bb) = Ok dates) as (dates & Hdates).
  { unfold recurring_frequencies in Hrecurs. simpl in Hrecurs.
    destruct Hrecurs as [<-|[<-|[<-|[<-|[]]]]]; eexists; reflexivity. }
  destruct (expand_spec s this txn bounds t th _ _ dates Htxn Hthis Hdates)
    as (occs & n & Hrun & Hlen & Hoccs).
  assert (growth_applies (growth t) = true) as Happ.
  { rewrite Hgrowth. unfold growth_applies. simpl. rewrite Hnonzero. reflexivity. }
  rewrite Happ, Hgrowth in Hoccs.
  assert (forall i r, seq (length (heap s)) (length dates) !! i = Some r ->
            exists o, (<[this := set_transactionSeries
                        (Some (mkStash (seq (length (heap s)) (length dates))
                                 (amount th) (growth th) (frequency th)
                                 (startDate th) bounds)) th]> (heap s) ++ occs) !! r = Some o
                      /\ amount o = compounded (JNum g) (amount t) i) as Hlook.
  { intros i r Hi. apply lookup_seq_Some in Hi. destruct Hi as [-> Hi].
    rewrite lookup_app_r by (rewrite length_insert; lia).
    rewrite length_insert.
    replace (length (heap s) + i - length (heap s))%nat with i by lia.
    destruct (occs !! i) as [o|] eqn:Ho.
    - exists o. split; [reflexivity|]. destruct (Hoccs i o Ho) as (d & ->). reflexivity.
    - apply lookup_ge_None in Ho. lia. }
  exists dates, (seq (length (heap s)) (length dates)).
  eexists. split; [exact Hdates|]. split.
  { rewrite (initRepeatTransactions_expands s this txn bounds t th bb) by assumption.
    erewrite bind_Returns by exact Hrun. reflexivity. }
  cbn [heap].
  split; [apply length_seq|]. split; [exact Hlook|].
  intros i r r' o o' Hi Hi' Ho Ho'.
  destruct (Hlook i r Hi) as (o1 & Ho1 & Ha). destruct (Hlook (S i) r' Hi') as (o2 & Ho2 & Ha').
  pose proof (eq_trans (eq_sym Ho1) Ho) as E. injection E as <-.
  pose proof (eq_trans (eq_sym Ho2) Ho') as E. injection E as <-.
  rewrite Ha', Ha. reflexivity.
Qed.

(** C4, as stated, fails on its example: the three amounts are not
    100, 110 and 121. *)
Lemma ten_percent_of_100_is_not_110 :
  exists l s,
    compounding_program (empty_state 0) = Returns l s
    /\ length l = 3%nat
    /\ l <> [JNum 100; JNum 110; JNum 121].
Proof.
  eexists. eexists. split; [vm_compute; reflexivity|]. split; [reflexivity|].
  intros H.
  apply (f_equal (fun l => match l with
                           | _ :: JNum x :: _ => PrimFloat.eqb x 110
                           | _ => true
                           end)) in H.
  vm_compute in H. discriminate.
Qed.

Lemma growth_compounds_witness :
  exists (dates : list Z) (rs : list ref) (s' : State),
    generateRepeatDates (frequency weekly_100)
      (moment (today weekly_store) (of_date (startDate weekly_100)))
      (recurrence_end (today weekly_store) weekly_100 two_weeks) = Ok dates
    /\ initRepeatTransactions 1%nat 1%nat 0%nat weekly_store = Returns (GArray rs) s'
    /\ length rs = length dates
    /\ (forall i r, rs !! i = Some r ->
          exists o, heap s' !! r = Some o
                    /\ amount o = compounded (JNum 10) (amount weekly_100) i)
    /\ (forall i r r' o o',
          rs !! i = Some r -> rs !! S i = Some r' ->
          heap s' !! r = Some o -> heap s' !! r' = Some o' ->
          amount o' = JNum (to_number (amount o) * (1 + 10 / 100))%float).
Proof.
  refine (proj1 (growth_compounds weekly_store 1%nat 1%nat 0%nat weekly_100
                   weekly_100 two_weeks 10%float _ _ _ _ _ _ _));
    try reflexivity.
  simpl. auto.
Defined.

(** ** The recurrence cache *)

(** A stash that matches is returned as it is, and nothing changes. *)
Lemma stash_hit_served (s : State) (this txn : nat) (bounds : nat)
  (t th : Transaction) (bb : Bounds) (txns : list nat) :
  heap s !! txn = Some t ->
  heap s !! this = Some th ->
  boundsHeap s !! bounds = Some bb ->
  frequency t <> "none"%string ->
  stash_hit th t bounds = Some txns ->
  initRepeatTransactions this txn bounds s = Returns (GArray txns) s.
Proof.
  intros Htxn Hthis Hb Hfreq Hhit. unfold initRepeatTransactions.
  erewrite bind_Returns by (apply load_Returns; exact Htxn).
  apply String.eqb_neq in Hfreq. rewrite Hfreq.
  erewrite bind_Returns by (apply load_bounds_Returns; exact Hb).
  erewrite bind_Returns by reflexivity.
  erewrite bind_Returns by (apply load_Returns; exact Hthis).
  rewrite Hhit. reflexivity.
Qed.

(** X11: after an expansion, the same call with nothing changed in between
    returns the array of the first call, the same objects, and leaves the
    store as it is. (An amount or growth that is [NaN] is never [===] to
    itself: such a definition is expanded every time.) *)
Lemma expansion_is_stashed (s : State) (this : nat) (bounds : nat)
  (t : Transaction) (bb : Bounds) :
  heap s !! this = Some t ->
  boundsHeap s !! bounds = Some bb ->
  In (frequency t) recurring_frequencies ->
  stash_hit t t bounds = None ->
  strict_eq_num (amount t) (amount t) = true ->
  strict_eq_num (growth t) (growth t) = true ->
  exists (rs : list nat) (s' : State),
    initRepeatTransactions this this bounds s = Returns (GArray rs) s'
    /\ initRepeatTransactions this this bounds s' = Returns (GArray rs) s'.
Proof.
  intros Hthis Hb Hrecurs Hmiss Ha Hg.
  assert (frequency t <> "none"%string) as Hfreq.
  { intros E. rewrite E in Hrecurs. simpl in Hrecurs.
    destruct Hrecurs as [H|[H|[H|[H|[]]]]]; discriminate. }
  assert (exists dates,
             generateRepeatDates (frequency t) (moment (today s) (of_date (startDate t)))
               (recurrence_end (today s) t bb) = Ok dates) as (dates & Hdates).
  { unfold recurring_frequencies in Hrecurs. simpl in Hrecurs.
    destruct Hrecurs as [<-|[<-|[<-|[<-|[]]]]]; eexists; reflexivity. }
  destruct (expand_spec s this this bounds t t _ _ dates Hthis Hthis Hdates)
    as (occs & n & Hrun & _).
  assert (this < length (heap s))%nat as Hlt by (eapply lookup_lt_Some; exact Hthis).
  eexists. eexists. split.
  { rewrite (initRepeatTransactions_expands s this this bounds t t bb) by assumption.
    erewrite bind_Returns by exact Hrun. reflexivity. }
  eapply stash_hit_served.
  - cbn [heap]. rewrite lookup_app_l by (rewrite length_insert; exact Hlt).
    apply list_lookup_insert_eq. exact Hlt.
  - cbn [heap]. rewrite lookup_app_l by (rewrite length_insert; exact Hlt).
    apply list_lookup_insert_eq. exact Hlt.
  - exact Hb.
  - exact Hfreq.
  - unfold stash_hit. cbn [transactionSeries set_transactionSeries stash_amount
      stash_growth stash_frequency stash_startDate stash_bounds stash_txns amount
      growth frequency startDate].
    rewrite Ha, Hg, String.eqb_refl, Nat.eqb_refl.
    assert (strict_eq_date (startDate t) (startDate t) = true) as ->.
    { destruct (startDate t); simpl; [apply Nat.eqb_refl | reflexivity]. }
    reflexivity.
Qed.

(** A stash made for another amount does not match. *)
Lemma changed_amount_misses (this_ txn : Transaction) (bounds : nat) (st : Stash) :
  transactionSeries this_ = Some st ->
  strict_eq_num (stash_amount st) (amount txn) = false ->
  stash_hit this_ txn bounds = None.
Proof. unfold stash_hit. intros -> ->. reflexivity. Qed.

(** Expanding twice with nothing changed in between returns the same
    array of the same objects, and the second call leaves the store as it
    was. *)
Lemma stash_served_when_nothing_changed :
  match stash_program (empty_state 0) with
  | Returns r _ =>
      first_expansion r = [2; 3; 4]%nat
      /\ second_expansion r = first_expansion r
      /\ untouched r = true
  | _ => False
  end.
Proof. vm_compute. repeat split; reflexivity. Qed.

(** A changed [amount] makes the next call expand again: new objects,
    with the new amount. *)
Lemma changed_amount_expands_again :
  match changed_amount_program (empty_state 0) with
  | Returns (g1, g2, amounts) _ =>
      g1 = [2; 3; 4]%nat /\ g2 = [5; 6; 7]%nat
      /\ amounts = [JNum 200; JNum 200; JNum 200]
  | _ => False
  end.
Proof. vm_compute. repeat split; reflexivity. Qed.

(** C3 fails when the bounds object is changed in place. After an
    expansion over [day 0, day 14], [valueOnDate(day 28, bounds)] assigns
    [bounds.endDate] on the same object; the stash, compared by
    [this.transactionSeries.bounds === bounds], is served again: the
    occurrences of days 0, 7 and 14 and the value 300, where an uncached
    expansion for those bounds has the days 0 to 28 and the value is
    500. *)
Theorem stash_is_stale_after_bounds_change :
  match stash_program (empty_state 0) with
  | Returns r _ =>
      served_days r = [Some 0; Some 7; Some 14]
      /\ fresh_days r = [Some 0; Some 7; Some 14; Some 21; Some 28]
      /\ served_days r <> fresh_days r
      /\ stale_value r = 300%float
      /\ fresh_value r = 500%float
  | _ => False
  end.
Proof. vm_compute. repeat split; try reflexivity. discriminate. Qed.

Lemma expansion_is_stashed_witness :
  exists (rs : list nat) (s' : State),
    initRepeatTransactions 1%nat 1%nat 0%nat weekly_store = Returns (GArray rs) s'
    /\ initRepeatTransactions 1%nat 1%nat 0%nat s' = Returns (GArray rs) s'.
Proof.
  apply (expansion_is_stashed weekly_store 1%nat 0%nat weekly_100 two_weeks);
    [reflexivity | reflexivity | simpl; auto | reflexivity | reflexivity | reflexivity].
Defined.

(** ** The occurrences of an expansion *)

Lemma clone_each_dated (t : Transaction) (sr : SeriesId) (dates : list Z) :
  forall s : State,
    map_each (fun m => d <- new_Date m ;; new_object (occurrence_of t sr d)) dates s
    = Returns (seq (length (heap s)) (length dates))
        (mkState (heap s ++ clones_from t sr (nextDate s) dates) (boundsHeap s)
           (length dates + nextDate s) (nextUuid s) (today s)).
Proof.
  induction dates as [|m dates IH]; intros s.
  - cbn. unfold ret. rewrite app_nil_r, state_same. reflexivity.
  - cbn [map_each]. unfold bind at 1. unfold bind at 1.
    unfold new_Date at 1. unfold new_object at 1.
    cbn [heap boundsHeap nextDate nextUuid today].
    erewrite bind_Returns by apply IH. unfold ret.
    cbn [heap boundsHeap nextDate nextUuid today length seq clones_from].
    rewrite length_app. simpl length. rewrite Nat.add_1_r, Nat.add_succ_r.
    rewrite <- app_assoc. reflexivity.
Qed.

Lemma clones_from_lookup (t : Transaction) (sr : SeriesId) (dates : list Z) :
  forall (n i : nat) (o : Transaction),
    clones_from t sr n dates !! i = Some o ->
    exists m, dates !! i = Some m /\ o = occurrence_of t sr (mkDate (n + i) m).
Proof.
  induction dates as [|m dates IH]; intros n i o H; [discriminate|].
  destruct i as [|i]; cbn in H.
  - injection H as <-. exists m. rewrite Nat.add_0_r. split; reflexivity.
  - destruct (IH (S n) i o H) as (m' & Hm & ->). exists m'. split; [exact Hm|].
    rewrite Nat.add_succ_r. reflexivity.
Qed.

Lemma clones_from_length (t : Transaction) (sr : SeriesId) (dates : list Z) :
  forall n, length (clones_from t sr n dates) = length dates.
Proof. induction dates as [|m dates IH]; intros n; simpl; [|rewrite IH]; reflexivity. Qed.

(** X10: An uncached expansion: one new object for each date generated, in
    their order. Each is a copy of the definition, children and parent
    included, but for its start date, which is the date generated, its
    end date, which is null, its frequency, which is ['none'], its
    series, which is that of [this], and its amount. The definition gets
    the stash, and no other object changes. *)
Theorem occurrences_fall_on_the_generated_dates
  (s : State) (this txn : nat) (bounds : nat) (t th : Transaction) (bb : Bounds)
  (Htxn : heap s !! txn = Some t)
  (Hthis : heap s !! this = Some th)
  (Hbounds : boundsHeap s !! bounds = Some bb)
  (Hrecurs : In (frequency t) recurring_frequencies)
  (Hmiss : stash_hit th t bounds = None) :
  exists (dates : list Z) (s' : State),
    generateRepeatDates (frequency t) (moment (today s) (of_date (startDate t)))
      (recurrence_end (today s) t bb) = Ok dates
    /\ initRepeatTransactions this txn bounds s
       = Returns (GArray (seq (length (heap s)) (length dates))) s'
    /\ length (heap s') = (length (heap s) + length dates)%nat
    /\ (forall i m, dates !! i = Some m ->
          exists o d,
            heap s' !! (length (heap s) + i)%nat = Some o
            /\ startDate o = Some d /\ date_day d = m
            /\ o = set_amount (amount o) (occurrence_of t (series th) d))
    /\ (exists st, heap s' !! this = Some (set_transactionSeries (Some st) th)
                   /\ stash_txns st = seq (length (heap s)) (length dates)
                   /\ stash_bounds st = bounds)
    /\ (forall r, (r < length (heap s))%nat -> r <> this -> heap s' !! r = heap s !! r).
Proof.
  assert (frequency t <> "none"%string) as Hfreq.
  { intros E. rewrite E in Hrecurs. simpl in Hrecurs.
    destruct Hrecurs as [H|[H|[H|[H|[]]]]]; discriminate. }
  assert (exists dates,
             generateRepeatDates (frequency t) (moment (today s) (of_date (startDate t)))
               (recurrence_end (today s) t bb) = Ok dates) as (dates & Hdates).
  { unfold recurring_frequencies in Hrecurs. simpl in Hrecurs.
    destruct Hrecurs as [<-|[<-|[<-|[<-|[]]]]]; eexists; reflexivity. }
  destruct (expand_spec s this txn bounds t th _ _ dates Htxn Hthis Hdates)
    as (occs & n & Hrun & Hlen & Hoccs).
  assert (this < length (heap s))%nat as Hlt by (eapply lookup_lt_Some; exact Hthis).
  (* the same run, with the dates kept *)
  assert (forall i o, occs !! i = Some o ->
            exists m, dates !! i = Some m
                      /\ startDate o = Some (mkDate (nextDate s + i) m)) as Hdated.
  { revert Hrun. unfold expand.
    erewrite bind_Returns by (apply load_Returns; exact Htxn).
    erewrite bind_Returns by (apply load_Returns; exact Hthis).
    rewrite Hdates.
    erewrite bind_Returns by reflexivity.
    erewrite bind_Returns by apply clone_each_dated.
    set (cl := clones_from t (series th) (nextDate s) dates).
    assert (length cl = length dates) as Hcl by apply clones_from_length.
    destruct (growth_applies (growth t)).
    - destruct cl as [|o cl'] eqn:Ecl; destruct dates as [|m dates']; try discriminate.
      + intros _ i o Hi. destruct occs; [destruct i; discriminate | discriminate].
      + injection Hcl as Hcl. cbn [length seq]. cbv iota. rewrite <- Hcl.
        erewrite bind_Returns; cycle 1.
        { apply grow_spec. reflexivity. }
        erewrite bind_Returns; cycle 1.
        { apply load_Returns. simpl. rewrite lookup_app_l by exact Hlt. exact Hthis. }
        erewrite bind_Returns; cycle 1.
        { apply update_Returns. simpl. rewrite lookup_app_l by exact Hlt. exact Hthis. }
        cbn [heap boundsHeap nextDate nextUuid today]. unfold ret.
        rewrite insert_app_l by exact Hlt.
        intros H. injection H as H _. apply app_inv_head in H. subst occs.
        intros i o' Hi.
        assert (exists o0, (o :: cl') !! i = Some o0 /\ startDate o' = startDate o0)
          as (o0 & Ho0 & ->).
        { destruct i as [|i]; [injection Hi as <-; eauto|]. cbn in Hi |- *.
          destruct (cl' !! i) as [o1|] eqn:Ho1.
          - rewrite (grown_lookup _ _ _ _ _ Ho1) in Hi. injection Hi as <-. eauto.
          - apply lookup_ge_None in Ho1. apply lookup_lt_Some in Hi.
            rewrite grown_length in Hi. lia. }
        rewrite <- Ecl in Ho0. unfold cl in Ho0.
        destruct (clones_from_lookup _ _ _ _ _ _ Ho0) as (m' & Hm' & ->).
        exists m'. split; [exact Hm' | reflexivity].
    - erewrite bind_Returns by reflexivity.
      erewrite bind_Returns; cycle 1.
      { apply load_Returns. simpl. rewrite lookup_app_l by exact Hlt. exact Hthis. }
      erewrite bind_Returns; cycle 1.
      { apply update_Returns. simpl. rewrite lookup_app_l by exact Hlt. exact Hthis. }
      cbn [heap boundsHeap nextDate nextUuid today]. unfold ret.
      rewrite insert_app_l by exact Hlt.
      intros H. injection H as H _. apply app_inv_head in H. subst occs.
      intros i o Hi. unfold cl in Hi.
      destruct (clones_from_lookup _ _ _ _ _ _ Hi) as (m' & Hm' & ->).
      exists m'. split; [exact Hm' | reflexivity]. }
  exists dates. eexists. split; [exact Hdates|]. split.
  { rewrite (initRepeatTransactions_expands s this txn bounds t th bb) by assumption.
    erewrite bind_Returns by exact Hrun. reflexivity. }
  cbn [heap]. split.
  { rewrite length_app, length_insert, Hlen. reflexivity. }
  split.
  { intros i m Hi.
    destruct (occs !! i) as [o|] eqn:Ho;
      [|apply lookup_ge_None in Ho; apply lookup_lt_Some in Hi; lia].
    destruct (Hdated i o Ho) as (m' & Hm' & Hd). rewrite Hi in Hm'. injection Hm' as <-.
    destruct (Hoccs i o Ho) as (d & Eo).
    exists o, d. split.
    { rewrite lookup_app_r by (rewrite length_insert; lia). rewrite length_insert.
      replace (length (heap s) + i - length (heap s))%nat with i by lia. exact Ho. }
    assert (startDate o = Some d) as Hsd by (rewrite Eo; reflexivity).
    split; [exact Hsd|]. split.
    { rewrite Hsd in Hd. injection Hd as ->. reflexivity. }
    rewrite Eo. reflexivity. }
  split.
  { eexists. split.
    - rewrite lookup_app_l by (rewrite length_insert; exact Hlt).
      apply list_lookup_insert_eq. exact Hlt.
    - split; reflexivity. }
  intros r Hr Hne. rewrite lookup_app_l by (rewrite length_insert; exact Hr).
  apply list_lookup_insert_ne. congruence.
Qed.

Lemma occurrences_fall_on_the_generated_dates_witness :
  exists (dates : list Z) (s' : State),
    generateRepeatDates "week" (Some 0) (Some 14) = Ok dates
    /\ initRepeatTransactions 1%nat 1%nat 0%nat weekly_store
       = Returns (GArray (seq 2 (length dates))) s'
    /\ length (heap s') = (2 + length dates)%nat
    /\ (forall i m, dates !! i = Some m ->
          exists o d,
            heap s' !! (2 + i)%nat = Some o
            /\ startDate o = Some d /\ date_day d = m
            /\ o = set_amount (amount o) (occurrence_of weekly_100 (Uuid 1) d))
    /\ (exists st, heap s' !! 1%nat = Some (set_transactionSeries (Some st) weekly_100)
                   /\ stash_txns st = seq 2 (length dates)
                   /\ stash_bounds st = 0%nat)
    /\ (forall r, (r < 2)%nat -> r <> 1%nat -> heap s' !! r = heap weekly_store !! r).
Proof.
  apply (occurrences_fall_on_the_generated_dates weekly_store 1%nat 1%nat 0%nat weekly_100
           weekly_100 two_weeks);
    [reflexivity | reflexivity | reflexivity | simpl; auto | reflexivity].
Defined.

(** ** Gathering *)

Lemma with_object_twice (s : State) (r : ref) (t t' : Transaction) :
  with_object (with_object s r t) r t' = with_object s r t'.
Proof. unfold with_object. cbn [heap boundsHeap nextDate nextUuid today].
  rewrite list_insert_insert_eq. reflexivity. Qed.

Lemma gather_one_time_leaf (fuel : nat) (s : State) (p c : ref) (bounds : bref)
  (pt : Transaction) :
  heap s !! p = Some pt ->
  one_time_leaf_of (heap s) p c ->
  gatherTransactions (S fuel) c bounds s
  = Returns GUndefined (with_object s p (set_accumulator (accumulator pt ++ [c]) pt)).
Proof.
  intros Hp (tc & Hc & Hleaf & Hpar & Hfreq).
  cbn [gatherTransactions].
  erewrite bind_Returns by (apply load_Returns; exact Hc).
  rewrite Hleaf, Hpar. unfold accumulate.
  erewrite bind_Returns; [reflexivity|].
  erewrite bind_Returns by (apply load_Returns; exact Hp).
  erewrite bind_Returns; cycle 1.
  { unfold initRepeatTransactions.
    erewrite bind_Returns by (apply load_Returns; exact Hc).
    rewrite Hfreq. reflexivity. }
  unfold update. rewrite Hp. reflexivity.
Qed.

Lemma one_time_leaf_of_with_object (s : State) (p c : ref) (pt t' : Transaction) :
  heap s !! p = Some pt -> parentTransaction pt = None ->
  one_time_leaf_of (heap s) p c ->
  one_time_leaf_of (heap (with_object s p t')) p c.
Proof.
  intros Hp Hroot (tc & Hc & Hleaf & Hpar & Hfreq).
  exists tc. split; [|auto]. cbn [heap with_object].
  rewrite list_lookup_insert_ne; [exact Hc|].
  intros <-. rewrite Hp in Hc. injection Hc as <-. congruence.
Qed.

Lemma gather_one_time_leaves (fuel : nat) (bounds : bref) (p : ref) (pt : Transaction)
  (s : State) :
  heap s !! p = Some pt -> parentTransaction pt = None ->
  forall (l acc : list ref),
    Forall (one_time_leaf_of (heap s) p) l ->
    forEach (fun c => gatherTransactions (S fuel) c bounds ;;; ret tt) l
      (with_object s p (set_accumulator acc pt))
    = Returns tt (with_object s p (set_accumulator (acc ++ l) pt)).
Proof.
  intros Hp Hroot.
  assert (p < length (heap s))%nat as Hlt by (eapply lookup_lt_Some; exact Hp).
  induction l as [|c l IH]; intros acc Hl.
  - rewrite app_nil_r. reflexivity.
  - inversion Hl as [|? ? Hc Hl']; subst. cbn [forEach].
    erewrite bind_Returns; cycle 1.
    { erewrite bind_Returns; [reflexivity|].
      apply gather_one_time_leaf.
      - cbn [heap with_object]. apply list_lookup_insert_eq. exact Hlt.
      - apply (one_time_leaf_of_with_object s p c pt); assumption. }
    rewrite with_object_twice. cbn [accumulator set_accumulator].
    change (set_accumulator (acc ++ [c]) (set_accumulator acc pt))
      with (set_accumulator (acc ++ [c]) pt).
    rewrite IH by exact Hl'. rewrite <- app_assoc. reflexivity.
Qed.

(** A root over one-time transactions gathers them all, in their order,
    whatever the bounds say. *)
Lemma gather_one_time_root (fuel : nat) (s : State) (root : ref) (bounds : bref)
  (t : Transaction) :
  heap s !! root = Some t ->
  parentTransaction t = None ->
  children t <> [] ->
  Forall (one_time_leaf_of (heap s) root) (children t) ->
  gatherTransactions (S (S fuel)) root bounds s
  = Returns (GArray (children t)) (with_object s root (set_accumulator (children t) t)).
Proof.
  intros Ht Hroot Hcs Hl.
  assert (root < length (heap s))%nat as Hlt by (eapply lookup_lt_Some; exact Ht).
  cbn [gatherTransactions].
  erewrite bind_Returns by (apply load_Returns; exact Ht).
  rewrite Hroot. destruct (children t) as [|c cs] eqn:E; [contradiction|].
  erewrite bind_Returns by (apply update_Returns; exact Ht).
  erewrite bind_Returns; cycle 1.
  { apply (gather_one_time_leaves fuel bounds root t s Ht Hroot (c :: cs) [] Hl). }
  erewrite bind_Returns; cycle 1.
  { apply load_Returns. cbn [heap with_object]. apply list_lookup_insert_eq. exact Hlt. }
  reflexivity.
Qed.

Lemma set_transactionSeries_same (t : Transaction) :
  set_transactionSeries (transactionSeries t) t = t.
Proof. destruct t; reflexivity. Qed.

Lemma set_accumulator_same (t : Transaction) : set_accumulator (accumulator t) t = t.
Proof. destruct t; reflexivity. Qed.

Lemma scratch_changed_refl (h : list Transaction) : scratch_changed h h.
Proof.
  intros r t Hr. exists (accumulator t), (transactionSeries t).
  rewrite set_transactionSeries_same, set_accumulator_same. exact Hr.
Qed.

Lemma scratch_changed_trans (h1 h2 h3 : list Transaction) :
  scratch_changed h1 h2 -> scratch_changed h2 h3 -> scratch_changed h1 h3.
Proof.
  intros H12 H23 r t Hr. destruct (H12 r t Hr) as (acc & ts & H2).
  destruct (H23 r _ H2) as (acc' & ts' & H3). exists acc', ts'. exact H3.
Qed.

Lemma leaf_under_scratch (h h' : list Transaction) (b l : ref) :
  scratch_changed h h' -> leaf_under h b l -> leaf_under h' b l.
Proof.
  intros H (tl & Hl & Hc & Hp & Hf). destruct (H l tl Hl) as (acc & ts & Hl').
  eexists. split; [exact Hl'|]. auto.
Qed.

Lemma first_level_scratch (h h' : list Transaction) (root c : ref) :
  scratch_changed h h' -> first_level h root c -> first_level h' root c.
Proof.
  intros H (tc & Hc & Hp & Hf & Hl). destruct (H c tc Hc) as (acc & ts & Hc').
  eexists. split; [exact Hc'|]. split; [exact Hp|]. split; [exact Hf|].
  cbn [children set_accumulator set_transactionSeries].
  eapply Forall_impl; [exact Hl|]. intros l. apply leaf_under_scratch, H.
Qed.

(** An expansion, cached or not, of a transaction without children:
    it returns, and changes the store in the transaction's stash and by
    new objects only. *)
Lemma initRepeatTransactions_returns (s : State) (l : ref) (bounds : bref)
  (tl : Transaction) (bb : Bounds) :
  heap s !! l = Some tl ->
  In (frequency tl) known_frequencies ->
  boundsHeap s !! bounds = Some bb ->
  exists (g : Gathered) (ts : option Stash) (occs : list Transaction) (n : nat),
    initRepeatTransactions l l bounds s
    = Returns g (mkState (<[l := set_transactionSeries ts tl]> (heap s) ++ occs)
                   (boundsHeap s) n (nextUuid s) (today s)).
Proof.
  intros Hl Hf Hb.
  assert (forall g : Gathered, Returns g s
                    = Returns g (mkState (<[l := set_transactionSeries
                                                    (transactionSeries tl) tl]> (heap s)
                                          ++ []) (boundsHeap s) (nextDate s) (nextUuid s)
                                   (today s))) as Hsame.
  { intros g. rewrite set_transactionSeries_same, list_insert_id by exact Hl.
    rewrite app_nil_r, state_same. reflexivity. }
  destruct (String.eqb_spec (frequency tl) "none") as [Hnone|Hfreq].
  - exists (GOne l), (transactionSeries tl), [], (nextDate s).
    unfold initRepeatTransactions.
    erewrite bind_Returns by (apply load_Returns; exact Hl).
    rewrite Hnone. cbn [String.eqb Ascii.eqb Bool.eqb]. apply Hsame.
  - destruct (stash_hit tl tl bounds) as [txns|] eqn:Hhit.
    + exists (GArray txns), (transactionSeries tl), [], (nextDate s).
      rewrite (stash_hit_served s l l bounds tl tl bb txns) by assumption.
      apply Hsame.
    + assert (exists dates,
                 generateRepeatDates (frequency tl)
                   (moment (today s) (of_date (startDate tl)))
                   (recurrence_end (today s) tl bb) = Ok dates) as (dates & Hdates).
      { apply indexOf_frequency_In in Hf. unfold generateRepeatDates. rewrite Hf.
        cbn [negb]. repeat (destruct (String.eqb _ _); [eexists; reflexivity|]).
        eexists; reflexivity. }
      destruct (expand_spec s l l bounds tl tl _ _ dates Hl Hl Hdates)
        as (occs & n & Hrun & _).
      eexists. eexists. exists occs, n.
      rewrite (initRepeatTransactions_expands s l l bounds tl tl bb) by assumption.
      erewrite bind_Returns by exact Hrun. reflexivity.
Qed.

Lemma gather_leaf_under (fuel : nat) (s : State) (b l : ref) (bounds : bref)
  (bt : Transaction) (bb : Bounds) :
  heap s !! b = Some bt ->
  l <> b ->
  leaf_under (heap s) b l ->
  boundsHeap s !! bounds = Some bb ->
  exists (s' : State) (acc : list ref),
    gatherTransactions (S fuel) l bounds s = Returns GUndefined s'
    /\ heap s' !! b = Some (set_accumulator acc bt)
    /\ (forall r tr, r <> b -> heap s !! r = Some tr ->
          heap s' !! r = Some tr
          \/ (r = l /\ exists ts, heap s' !! r = Some (set_transactionSeries ts tr)))
    /\ boundsHeap s' = boundsHeap s
    /\ today s' = today s.
Proof.
  intros Hb Hne (tl & Hl & Hleaf & Hpar & Hf) Hbounds.
  destruct (initRepeatTransactions_returns s l bounds tl bb Hl Hf Hbounds)
    as (g & ts & occs & n & Hrun).
  assert (b < length (heap s))%nat as Hltb by (eapply lookup_lt_Some; exact Hb).
  assert (l < length (heap s))%nat as Hltl by (eapply lookup_lt_Some; exact Hl).
  eexists. eexists. split; [|split; [|split; [|split]]].
  - cbn [gatherTransactions].
    erewrite bind_Returns by (apply load_Returns; exact Hl).
    rewrite Hleaf, Hpar. unfold accumulate.
    erewrite bind_Returns; [reflexivity|].
    erewrite bind_Returns by (apply load_Returns; exact Hb).
    erewrite bind_Returns by exact Hrun.
    apply update_Returns. cbn [heap].
    rewrite lookup_app_l by (rewrite length_insert; exact Hltb).
    rewrite list_lookup_insert_ne by exact Hne. exact Hb.
  - cbn [heap]. rewrite insert_app_l by (rewrite length_insert; exact Hltb).
    rewrite lookup_app_l by (rewrite !length_insert; exact Hltb).
    apply list_lookup_insert_eq. rewrite length_insert. exact Hltb.
  - intros r tr Hr Htr. cbn [heap].
    assert (r < length (heap s))%nat as Hltr by (eapply lookup_lt_Some; exact Htr).
    rewrite insert_app_l by (rewrite length_insert; exact Hltb).
    rewrite lookup_app_l by (rewrite !length_insert; exact Hltr).
    rewrite list_lookup_insert_ne by congruence.
    destruct (Nat.eq_dec r l) as [->|Hrl].
    + right. split; [reflexivity|]. exists ts.
      rewrite list_lookup_insert_eq by exact Hltl. congruence.
    + left. rewrite list_lookup_insert_ne by congruence. exact Htr.
  - reflexivity.
  - reflexivity.
Qed.

Lemma leaf_under_is_not_the_branch (h : list Transaction) (b l : ref) (bt : Transaction) :
  h !! b = Some bt -> In l (children bt) -> leaf_under h b l -> l <> b.
Proof.
  intros Hb Hin (tl & Hl & Hc & _) ->. rewrite Hb in Hl. injection Hl as <-.
  rewrite Hc in Hin. destruct Hin.
Qed.

(** The loop of a branch over its leaves. *)
Lemma gather_leaves_under (fuel : nat) (b : ref) (bounds : bref) (bb : Bounds)
  (leaves : list ref) :
  forall (s : State) (bt : Transaction),
    heap s !! b = Some bt ->
    Forall (fun l => l <> b /\ leaf_under (heap s) b l) leaves ->
    boundsHeap s !! bounds = Some bb ->
    exists (s' : State) (acc : list ref),
      forEach (fun c => gatherTransactions (S fuel) c bounds ;;; ret tt) leaves s
      = Returns tt s'
      /\ heap s' !! b = Some (set_accumulator acc bt)
      /\ (forall r tr, r <> b -> heap s !! r = Some tr ->
            heap s' !! r = Some tr
            \/ (In r leaves /\ exists ts, heap s' !! r = Some (set_transactionSeries ts tr)))
      /\ boundsHeap s' = boundsHeap s
      /\ today s' = today s.
Proof.
  induction leaves as [|l leaves IH]; intros s bt Hb Hl Hbounds.
  - exists s, (accumulator bt). split; [reflexivity|].
    split; [rewrite set_accumulator_same; exact Hb|]. split; [|split; reflexivity].
    intros r tr _ Hr. left. exact Hr.
  - inversion Hl as [|? ? [Hne Hleaf] Hrest]; subst.
    destruct (gather_leaf_under fuel s b l bounds bt bb Hb Hne Hleaf Hbounds)
      as (s1 & acc1 & Hrun1 & Hb1 & Hframe1 & Hbounds1 & Htoday1).
    destruct (IH s1 (set_accumulator acc1 bt) Hb1) as (s2 & acc2 & Hrun2 & Hb2 & Hframe2
                                                       & Hbounds2 & Htoday2).
    { eapply Forall_impl; [exact Hrest|]. intros x [Hx (tx & Htx & Hc & Hp & Hf)].
      split; [exact Hx|].
      destruct (Hframe1 x tx Hx Htx) as [H|[_ [ts H]]]; eexists; (split; [exact H|]); auto. }
    { rewrite Hbounds1. exact Hbounds. }
    exists s2, acc2. split.
    { cbn [forEach]. erewrite bind_Returns; cycle 1.
      { erewrite bind_Returns by exact Hrun1. reflexivity. }
      exact Hrun2. }
    split; [exact Hb2|]. split; [|split; congruence].
    intros r tr Hr Htr.
    destruct (Hframe1 r tr Hr Htr) as [H1|[-> [ts H1]]].
    + destruct (Hframe2 r tr Hr H1) as [H2|[Hin [ts H2]]]; [left; exact H2|].
      right. split; [right; exact Hin | eauto].
    + right. split; [left; reflexivity|].
      destruct (Hframe2 l _ Hr H1) as [H2|[Hin [ts' H2]]]; eauto.
Qed.

(** A one-time transaction with children, under a root: it ends up in
    the root's accumulator itself, and what its leaves gathered is
    cleared. *)
Lemma gather_branch (fuel : nat) (s : State) (root b : ref) (bounds : bref)
  (rt bt : Transaction) (bb : Bounds) :
  heap s !! root = Some rt ->
  parentTransaction rt = None ->
  heap s !! b = Some bt ->
  parentTransaction bt = Some root ->
  frequency bt = "none"%string ->
  children bt <> [] ->
  Forall (leaf_under (heap s) b) (children bt) ->
  boundsHeap s !! bounds = Some bb ->
  exists s' : State,
    gatherTransactions (S (S fuel)) b bounds s = Returns GUndefined s'
    /\ heap s' !! root = Some (set_accumulator (accumulator rt ++ [b]) rt)
    /\ (forall r tr, r <> root -> heap s !! r = Some tr ->
          exists acc ts,
            heap s' !! r = Some (set_accumulator acc (set_transactionSeries ts tr)))
    /\ boundsHeap s' = boundsHeap s
    /\ today s' = today s.
Proof.
  intros Hroot Hrp Hb Hbp Hbf Hbc Hleaves Hbounds.
  assert (b <> root) as Hbr.
  { intros ->. rewrite Hroot in Hb. injection Hb as <-. congruence. }
  destruct (gather_leaves_under fuel b bounds bb (children bt) s bt Hb)
    as (s1 & acc & Hrun1 & Hb1 & Hframe1 & Hbounds1 & Htoday1); [|exact Hbounds|].
  { rewrite Forall_forall in Hleaves |- *. intros l Hin. split; [|apply Hleaves, Hin].
    eapply leaf_under_is_not_the_branch; [exact Hb | apply list_elem_of_In; exact Hin
                                         | apply Hleaves, Hin]. }
  assert (heap s1 !! root = Some rt) as Hroot1.
  { destruct (Hframe1 root rt ltac:(congruence) Hroot) as [H|[Hin _]]; [exact H|].
    rewrite Forall_forall in Hleaves.
    destruct (Hleaves root) as (tl & Hl & _ & Hp & _); [apply list_elem_of_In; exact Hin|].
    rewrite Hroot in Hl. injection Hl as <-. congruence. }
  assert (root < length (heap s1))%nat as Hlt by (eapply lookup_lt_Some; exact Hroot1).
  assert (b < length (heap s1))%nat as Hltb by (eapply lookup_lt_Some; exact Hb1).
  eexists. split; [|split; [|split; [|split]]].
  - cbn [gatherTransactions].
    erewrite bind_Returns by (apply load_Returns; exact Hb).
    rewrite Hbp. destruct (children bt) as [|c cs] eqn:E; [contradiction|].
    erewrite bind_Returns by exact Hrun1.
    erewrite bind_Returns; cycle 1.
    { unfold accumulate.
      erewrite bind_Returns by (apply load_Returns; exact Hroot1).
      erewrite bind_Returns; cycle 1.
      { unfold initRepeatTransactions.
        erewrite bind_Returns by (apply load_Returns; exact Hb1).
        cbn [frequency set_accumulator]. rewrite Hbf. reflexivity. }
      apply update_Returns. exact Hroot1. }
    erewrite bind_Returns; [reflexivity|].
    apply update_Returns. cbn [heap]. rewrite list_lookup_insert_ne by congruence.
    exact Hb1.
  - cbn [heap]. rewrite list_lookup_insert_ne by congruence.
    apply list_lookup_insert_eq. exact Hlt.
  - intros r tr Hr Htr. cbn [heap].
    destruct (Nat.eq_dec r b) as [->|Hrb].
    + rewrite Hb in Htr. injection Htr as <-.
      rewrite list_lookup_insert_eq by (rewrite length_insert; exact Hltb).
      exists [], (transactionSeries bt). rewrite set_transactionSeries_same. reflexivity.
    + rewrite !list_lookup_insert_ne by congruence.
      destruct (Hframe1 r tr Hrb Htr) as [H|[_ [ts H]]].
      * exists (accumulator tr), (transactionSeries tr).
        rewrite set_transactionSeries_same, set_accumulator_same. exact H.
      * exists (accumulator tr), ts. exact H.
  - exact Hbounds1.
  - exact Htoday1.
Qed.

(** One round of the root's loop, for a child of either kind. *)
Lemma gather_first_level_child (fuel : nat) (s : State) (root c : ref) (bounds : bref)
  (rt : Transaction) (bb : Bounds) :
  heap s !! root = Some rt ->
  parentTransaction rt = None ->
  first_level (heap s) root c ->
  boundsHeap s !! bounds = Some bb ->
  exists s' : State,
    gatherTransactions (S (S fuel)) c bounds s = Returns GUndefined s'
    /\ heap s' !! root = Some (set_accumulator (accumulator rt ++ [c]) rt)
    /\ (forall r tr, r <> root -> heap s !! r = Some tr ->
          exists acc ts,
            heap s' !! r = Some (set_accumulator acc (set_transactionSeries ts tr)))
    /\ boundsHeap s' = boundsHeap s
    /\ today s' = today s.
Proof.
  intros Hroot Hrp (tc & Hc & Hp & Hf & Hleaves) Hbounds.
  destruct (children tc) as [|k ks] eqn:E.
  - assert (c <> root) as Hcr.
    { intros ->. rewrite Hroot in Hc. injection Hc as <-. congruence. }
    assert (root < length (heap s))%nat as Hlt by (eapply lookup_lt_Some; exact Hroot).
    eexists. split; [|split; [|split; [|split]]].
    + apply (gather_one_time_leaf (S fuel) s root c bounds rt Hroot).
      exists tc. auto.
    + cbn [heap with_object]. apply list_lookup_insert_eq. exact Hlt.
    + intros r tr Hr Htr. cbn [heap with_object].
      rewrite list_lookup_insert_ne by congruence.
      exists (accumulator tr), (transactionSeries tr).
      rewrite set_transactionSeries_same, set_accumulator_same. exact Htr.
    + reflexivity.
    + reflexivity.
  - apply (gather_branch fuel s root c bounds rt tc bb); try assumption.
    + rewrite E. discriminate.
    + rewrite E. exact Hleaves.
Qed.

Lemma gather_first_level_children (fuel : nat) (root : ref) (bounds : bref)
  (bb : Bounds) (l : list ref) :
  forall (s : State) (rt : Transaction),
    heap s !! root = Some rt ->
    parentTransaction rt = None ->
    Forall (first_level (heap s) root) l ->
    boundsHeap s !! bounds = Some bb ->
    exists s' : State,
      forEach (fun c => gatherTransactions (S (S fuel)) c bounds ;;; ret tt) l s
      = Returns tt s'
      /\ heap s' !! root = Some (set_accumulator (accumulator rt ++ l) rt)
      /\ (forall r tr, r <> root -> heap s !! r = Some tr ->
            exists acc ts,
              heap s' !! r = Some (set_accumulator acc (set_transactionSeries ts tr)))
      /\ boundsHeap s' = boundsHeap s
      /\ today s' = today s.
Proof.
  induction l as [|c l IH]; intros s rt Hroot Hrp Hl Hbounds.
  - exists s. split; [reflexivity|].
    split; [rewrite app_nil_r, set_accumulator_same; exact Hroot|].
    split; [|split; reflexivity].
    intros r tr _ Hr. exists (accumulator tr), (transactionSeries tr).
    rewrite set_transactionSeries_same, set_accumulator_same. exact Hr.
  - inversion Hl as [|? ? Hc Hrest]; subst.
    destruct (gather_first_level_child fuel s root c bounds rt bb Hroot Hrp Hc Hbounds)
      as (s1 & Hrun1 & Hroot1 & Hframe1 & Hbounds1 & Htoday1).
    assert (scratch_changed (heap s) (heap s1)) as Hscratch.
    { intros r tr Hr. destruct (Nat.eq_dec r root) as [->|Hne]; [|eauto].
      rewrite Hroot in Hr. injection Hr as <-.
      exists (accumulator rt ++ [c]), (transactionSeries rt).
      rewrite set_transactionSeries_same. exact Hroot1. }
    destruct (IH s1 _ Hroot1 Hrp) as (s2 & Hrun2 & Hroot2 & Hframe2 & Hbounds2 & Htoday2).
    { eapply Forall_impl; [exact Hrest|]. intros x. apply first_level_scratch, Hscratch. }
    { rewrite Hbounds1. exact Hbounds. }
    exists s2. split.
    { cbn [forEach]. erewrite bind_Returns; cycle 1.
      { erewrite bind_Returns by exact Hrun1. reflexivity. }
      exact Hrun2. }
    split.
    { rewrite Hroot2. cbn [accumulator set_accumulator]. rewrite <- app_assoc.
      reflexivity. }
    split; [|split; congruence].
    intros r tr Hr Htr. destruct (Hframe1 r tr Hr Htr) as (acc & ts & H1).
    destruct (Hframe2 r _ Hr H1) as (acc' & ts' & H2). exists acc', ts'. exact H2.
Qed.

(** A root over one-time transactions, which may have leaves of any
    frequency below them. *)
Lemma gather_first_level_root (fuel : nat) (s : State) (root : ref) (bounds : bref)
  (t : Transaction) (bb : Bounds) :
  heap s !! root = Some t ->
  parentTransaction t = None ->
  children t <> [] ->
  Forall (first_level (heap s) root) (children t) ->
  boundsHeap s !! bounds = Some bb ->
  exists s' : State,
    gatherTransactions (S (S (S fuel))) root bounds s = Returns (GArray (children t)) s'
    /\ scratch_changed (heap s) (heap s')
    /\ boundsHeap s' = boundsHeap s
    /\ today s' = today s.
Proof.
  intros Ht Hroot Hcs Hl Hbounds.
  assert (root < length (heap s))%nat as Hlt by (eapply lookup_lt_Some; exact Ht).
  set (s0 := with_object s root (set_accumulator [] t)).
  assert (scratch_changed (heap s) (heap s0)) as Hscratch0.
  { intros r tr Hr. unfold s0. cbn [heap with_object].
    destruct (Nat.eq_dec r root) as [->|Hne].
    - rewrite Ht in Hr. injection Hr as <-.
      rewrite list_lookup_insert_eq by exact Hlt.
      exists [], (transactionSeries t). rewrite set_transactionSeries_same. reflexivity.
    - rewrite list_lookup_insert_ne by congruence.
      exists (accumulator tr), (transactionSeries tr).
      rewrite set_transactionSeries_same, set_accumulator_same. exact Hr. }
  destruct (gather_first_level_children fuel root bounds bb (children t) s0
              (set_accumulator [] t))
    as (s1 & Hrun & Hroot1 & Hframe & Hbounds1 & Htoday1).
  { unfold s0. cbn [heap with_object]. apply list_lookup_insert_eq. exact Hlt. }
  { exact Hroot. }
  { eapply Forall_impl; [exact Hl|]. intros x. apply first_level_scratch, Hscratch0. }
  { exact Hbounds. }
  exists s1. split; [|split; [|split; assumption]].
  - cbn [gatherTransactions].
    erewrite bind_Returns by (apply load_Returns; exact Ht).
    rewrite Hroot. destruct (children t) as [|c cs] eqn:E; [contradiction|].
    erewrite bind_Returns by (apply update_Returns; exact Ht).
    erewrite bind_Returns by exact Hrun.
    erewrite bind_Returns by (apply load_Returns; exact Hroot1).
    reflexivity.
  - intros r tr Hr. destruct (Nat.eq_dec r root) as [->|Hne].
    + rewrite Ht in Hr. injection Hr as <-.
      exists ([] ++ children t), (transactionSeries t).
      rewrite set_transactionSeries_same. exact Hroot1.
    + destruct (Hscratch0 r tr Hr) as (acc & ts & H0).
      destruct (Hframe r _ Hne H0) as (acc' & ts' & H1). exists acc', ts'. exact H1.
Qed.

(** X12: At the root [gatherTransactions] returns the root's own children,
    when these are one-time transactions: those without children and
    also those with children, whose leaves may recur. What the leaves
    below the first level expand to is gathered into their parent's
    accumulator and cleared there; it does not reach the result. The
    pass changes accumulators and stashes only. *)
Theorem root_gathers_its_children_only (fuel : nat) (s : State) (root : nat)
  (bounds : nat) (t : Transaction) (bb : Bounds)
  (Ht : heap s !! root = Some t)
  (Hroot : parentTransaction t = None)
  (Hcs : children t <> [])
  (Hchildren : Forall (first_level (heap s) root) (children t))
  (Hb : boundsHeap s !! bounds = Some bb) :
  exists s' : State,
    gatherTransactions (S (S (S fuel))) root bounds s = Returns (GArray (children t)) s'
    /\ scratch_changed (heap s) (heap s')
    /\ boundsHeap s' = boundsHeap s
    /\ today s' = today s.
Proof. exact (gather_first_level_root fuel s root bounds t bb Ht Hroot Hcs Hchildren Hb). Qed.

Lemma nested_store_first_level :
  Forall (first_level (heap nested_store) 0%nat) [1%nat].
Proof.
  constructor; [|constructor]. eexists. split; [reflexivity|].
  split; [reflexivity|]. split; [reflexivity|].
  constructor; [|constructor]. eexists. split; [reflexivity|].
  split; [reflexivity|]. split; [reflexivity|]. simpl. auto.
Qed.

Lemma root_gathers_its_children_only_witness :
  exists s' : State,
    gatherTransactions 3 0%nat 0%nat nested_store = Returns (GArray [1%nat]) s'
    /\ scratch_changed (heap nested_store) (heap s')
    /\ boundsHeap s' = boundsHeap nested_store
    /\ today s' = today nested_store.
Proof.
  apply (root_gathers_its_children_only 0 nested_store 0%nat 0%nat
           (node JNull [1%nat] None) two_weeks);
    [reflexivity | reflexivity | discriminate | exact nested_store_first_level
    | reflexivity].
Defined.

(** ** Values *)

Lemma dated_amounts_Returns (s : State) (l : list ref) (das : list (Z * jsnum)) :
  Forall2 (dated (heap s)) l das -> dated_amounts l s = Returns das s.
Proof.
  unfold dated_amounts.
  induction 1 as [|c da l das (tc & d & Hc & Hd & ->) _ IH]; [reflexivity|].
  cbn [map_each].
  erewrite bind_Returns; cycle 1.
  { erewrite bind_Returns by (apply load_Returns; exact Hc). rewrite Hd. reflexivity. }
  erewrite bind_Returns by exact IH. reflexivity.
Qed.

Lemma update_bounds_Returns (s : State) (r : bref) (b : Bounds) (f : Bounds -> Bounds) :
  boundsHeap s !! r = Some b ->
  update_bounds r f s
  = Returns tt (mkState (heap s) (<[r := f b]> (boundsHeap s)) (nextDate s)
                  (nextUuid s) (today s)).
Proof. unfold update_bounds. intros ->. reflexivity. Qed.

Lemma dated_scratch (h h' : list Transaction) (l : list ref) (das : list (Z * jsnum)) :
  scratch_changed h h' -> Forall2 (dated h) l das -> Forall2 (dated h') l das.
Proof.
  intros H H0. eapply Forall2_impl; [exact H0|]. intros c da (tc & d & Hc & Hd & ->).
  destruct (H c tc Hc) as (acc & ts & Hc'). eexists. exists d.
  split; [exact Hc'|]. split; [exact Hd | reflexivity].
Qed.

(** X13: [valueOnDate] over a root of one-time transactions counts every one
    of them once, at the amount stored in it and whatever its date:
    those dated after [date] as well, and for one with children what is
    stored in it, whatever recurs below. The bounds object of the caller
    has its [endDate] replaced by [date]. *)
Theorem valueOnDate_counts_the_first_level (fuel : nat) (s : State)
  (root : nat) (bounds : nat) (t : Transaction) (bb : Bounds)
  (das : list (Z * jsnum)) (date : jsval)
  (Ht : heap s !! root = Some t)
  (Hroot : parentTransaction t = None)
  (Hcs : children t <> [])
  (Hchildren : Forall (first_level (heap s) root) (children t))
  (Hdated : Forall2 (dated (heap s)) (children t) das)
  (Hb : boundsHeap s !! bounds = Some bb) :
  exists s',
    valueOnDate (S (S (S fuel))) root date bounds None s
    = Returns (value_of_days das) s'
    /\ boundsHeap s' !! bounds = Some (mkBounds (bounds_startDate bb) date)
    /\ scratch_changed (heap s) (heap s').
Proof.
  assert (bounds < length (boundsHeap s))%nat as Hlt by (eapply lookup_lt_Some; exact Hb).
  set (s0 := mkState (heap s)
               (<[bounds := mkBounds (bounds_startDate bb) date]> (boundsHeap s))
               (nextDate s) (nextUuid s) (today s)).
  destruct (gather_first_level_root fuel s0 root bounds t
              (mkBounds (bounds_startDate bb) date) Ht Hroot Hcs Hchildren)
    as (s1 & Hrun & Hscratch & Hbounds1 & _).
  { unfold s0. cbn [boundsHeap]. apply list_lookup_insert_eq. exact Hlt. }
  exists s1. split; [|split].
  - unfold valueOnDate.
    erewrite bind_Returns by (apply update_bounds_Returns; exact Hb).
    erewrite bind_Returns by exact Hrun.
    cbv iota beta. unfold daily_values.
    erewrite bind_Returns; cycle 1.
    { erewrite bind_Returns; [reflexivity|].
      apply dated_amounts_Returns. eapply dated_scratch; [exact Hscratch | exact Hdated]. }
    reflexivity.
  - rewrite Hbounds1. unfold s0. cbn [boundsHeap]. apply list_lookup_insert_eq. exact Hlt.
  - exact Hscratch.
Qed.

Lemma valueOnDate_counts_the_first_level_witness :
  exists s',
    valueOnDate 3 0%nat (VDate (mkDate 9 3)) 0%nat None nested_store
    = Returns (value_of_days [(5, JNum 100)]) s'
    /\ boundsHeap s' !! 0%nat
       = Some (mkBounds (VDate (mkDate 1 0)) (VDate (mkDate 9 3)))
    /\ scratch_changed (heap nested_store) (heap s').
Proof.
  apply (valueOnDate_counts_the_first_level 0 nested_store 0%nat 0%nat
           (node JNull [1%nat] None) two_weeks [(5, JNum 100)] (VDate (mkDate 9 3)));
    [reflexivity | reflexivity | discriminate | exact nested_store_first_level
    | | reflexivity].
  constructor; [|constructor]. eexists. eexists. split; [reflexivity|].
  split; reflexivity.
Defined.

Lemma bind_ret_Returns {A B} (m : M A) (b b' : B) (s s' : State) :
  bind m (fun _ => ret b) s = Returns b' s' -> b' = b.
Proof.
  unfold bind, ret. destruct (m s); intros H; try discriminate. congruence.
Qed.

(** Under a parent [gatherTransactions] hands nothing back. *)
Lemma gather_under_a_parent (fuel : nat) (s s' : State) (this p : ref) (bounds : bref)
  (t : Transaction) (g : Gathered) :
  heap s !! this = Some t -> parentTransaction t = Some p ->
  gatherTransactions fuel this bounds s = Returns g s' -> g = GUndefined.
Proof.
  intros Ht Hp. destruct fuel as [|fuel]; [discriminate|].
  cbn [gatherTransactions].
  erewrite bind_Returns by (apply load_Returns; exact Ht). rewrite Hp.
  destruct (children t) as [|c cs].
  - apply bind_ret_Returns.
  - intros H. unfold bind at 1 in H.
    destruct (forEach _ _ s) as [[] s1| | |]; try discriminate.
    unfold bind at 1 in H.
    destruct (accumulate this p bounds s1) as [[] s2| | |]; try discriminate.
    apply bind_ret_Returns in H. exact H.
Qed.

(** X14: A node with a parent has no path and no value of its own:
    [gatherTransactions] returns nothing for it, [generatePath] then
    reads the [length] of [undefined], and [valueOnDate] sums nothing. A
    one-time transaction under a parent shows both, and each call leaves
    the transaction once more in its parent's [accumulator]. *)
Theorem a_node_under_a_parent_has_no_path (s : State) (this p : nat)
  (t pt : Transaction)
  (Ht : heap s !! this = Some t)
  (Hp : parentTransaction t = Some p)
  (Hpt : heap s !! p = Some pt) :
  (forall fuel bounds r s', generatePath fuel this bounds None s <> Returns r s')
  /\ (forall fuel date bounds v s',
        valueOnDate fuel this date bounds None s = Returns v s' -> v = 0%float)
  /\ (children t = [] -> frequency t = "none"%string ->
      forall fuel bounds bb date,
        boundsHeap s !! bounds = Some bb ->
        generatePath (S fuel) this bounds None s = Throws TypeError
        /\ exists s',
             valueOnDate (S fuel) this date bounds None s = Returns 0%float s'
             /\ heap s' = <[p := set_accumulator (accumulator pt ++ [this]) pt]> (heap s)).
Proof.
  split; [|split].
  - intros fuel bounds r s' H. unfold generatePath in H.
    unfold bind at 1 in H. destruct (load_bounds bounds s) as [b s1| | |] eqn:Hb;
      try discriminate.
    assert (s1 = s) as ->.
    { unfold load_bounds in Hb. destruct (boundsHeap s !! bounds); [|discriminate].
      congruence. }
    unfold bind at 1 in H. unfold clock at 1 in H.
    unfold bind at 1 in H.
    destruct (gatherTransactions fuel this bounds s) as [g s2| | |] eqn:Hg;
      try discriminate.
    rewrite (gather_under_a_parent _ _ _ _ _ _ _ _ Ht Hp Hg) in H. discriminate.
  - intros fuel date bounds v s' H. unfold valueOnDate in H.
    unfold bind at 1 in H.
    destruct (update_bounds bounds _ s) as [[] s1| | |] eqn:Hb; try discriminate.
    assert (heap s1 = heap s) as Hh.
    { unfold update_bounds in Hb. destruct (boundsHeap s !! bounds); [|discriminate].
      injection Hb as <-. reflexivity. }
    unfold bind at 1 in H.
    destruct (gatherTransactions fuel this bounds s1) as [g s2| | |] eqn:Hg;
      try discriminate.
    rewrite <- Hh in Ht.
    rewrite (gather_under_a_parent _ _ _ _ _ _ _ _ Ht Hp Hg) in H.
    unfold ret in H. congruence.
  - intros Hleaf Hfreq fuel bounds bb date Hb.
    assert (one_time_leaf_of (heap s) p this) as Hone by (exists t; auto).
    split.
    + unfold generatePath.
      erewrite bind_Returns by (apply load_bounds_Returns; exact Hb).
      erewrite bind_Returns by reflexivity.
      erewrite bind_Returns by (apply gather_one_time_leaf; eassumption).
      reflexivity.
    + eexists. split.
      * unfold valueOnDate.
        erewrite bind_Returns by (apply update_bounds_Returns; exact Hb).
        erewrite bind_Returns; cycle 1.
        { apply gather_one_time_leaf; cbn [heap]; eassumption. }
        reflexivity.
      * reflexivity.
Qed.

Lemma a_node_under_a_parent_has_no_path_witness :
  (forall fuel bounds r s',
      generatePath fuel 1%nat bounds None fork_store_with_bounds <> Returns r s')
  /\ (forall fuel date bounds v s',
        valueOnDate fuel 1%nat date bounds None fork_store_with_bounds = Returns v s'
        -> v = 0%float)
  /\ (children base_child = [] -> frequency base_child = "none"%string ->
      forall fuel bounds bb date,
        boundsHeap fork_store_with_bounds !! bounds = Some bb ->
        generatePath (S fuel) 1%nat bounds None fork_store_with_bounds = Throws TypeError
        /\ exists s',
             valueOnDate (S fuel) 1%nat date bounds None fork_store_with_bounds
             = Returns 0%float s'
             /\ heap s'
                = <[0%nat := set_accumulator
                               (accumulator (node (JNum 7) [1%nat] None) ++ [1%nat])
                               (node (JNum 7) [1%nat] None)]>
                    (heap fork_store_with_bounds)).
Proof.
  apply (a_node_under_a_parent_has_no_path fork_store_with_bounds 1%nat 0%nat base_child
           (node (JNum 7) [1%nat] None)); reflexivity.
Defined.

(** ** Paths *)

(** C5: the path of a one-time 50 on day 5 over [day 0, day 10] is
    (0, 0), (5, 50), (10, 50): 0 before day 5, 50 from day 5 to day 10;
    its last point is the pad, at [bounds.endDate], with the value and
    balance of the point before it. *)
Theorem one_off_path :
  match one_off_path_program (empty_state 0) with
  | Returns (p, b) s =>
      coordinates (path p) = [(0, 0%float); (5, 50%float); (10, 50%float)]
      /\ Forall (fun q => ((pt_x q <? 5) = true -> pt_y q = 0%float)
                          /\ (((5 <=? pt_x q) && (pt_x q <=? 10)) = true
                              -> pt_y q = 50%float))
                (path p)
      /\ match boundsHeap s !! b, path p with
         | Some bb, [first; occurrence; pad] =>
             val_number (pt_d occurrence) = Some 5
             /\ js_lt (pt_d occurrence) (bounds_endDate bb) = true
             /\ pt_d pad = bounds_endDate bb
             /\ pt_y pad = pt_y occurrence
             /\ pt_value pad = pt_value occurrence
         | _, _ => False
         end
  | _ => False
  end.
Proof.
  vm_compute. repeat split; try reflexivity.
  repeat constructor; intros; try reflexivity; discriminate.
Qed.

(** ** The days of a path *)

Lemma group_insert_keys {A} (k : Z) (v : A) (groups : list (Z * list A)) :
  (In k (map fst groups) /\ map fst (group_insert k v groups) = map fst groups)
  \/ (~ In k (map fst groups)
      /\ map fst (group_insert k v groups) = map fst groups ++ [k]).
Proof.
  induction groups as [|[k' vs] rest IH]; [right; split; [intros []|reflexivity]|].
  cbn [group_insert]. destruct (Z.eqb_spec k k') as [->|Hne].
  - left. split; [left|]; reflexivity.
  - cbn [map fst]. destruct IH as [[H1 H2]|[H1 H2]]; rewrite H2.
    + left. split; [right; exact H1 | reflexivity].
    + right. split; [|reflexivity]. intros [H|H]; [congruence | contradiction].
Qed.

Lemma groupBy_keys {A} (l : list (Z * A)) :
  forall groups : list (Z * list A),
    NoDup (map fst groups) ->
    NoDup (map fst (fold_left (fun groups kv => group_insert (fst kv) (snd kv) groups)
                      l groups))
    /\ forall k,
         In k (map fst (fold_left (fun groups kv => group_insert (fst kv) (snd kv) groups)
                          l groups))
         <-> In k (map fst groups) \/ In k (map fst l).
Proof.
  induction l as [|[k v] l IH]; intros groups Hnd.
  - simpl. split; [exact Hnd | tauto].
  - cbn [fold_left fst snd].
    assert (NoDup (map fst (group_insert k v groups))
            /\ forall k', In k' (map fst (group_insert k v groups))
                          <-> In k' (map fst groups) \/ k' = k) as [Hnd' Hin'].
    { destruct (group_insert_keys k v groups) as [[E ->]|[E ->]].
      - split; [exact Hnd|].
        intros k'. split; [auto|]. intros [H| ->]; assumption.
      - split.
        + apply NoDup_app. split; [exact Hnd|]. split; [|apply NoDup_singleton].
          intros x Hx Hx'. apply list_elem_of_In in Hx. apply list_elem_of_In in Hx'.
          destruct Hx' as [<-|[]]. contradiction.
        + intros k'. rewrite in_app_iff. simpl. split.
          * intros [H|[H|[]]]; auto.
          * intros [H| ->]; auto. }
    destruct (IH _ Hnd') as [H1 H2]. split; [exact H1|].
    intros k'. rewrite H2, Hin'. cbn [map fst In]. split.
    + intros [[H|H]|H]; auto.
    + intros [H|[H|H]]; auto.
Qed.

Lemma sort_insert_keys {A} (p : Z * A) (sorted : list (Z * A)) :
  StronglySorted Z.lt (map fst sorted) -> ~ In (fst p) (map fst sorted) ->
  StronglySorted Z.lt (map fst (sort_insert p sorted))
  /\ forall k, In k (map fst (sort_insert p sorted)) <-> k = fst p \/ In k (map fst sorted).
Proof.
  induction sorted as [|q rest IH]; intros Hs Hp.
  - simpl. split; [repeat constructor|]. intros k. split; [intros [<-|[]]|intros [->|[]]]; auto.
  - cbn [map] in Hs. apply StronglySorted_inv in Hs. destruct Hs as [Hs Hq].
    cbn [sort_insert]. destruct (Z.leb_spec (fst q) (fst p)) as [Hle|Hgt].
    + destruct IH as [IH1 IH2]; [exact Hs | intros H; apply Hp; right; exact H|].
      split.
      * cbn [map]. constructor; [exact IH1|]. apply List.Forall_forall. intros k Hk.
        apply IH2 in Hk. destruct Hk as [->|Hk].
        -- assert (fst q <> fst p) by (intros E; apply Hp; left; exact E). lia.
        -- rewrite List.Forall_forall in Hq. apply Hq, Hk.
      * intros k. cbn [map In]. rewrite IH2. tauto.
    + split.
      * cbn [map]. constructor; [constructor; assumption|].
        constructor; [exact Hgt|]. eapply List.Forall_impl; [|exact Hq].
        intros k Hk. cbn beta in Hk. lia.
      * intros k. cbn [map In]. split; [intros [<-|H]|intros [->|H]]; auto.
Qed.

Lemma ascending_NoDup (l : list Z) : StronglySorted Z.lt l -> NoDup l.
Proof.
  induction 1 as [|k l _ IH Hk]; [constructor|].
  constructor; [|exact IH]. intros Hin. apply list_elem_of_In in Hin.
  rewrite List.Forall_forall in Hk. specialize (Hk k Hin). lia.
Qed.

Lemma sortBy_keys {A} (l : list (Z * A)) :
  forall sorted : list (Z * A),
    NoDup (map fst (sorted ++ l)) ->
    StronglySorted Z.lt (map fst sorted) ->
    StronglySorted Z.lt (map fst (fold_left (fun sorted p => sort_insert p sorted) l sorted))
    /\ forall k, In k (map fst (fold_left (fun sorted p => sort_insert p sorted) l sorted))
                 <-> In k (map fst sorted) \/ In k (map fst l).
Proof.
  induction l as [|p l IH]; intros sorted Hnd Hs.
  - simpl. split; [exact Hs | tauto].
  - cbn [fold_left].
    rewrite map_app in Hnd. cbn [map] in Hnd.
    apply NoDup_app in Hnd. destruct Hnd as (Hnd1 & Hdisj & Hnd2).
    apply NoDup_cons in Hnd2. destruct Hnd2 as [Hp Hnd2].
    destruct (sort_insert_keys p sorted Hs) as [H1 H2].
    { intros H. apply (Hdisj (fst p)); [apply list_elem_of_In; exact H | left]. }
    destruct (IH (sort_insert p sorted)) as [H3 H4]; [|exact H1|].
    { rewrite map_app. apply NoDup_app. split; [|split; [|exact Hnd2]].
      - apply ascending_NoDup. exact H1.
      - intros k Hk Hk'. apply list_elem_of_In in Hk. apply H2 in Hk.
        destruct Hk as [->|Hk]; [contradiction|].
        apply (Hdisj k); [apply list_elem_of_In; exact Hk | right; exact Hk']. }
    split; [exact H3|]. intros k. rewrite H4, H2. cbn [map In]. split.
    + intros [[->|H]|H]; auto.
    + intros [H|[<-|H]]; auto.
Qed.

(** The days of [day_totals] ascend, each day of the transactions once. *)
Lemma day_totals_ascend (das : list (Z * jsnum)) :
  StronglySorted Z.lt (map fst (day_totals das))
  /\ forall k, In k (map fst (day_totals das)) <-> In k (map fst das).
Proof.
  unfold day_totals. rewrite map_map. cbn [fst].
  change (map (fun x : Z * list jsnum => fst x)) with (map (@fst Z (list jsnum))).
  destruct (groupBy_keys das [] ltac:(constructor)) as [Hnd Hin].
  fold (groupBy das) in Hnd, Hin.
  destruct (sortBy_keys (groupBy das) []) as [H1 H2]; [exact Hnd | constructor|].
  fold (sortBy (groupBy das)) in H1, H2.
  split; [exact H1|]. intros k. rewrite H2, Hin. simpl. tauto.
Qed.

Lemma new_Dates (values : list (Z * float)) :
  forall s : State,
    map_each (fun kv => d <- new_Date (fst kv) ;; ret (d, snd kv)) values s
    = Returns (dates_from (nextDate s) values)
        (mkState (heap s) (boundsHeap s) (length values + nextDate s) (nextUuid s)
           (today s)).
Proof.
  induction values as [|kv rest IH]; intros s.
  - cbn. rewrite state_same. reflexivity.
  - cbn [map_each dates_from].
    erewrite bind_Returns by reflexivity.
    erewrite bind_Returns by apply IH.
    cbn [heap boundsHeap nextDate nextUuid today length]. unfold ret.
    rewrite Nat.add_succ_r. reflexivity.
Qed.

Lemma running_balances (start : Z) (days : list (Date * float)) :
  forall acc : list Point,
    running start days acc
    = rev acc ++ balances start (match acc with p :: _ => pt_y p | [] => 0%float end) days.
Proof.
  induction days as [|[date v] days IH]; intros acc.
  - simpl. rewrite app_nil_r. reflexivity.
  - cbn [running balances]. rewrite IH. cbn [rev pt_y]. rewrite <- app_assoc.
    reflexivity.
Qed.

Lemma balances_x (start : Z) (values : list (Z * float)) :
  forall (n : nat) (y0 : float),
    map pt_x (balances start y0 (dates_from n values))
    = map (fun kv => fst kv - start) values.
Proof.
  induction values as [|kv rest IH]; intros n y0; [reflexivity|].
  cbn [dates_from balances map pt_x date_day fst]. rewrite IH. reflexivity.
Qed.

Lemma balances_last (start : Z) (values : list (Z * float)) :
  forall (n : nat) (y0 : float) (p : Point),
    last (balances start y0 (dates_from n values)) = Some p ->
    pt_y p = fold_left (fun acc v => (acc + v)%float) (map snd values) y0
    /\ exists d, pt_d p = VDate d /\ last (map fst values) = Some (date_day d).
Proof.
  induction values as [|kv rest IH]; intros n y0 p H; [discriminate|].
  cbn [dates_from balances] in H. cbn [map fold_left].
  destruct rest as [|kv' rest'].
  - cbn in H. injection H as <-. cbn. eauto.
  - change (last (balances start (y0 + snd kv)%float (dates_from (S n) (kv' :: rest')))
            = Some p) in H.
    apply IH in H. exact H.
Qed.

Lemma ascending_shift (start : Z) (l : list Z) :
  StronglySorted Z.lt l -> StronglySorted Z.lt (map (fun k => k - start) l).
Proof.
  induction 1 as [|k l _ IH Hk]; [constructor|]. cbn [map].
  constructor; [exact IH|]. rewrite List.Forall_forall in Hk |- *.
  intros x Hx. apply in_map_iff in Hx. destruct Hx as (y & <- & Hy).
  specialize (Hk y Hy). lia.
Qed.

Lemma ascending_snoc (l : list Z) (x : Z) :
  StronglySorted Z.lt l -> (forall k, last l = Some k -> k < x) ->
  StronglySorted Z.lt (l ++ [x]).
Proof.
  induction 1 as [|k l Hl IH Hk]; intros Hx; [repeat constructor|].
  cbn [app]. destruct l as [|k' l'].
  - cbn. constructor; [repeat constructor|]. constructor; [|constructor].
    apply Hx. reflexivity.
  - assert (StronglySorted Z.lt ((k' :: l') ++ [x])) as Hs by (apply IH; exact Hx).
    constructor; [exact Hs|]. apply List.Forall_app. split; [exact Hk|].
    constructor; [|constructor].
    apply StronglySorted_inv in Hs. destruct Hs as [_ Hs].
    inversion Hk as [|? ? Hkk' _]; subst.
    rewrite List.Forall_forall in Hs.
    assert (In x (l' ++ [x])) as Hin by (apply in_app_iff; right; left; reflexivity).
    destruct l' as [|k'' l''].
    + specialize (Hx k' eq_refl). lia.
    + specialize (Hs x Hin). lia.
Qed.

Lemma ascending_drop (n : nat) (l : list Z) :
  StronglySorted Z.lt l -> StronglySorted Z.lt (drop n l).
Proof.
  revert n. induction l as [|k l IH]; intros [|n] H; try exact H.
  cbn [drop]. apply IH. apply StronglySorted_inv in H. apply H.
Qed.

Lemma last_drop {A} (n : nat) (l : list A) :
  (n < length l)%nat -> last (drop n l) = last l.
Proof.
  revert n. induction l as [|a l IH]; intros [|n] H; try reflexivity; simpl in H.
  cbn [drop]. rewrite IH by lia. destruct l; [simpl in H; lia | reflexivity].
Qed.

Lemma findIndex_lt {A} (f : A -> bool) (l : list A) :
  findIndex f l < Z.of_nat (length l).
Proof.
  unfold findIndex. rewrite findIndex_from_position.
  assert (forall n, position f l = Some n -> (n < length l)%nat) as H.
  { induction l as [|a l IH]; intros n Hn; [discriminate|]. cbn [position] in Hn.
    destruct (f a); [injection Hn as <-; simpl; lia|].
    destruct (position f l) as [m|]; [|discriminate]. injection Hn as <-.
    specialize (IH m eq_refl). simpl. lia. }
  destruct (position f l) as [n|]; [specialize (H n eq_refl); lia | lia].
Qed.

Lemma balances_nonempty (start : Z) (y0 : float) (days : list (Date * float)) :
  days <> [] -> exists l, last (balances start y0 days) = Some l.
Proof.
  intros H. destruct (last (balances start y0 days)) as [l|] eqn:E; [eauto|].
  apply last_None in E. destruct days as [|[d v] days]; [contradiction | discriminate].
Qed.

Lemma last_of_map {A B} (f : A -> B) (l : list A) : last (map f l) = f <$> last l.
Proof.
  induction l as [|a l IH]; [reflexivity|]. cbn [map].
  destruct l as [|a' l']; [reflexivity|]. exact IH.
Qed.

(** X15: [generatePath] over transactions that all have a start date, within
    bounds that have both dates. The path starts with a point at [x = 0]
    on the start of the bounds; the points after it are in ascending
    order of [x], no two on the same day; and the last of them carries
    the running sum of all the days' totals, of the days before the
    start of the bounds as well. Nothing in the store changes. *)
Theorem generatePath_days_ascend (fuel : nat) (s : State) (this : nat)
  (bounds : nat) (bb : Bounds) (ds de : Date) (g : list nat)
  (das : list (Z * jsnum))
  (Hb : boundsHeap s !! bounds = Some bb)
  (Hs : bounds_startDate bb = VDate ds)
  (He : bounds_endDate bb = VDate de)
  (Hg : g <> [])
  (Hdated : Forall2 (dated (heap s)) g das) :
  exists (first : Point) (rest : list Point) (s' : State),
    generatePath fuel this bounds (Some g) s
    = Returns (mkPathResult (first :: rest)
                 (Some (getInflectionZeroPoints (today s) (first :: rest) bb))) s'
    /\ heap s' = heap s
    /\ pt_x first = 0
    /\ pt_d first = VDate ds
    /\ rest <> []
    /\ StronglySorted Z.lt (map pt_x rest)
    /\ pt_y <$> last rest
       = Some (fold_left (fun acc v => (acc + v)%float) (map snd (day_totals das))
                 0%float).
Proof.
  set (start := date_day ds).
  set (values := day_totals das).
  set (days := dates_from (nextDate s) values).
  set (s1 := mkState (heap s) (boundsHeap s) (length values + nextDate s) (nextUuid s)
               (today s)).
  set (T := balances start 0%float days).
  destruct (day_totals_ascend das) as [Hasc Hkeys]. fold values in Hasc, Hkeys.
  assert (values <> []) as Hvalues.
  { destruct Hdated as [|c da l das' _ _]; [contradiction|].
    intros E. specialize (Hkeys (fst da)). rewrite E in Hkeys. simpl in Hkeys.
    apply Hkeys. left. reflexivity. }
  assert (days <> []) as Hdays.
  { unfold days. destruct values; [contradiction | discriminate]. }
  destruct (balances_nonempty start 0%float days Hdays) as [l Hl]. fold T in Hl.
  destruct (balances_last start values (nextDate s) 0%float l Hl)
    as (Hly & dl & Hld & Hlast).
  set (pad := mkPoint (pt_value l) (VDate de) (date_day de - start) (pt_y l)).
  set (T' := if js_lt (pt_d l) (VDate de) then T ++ [pad] else T).
  set (idx := findIndex (fun t => js_ge (pt_d t) (VDate ds)) T').
  assert (map pt_x T = map (fun k => k - start) (map fst values)) as HTx.
  { unfold T, days. rewrite balances_x, map_map. reflexivity. }
  assert (StronglySorted Z.lt (map pt_x T')) as HT'.
  { unfold T'. destruct (js_lt (pt_d l) (VDate de)) eqn:Elt.
    - rewrite map_app. cbn [map pt_x pad]. rewrite HTx.
      apply ascending_snoc; [apply ascending_shift; exact Hasc|].
      intros k Hk. rewrite last_of_map, Hlast in Hk. injection Hk as <-.
      rewrite Hld in Elt. unfold js_lt in Elt. simpl in Elt.
      apply Z.ltb_lt in Elt. lia.
    - rewrite HTx. apply ascending_shift. exact Hasc. }
  assert (last T' = Some (if js_lt (pt_d l) (VDate de) then pad else l)) as HlastT'.
  { unfold T'. destruct (js_lt (pt_d l) (VDate de)); [apply last_snoc | exact Hl]. }
  assert (T' <> []) as HT'ne.
  { intros E. rewrite E in HlastT'. discriminate. }
  assert (idx < Z.of_nat (length T')) as Hidx by apply findIndex_lt.
  set (rest := if 0 <? idx then drop (Z.to_nat idx) T' else T').
  assert (generatePath fuel this bounds (Some g) s
          = bind (if 0 <? idx
                  then match T' !! Z.to_nat idx with
                       | Some t => ret (mkPoint None (VDate ds) 0 (pt_y t))
                       | None => throw TypeError
                       end
                  else ret (mkPoint None (VDate ds) 0 0%float))
              (fun startValue =>
                 ret (mkPathResult (startValue :: rest)
                        (Some (getInflectionZeroPoints (today s) (startValue :: rest) bb))))
              s1) as Hrun.
  { unfold generatePath.
    erewrite bind_Returns by (apply load_bounds_Returns; exact Hb).
    erewrite bind_Returns by reflexivity.
    erewrite bind_Returns by reflexivity.
    destruct g as [|c cs]; [contradiction|].
    rewrite (bind_Returns (daily_values (c :: cs)) _ s s values); cycle 1.
    { unfold daily_values. erewrite bind_Returns by (apply dated_amounts_Returns; exact Hdated).
      reflexivity. }
    rewrite (bind_Returns (map_each _ values) _ s s1 days) by apply new_Dates.
    erewrite bind_Returns by (apply load_bounds_Returns; exact Hb).
    rewrite Hs, He. cbn [moment]. fold start values days. rewrite running_balances.
    cbn [rev app]. fold T. rewrite Hl.
    erewrite bind_Returns; cycle 1.
    { instantiate (1 := s1). instantiate (1 := T').
      unfold T'. destruct (js_lt (pt_d l) (VDate de)); reflexivity. }
    reflexivity. }
  assert (exists first,
             (if 0 <? idx
              then match T' !! Z.to_nat idx with
                   | Some t => ret (mkPoint None (VDate ds) 0 (pt_y t))
                   | None => throw TypeError
                   end
              else ret (mkPoint None (VDate ds) 0 0%float)) s1
             = Returns first s1
             /\ pt_x first = 0 /\ pt_d first = VDate ds) as (first & Hfirst & Hx & Hd).
  { destruct (Z.ltb_spec 0 idx) as [E|E];
      [|eexists; split; [reflexivity | split; reflexivity]].
    destruct (T' !! Z.to_nat idx) as [t|] eqn:Et.
    - eexists. split; [reflexivity | split; reflexivity].
    - apply lookup_ge_None in Et. lia. }
  exists first, rest, s1. split.
  { rewrite Hrun. erewrite bind_Returns by exact Hfirst. reflexivity. }
  split; [reflexivity|]. split; [exact Hx|]. split; [exact Hd|].
  assert (last rest = last T') as Hlast_rest.
  { unfold rest. destruct (Z.ltb_spec 0 idx); [|reflexivity]. apply last_drop. lia. }
  split.
  { intros E. rewrite E in Hlast_rest. rewrite HlastT' in Hlast_rest. discriminate. }
  split.
  { unfold rest. destruct (0 <? idx); [|exact HT'].
    rewrite <- skipn_map. apply ascending_drop. exact HT'. }
  rewrite Hlast_rest, HlastT'. cbn [fmap option_fmap option_map].
  destruct (js_lt (pt_d l) (VDate de)); cbn [pt_y pad]; rewrite Hly; reflexivity.
Qed.

Lemma generatePath_days_ascend_witness :
  exists (first : Point) (rest : list Point) (s' : State),
    generatePath 0 0%nat 0%nat (Some [1%nat]) weekly_store
    = Returns (mkPathResult (first :: rest)
                 (Some (getInflectionZeroPoints 0 (first :: rest) two_weeks))) s'
    /\ heap s' = heap weekly_store
    /\ pt_x first = 0
    /\ pt_d first = VDate (mkDate 1 0)
    /\ rest <> []
    /\ StronglySorted Z.lt (map pt_x rest)
    /\ pt_y <$> last rest
       = Some (fold_left (fun acc v => (acc + v)%float)
                 (map snd (day_totals [(0, JNum 100)])) 0%float).
Proof.
  apply (generatePath_days_ascend 0 weekly_store 0%nat 0%nat two_weeks (mkDate 1 0)
           (mkDate 2 14) [1%nat] [(0, JNum 100)]);
    [reflexivity | reflexivity | reflexivity | discriminate|].
  constructor; [|constructor]. eexists. eexists. split; [reflexivity|].
  split; reflexivity.
Defined.

(** ** Key points *)

Lemma add_days_add_days (start : option Z) (a b : Z) :
  add_days (add_days start a) b = add_days start (a + b).
Proof. destruct start; simpl; [f_equal; lia | reflexivity]. Qed.

Lemma add_days_0 (start : option Z) : add_days start 0 = start.
Proof. destruct start; simpl; [f_equal; lia | reflexivity]. Qed.

Lemma inflection_loop_step (i : Z) (start finally : option Z) (p0 p1 p2 : Point)
  (tl : list Point) :
  inflection_loop i start finally (p0 :: p1 :: p2 :: tl)
  = match turn (pt_y p0) (pt_y p1) (pt_y p2) with
    | Some type =>
        [mkKeyPoint (i - 1) (pt_x p1)
           (mkMomentDate (add_days start (pt_x p1)) finally) (pt_y p1) type]
    | None => []
    end
    ++ inflection_loop (i + 1) (add_days start (pt_x p1)) finally (p1 :: p2 :: tl).
Proof.
  unfold turn. cbn [inflection_loop].
  destruct (PrimFloat.ltb (pt_y p2 - pt_y p1) 0 && PrimFloat.ltb 0 (pt_y p1 - pt_y p0));
    [reflexivity|].
  destruct (PrimFloat.ltb 0 (pt_y p2 - pt_y p1) && PrimFloat.ltb (pt_y p1 - pt_y p0) 0);
    reflexivity.
Qed.

(** The points the loop of [getInflectionPoints] flags, entered at index
    [i] with the moment [start]: one for every turn of the path, with the
    position, day and balance of the middle point. When [toDate()] is
    called the moment is at [start] moved by the days of all the middle
    points up to this one. *)
Lemma inflection_loop_flags (path : list Point) :
  forall (i : Z) (start finally : option Z) (k : KeyPoint),
    In k (inflection_loop i start finally path) <->
    exists (j : nat) (p0 p1 p2 : Point),
      path !! j = Some p0 /\ path !! S j = Some p1 /\ path !! S (S j) = Some p2
      /\ turn (pt_y p0) (pt_y p1) (pt_y p2) = Some (kp_type k)
      /\ kp_count k = i - 1 + Z.of_nat j
      /\ kp_x k = pt_x p1
      /\ kp_value k = pt_y p1
      /\ day_at_call (kp_date k) = add_days start (sum_x path 1 (S j))
      /\ day_at_return (kp_date k) = finally.
Proof.
  induction path as [|p0 rest IH]; intros i start finally k.
  - simpl. split; [contradiction|]. intros (j & ? & ? & ? & H & _). discriminate.
  - destruct rest as [|p1 [|p2 tl]].
    + simpl. split; [contradiction|].
      intros (j & ? & ? & ? & _ & H & _). destruct j; discriminate.
    + simpl. split; [contradiction|].
      intros (j & ? & ? & ? & _ & _ & H & _). destruct j as [|[|j]]; discriminate.
    + rewrite inflection_loop_step, in_app_iff, IH. clear IH. split.
      * intros [Hhere|(j & q0 & q1 & q2 & H0 & H1 & H2 & Hturn & Hcount & Hx & Hv & Hd
                       & Hr)].
        -- exists 0%nat, p0, p1, p2. repeat (split; [reflexivity|]).
           destruct (turn (pt_y p0) (pt_y p1) (pt_y p2)) as [type|]; [|destruct Hhere].
           destruct Hhere as [<-|[]]. simpl. repeat split; try reflexivity; try lia.
           unfold sum_x. simpl. f_equal. lia.
        -- exists (S j), q0, q1, q2. repeat (split; [assumption|]).
           split; [lia|]. repeat (split; [assumption|]).
           split; [|exact Hr]. rewrite Hd, add_days_add_days. reflexivity.
      * intros (j & q0 & q1 & q2 & H0 & H1 & H2 & Hturn & Hcount & Hx & Hv & Hd & Hr).
        destruct j as [|j].
        -- left. simpl in H0, H1, H2.
           injection H0 as <-. injection H1 as <-. injection H2 as <-.
           rewrite Hturn. left. destruct k as [c x [dc dr] v ty]. simpl in *. subst.
           f_equal; [lia|]. f_equal. unfold sum_x. simpl. f_equal. lia.
        -- right. exists j, q0, q1, q2. repeat (split; [assumption|]).
           split; [lia|]. repeat (split; [assumption|]).
           split; [|exact Hr]. rewrite Hd, add_days_add_days. reflexivity.
Qed.

(** The loop of [getInflectionPoints] leaves [start] moved by the days
    of all the middle points it has been over. *)
Lemma inflection_loop_end_sum (path : list Point) :
  forall start : option Z,
    inflection_loop_end start path
    = add_days start (sum_x path 1 (length path - 2)).
Proof.
  induction path as [|p0 rest IH]; intros start.
  - symmetry. apply add_days_0.
  - destruct rest as [|p1 [|p2 tl]].
    + symmetry. apply add_days_0.
    + symmetry. apply add_days_0.
    + change (inflection_loop_end start (p0 :: p1 :: p2 :: tl))
        with (inflection_loop_end (add_days start (pt_x p1)) (p1 :: p2 :: tl)).
      rewrite IH, add_days_add_days. f_equal.
      unfold sum_x. cbn [length drop]. 
      replace (S (S (S (length tl))) - 2)%nat with (S (length tl)) by lia.
      replace (S (S (length tl)) - 2)%nat with (length tl) by lia.
      reflexivity.
Qed.

Lemma zero_loop_step (i : Z) (start finally : option Z) (p1 p2 : Point)
  (tl : list Point) :
  zero_loop i start finally (p1 :: p2 :: tl)
  = match crossing (pt_y p1) (pt_y p2) with
    | Some type =>
        [mkKeyPoint i (pt_x p2) (mkMomentDate (add_days start (pt_x p2)) finally)
           (pt_y p2) type]
    | None => []
    end
    ++ zero_loop (i + 1) (add_days start (pt_x p2)) finally (p2 :: tl).
Proof.
  unfold crossing. cbn [zero_loop].
  destruct (PrimFloat.ltb 0 (pt_y p2) && PrimFloat.ltb (pt_y p1) 0); [reflexivity|].
  destruct (PrimFloat.ltb (pt_y p2) 0 && PrimFloat.ltb 0 (pt_y p1)); reflexivity.
Qed.

Lemma zero_loop_flags (path : list Point) :
  forall (i : Z) (start finally : option Z) (k : KeyPoint),
    In k (zero_loop i start finally path) <->
    exists (j : nat) (p1 p2 : Point),
      path !! j = Some p1 /\ path !! S j = Some p2
      /\ crossing (pt_y p1) (pt_y p2) = Some (kp_type k)
      /\ kp_count k = i + Z.of_nat j
      /\ kp_x k = pt_x p2
      /\ kp_value k = pt_y p2
      /\ day_at_call (kp_date k) = add_days start (sum_x path 1 (S j))
      /\ day_at_return (kp_date k) = finally.
Proof.
  induction path as [|p1 rest IH]; intros i start finally k.
  - simpl. split; [contradiction|]. intros (j & ? & ? & H & _). discriminate.
  - destruct rest as [|p2 tl].
    + simpl. split; [contradiction|].
      intros (j & ? & ? & _ & H & _). destruct j; discriminate.
    + rewrite zero_loop_step, in_app_iff, IH. clear IH. split.
      * intros [Hhere|(j & q1 & q2 & H1 & H2 & Hcross & Hcount & Hx & Hv & Hd & Hr)].
        -- exists 0%nat, p1, p2. repeat (split; [reflexivity|]).
           destruct (crossing (pt_y p1) (pt_y p2)) as [type|]; [|destruct Hhere].
           destruct Hhere as [<-|[]]. simpl. repeat split; try reflexivity; try lia.
           unfold sum_x. simpl. f_equal. lia.
        -- exists (S j), q1, q2. repeat (split; [assumption|]).
           split; [lia|]. repeat (split; [assumption|]).
           split; [|exact Hr]. rewrite Hd, add_days_add_days. reflexivity.
      * intros (j & q1 & q2 & H1 & H2 & Hcross & Hcount & Hx & Hv & Hd & Hr).
        destruct j as [|j].
        -- left. simpl in H1, H2. injection H1 as <-. injection H2 as <-.
           rewrite Hcross. left. destruct k as [c x [dc dr] v ty]. simpl in *. subst.
           f_equal; [lia|]. f_equal. unfold sum_x. simpl. f_equal. lia.
        -- right. exists j, q1, q2. repeat (split; [assumption|]).
           split; [lia|]. repeat (split; [assumption|]).
           split; [|exact Hr]. rewrite Hd, add_days_add_days. reflexivity.
Qed.

(** The loop of [getZeroPoints] leaves [start] moved by the days of all
    the later points it has been over. *)
Lemma zero_loop_end_sum (path : list Point) :
  forall start : option Z,
    zero_loop_end start path = add_days start (sum_x path 1 (length path - 1)).
Proof.
  induction path as [|p1 rest IH]; intros start.
  - symmetry. apply add_days_0.
  - destruct rest as [|p2 tl].
    + symmetry. apply add_days_0.
    + change (zero_loop_end start (p1 :: p2 :: tl))
        with (zero_loop_end (add_days start (pt_x p2)) (p2 :: tl)).
      rewrite IH, add_days_add_days. f_equal.
      unfold sum_x. cbn [length drop].
      replace (S (S (length tl)) - 1)%nat with (S (length tl)) by lia.
      replace (S (length tl) - 1)%nat with (length tl) by lia.
      reflexivity.
Qed.

(** X16: what the detectors flag, on every path: [getInflectionPoints] one
    point for each index [i = j + 2] of the loop at which the path turns,
    the middle point [path[i - 1]] with its position, [x] and [y];
    [getZeroPoints] one for each index at which the path has crossed zero,
    the later point [path[i]]. The date of a flagged point depends on
    what [toDate()] hands out. Where it makes a new Date, the date is the
    start of the bounds moved by the [x] of every point the loop has been
    over up to this one, not by its own [x] alone. Where it hands out the
    moment's own Date, every flagged point shows one and the same day:
    the start moved by the [x] of every point the whole loop goes over. *)
Theorem detectors_flag (today_ : Z) (path : list Point) (bounds : Bounds)
  (k : KeyPoint) :
  (In k (getInflectionPoints today_ path bounds) <->
   exists (j : nat) (p0 p1 p2 : Point),
     path !! j = Some p0 /\ path !! S j = Some p1 /\ path !! S (S j) = Some p2
     /\ turn (pt_y p0) (pt_y p1) (pt_y p2) = Some (kp_type k)
     /\ kp_count k = Z.of_nat (S j)
     /\ kp_x k = pt_x p1
     /\ kp_value k = pt_y p1
     /\ day_read toDate_copies (kp_date k)
        = add_days (moment today_ (bounds_startDate bounds)) (sum_x path 1 (S j))
     /\ day_read toDate_shares (kp_date k)
        = add_days (moment today_ (bounds_startDate bounds))
            (sum_x path 1 (length path - 2)))
  /\ (In k (getZeroPoints today_ path bounds) <->
      exists (j : nat) (p1 p2 : Point),
        path !! S j = Some p1 /\ path !! S (S j) = Some p2
        /\ crossing (pt_y p1) (pt_y p2) = Some (kp_type k)
        /\ kp_count k = Z.of_nat (S (S j))
        /\ kp_x k = pt_x p2
        /\ kp_value k = pt_y p2
        /\ day_read toDate_copies (kp_date k)
           = add_days (moment today_ (bounds_startDate bounds)) (sum_x path 2 (S j))
        /\ day_read toDate_shares (kp_date k)
           = add_days (moment today_ (bounds_startDate bounds))
               (sum_x path 2 (length path - 2))).
Proof.
  cbn [day_read]. split.
  - unfold getInflectionPoints. cbv zeta.
    rewrite inflection_loop_flags, inflection_loop_end_sum.
    split; intros (j & p0 & p1 & p2 & H0 & H1 & H2 & Hturn & Hcount & Hrest);
      exists j, p0, p1, p2; repeat (split; [assumption|]); (split; [lia | exact Hrest]).
  - unfold getZeroPoints. cbv zeta. rewrite zero_loop_flags, zero_loop_end_sum.
    destruct path as [|p path].
    + simpl. split; intros (j & ? & ? & H & _); discriminate.
    + cbn [tail length].
      replace (S (length path) - 2)%nat with (length path - 1)%nat by lia.
      split; intros (j & p1 & p2 & H1 & H2 & Hcross & Hcount & Hrest);
        exists j, p1, p2; repeat (split; [assumption|]); (split; [lia | exact Hrest]).
Qed.

(** C6 fails on the dates. On the path (0, 0), (1, 5), (2, -3), (3, 4),
    bounds starting on day 0, the detectors flag the points the claim
    names, with their own [x] and [y]: a max at position 1, a min at
    position 2, a negative crossing at position 2 and a positive one at
    position 3. But [start.add(x, 'days')] moves the moment [start]
    itself, on every round of the loop. Where [toDate()] makes a new
    Date, the min at [x = 2] is dated day 3 and the positive crossing at
    [x = 3] is dated day 5. Where it hands out the moment's own Date, the
    max and the min are both dated day 3, and both crossings day 5. *)
Theorem key_point_dates_accumulate :
  match zigzag_program (empty_state 0) with
  | Returns p _ =>
      coordinates (path p)
      = [(0, 0%float); (1, 5%float); (2, (-3)%float); (3, 4%float)]
      /\ match keyPoints p with
         | Some k =>
             map (key_point_summary toDate_copies) (inflectionPts k)
             = [(kp_max, 1, 5%float, Some 1); (kp_min, 2, (-3)%float, Some 3)]
             /\ map (key_point_summary toDate_copies) (zeroPts k)
                = [(kp_negative, 2, (-3)%float, Some 2);
                   (kp_positive, 3, 4%float, Some 5)]
             /\ map (key_point_summary toDate_shares) (inflectionPts k)
                = [(kp_max, 1, 5%float, Some 3); (kp_min, 2, (-3)%float, Some 3)]
             /\ map (key_point_summary toDate_shares) (zeroPts k)
                = [(kp_negative, 2, (-3)%float, Some 5);
                   (kp_positive, 3, 4%float, Some 5)]
             /\ forall toDate : ToDate,
                  Exists (fun q => day_read toDate (kp_date q) <> Some (0 + kp_x q))
                    (inflectionPts k)
                  /\ Exists (fun q => day_read toDate (kp_date q) <> Some (0 + kp_x q))
                       (zeroPts k)
         | None => False
         end
  | _ => False
  end.
Proof.
  vm_compute. repeat (split; [reflexivity|]).
  intros toDate. split; destruct toDate;
    (apply Exists_cons_hd; discriminate)
    || (apply Exists_cons_tl, Exists_cons_hd; discriminate).
Qed.

(** ** Scenarios *)

(** C7 fails on the amount. The base tree earns 1 a day from day 0, the
    clock shows day 100 and the scenario starts on day 10. The scenario's
    tree has one child, 'Scenario Initial Amount', dated day 10; the base
    tree's value through day 9 is 10, but the child's amount is 101: the
    constructor passes [valueOnDate] its two arguments in the other
    order, so the recurrence runs to [moment({...})], today. *)
Theorem scenario_initial_amount_runs_to_today :
  match fork_program (empty_state 100) with
  | Returns r _ =>
      fork_children r = 1%nat
      /\ fork_description r = Some "Scenario Initial Amount"%string
      /\ fork_day r = Some 10
      /\ base_value_through_day_9 r = 10%float
      /\ fork_amount r = JNum 101
      /\ fork_amount r <> JNum (base_value_through_day_9 r)
  | _ => False
  end.
Proof. vm_compute. repeat split; try reflexivity. discriminate. Qed.

(** ** Cloning into a scenario *)

Lemma or_null_twice (v : jsnum) :
  (if truthy_num (if truthy_num v then JNum (to_number v) else JNull)
   then JNum (to_number (if truthy_num v then JNum (to_number v) else JNull))
   else JNull)
  = or_null v.
Proof. unfold or_null. destruct v as [| |x]; try reflexivity. simpl. destruct (truthy_float x) eqn:E; simpl; rewrite ?E; reflexivity. Qed.

Lemma or_null_growth_twice (v : jsnum) :
  (if truthy_num (if truthy_num v then v else JNull)
   then (if truthy_num v then v else JNull) else JNull)
  = or_null v.
Proof. unfold or_null. destruct (truthy_num v) eqn:E; simpl; rewrite ?E; reflexivity. Qed.

Lemma js_lt_day (a b : option Date) (v : jsval) :
  date_day <$> a = date_day <$> b -> js_lt (of_date a) v = js_lt (of_date b) v.
Proof.
  destruct a, b; simpl; intros H; try discriminate; [|reflexivity].
  injection H as H. unfold js_lt. simpl. rewrite H. reflexivity.
Qed.

Lemma tree_shaped_new_leaf (rank : nat -> nat) (h : list Transaction) (t : Transaction) :
  tree_shaped rank h -> children t = [] -> tree_shaped rank (h ++ [t]).
Proof.
  intros Htree Hc r t1 c Hr Hin.
  destruct (decide (r < length h)%nat) as [Hlt|Hge].
  - rewrite lookup_app_l in Hr by exact Hlt.
    destruct (Htree r t1 c Hr Hin) as [Hrank [tc Htc]].
    split; [exact Hrank|]. exists tc. rewrite lookup_app_l; [exact Htc|].
    eapply lookup_lt_Some. exact Htc.
  - rewrite lookup_app_r in Hr by lia.
    destruct (r - length h)%nat; simpl in Hr; [|discriminate].
    injection Hr as <-. rewrite Hc in Hin. destruct Hin.
Qed.

(** C8 (amended): [cloneTransactionToScenario] adds to the scenario's
    tree, as its last child, a new object that has the scenario's root
    for parent and the transaction's series, end date, amount, growth,
    description and frequency, as the constructor takes them: an amount
    or growth that is 0, [NaN], [null] or [undefined] is [null] in the
    copy, an empty description is [null], an empty frequency is
    ['none']. Its start date is the scenario's when the transaction's is
    earlier, and the transaction's own otherwise. *)
Theorem cloneTransactionToScenario_copies_the_node
  (rank : nat -> nat) (fuel : nat) (s : State) (sc : Scenario)
  (transaction root : nat) (t rt : Transaction)
  (Ht : heap s !! transaction = Some t)
  (Hroot : sc_transactions sc = Some root)
  (Hrt : heap s !! root = Some rt)
  (Hparent : parent rt = None)
  (Htree : tree_shaped rank (heap s))
  (Hfuel : (rank root < fuel)%nat) :
  exists (c : nat) (tc troot : Transaction) (s' : State),
    cloneTransactionToScenario (S fuel) sc transaction s = Returns c s'
    /\ heap s !! c = None
    /\ heap s' !! c = Some tc
    /\ parentTransaction tc = Some root
    /\ heap s' !! root = Some troot
    /\ last (children troot) = Some c
    /\ (truthy_series (series t) = true -> series tc = series t)
    /\ date_day <$> startDate tc
       = (if js_lt (of_date (startDate t)) (VDate (sc_startDate sc))
          then Some (date_day (sc_startDate sc))
          else date_day <$> startDate t)
    /\ date_day <$> endDate tc = date_day <$> endDate t
    /\ amount tc = or_null (amount t)
    /\ growth tc = or_null (growth t)
    /\ description tc = or_no_string (description t)
    /\ frequency tc = (if truthy_string (frequency t) then frequency t else "none"%string).
Proof.
  set (b1 := mkBlob (growth t) (description t) (amount t) (startDate t) (endDate t)
               (Some (frequency t)) None None).
  destruct (new_Transaction_spec b1 s)
    as (t0 & s0 & Hnew & Hheap0 & Hb0 & Htd0 & _ & Hg0 & Ha0 & Hdesc0 & Hf0 & Hsd0
        & Hed0 & _ & Hc0 & _ & _ & _).
  cbn [b1 blob_growth blob_amount blob_description blob_frequency blob_startDate
       blob_endDate] in Hg0, Ha0, Hdesc0, Hf0, Hsd0, Hed0.
  pose (L := length (heap s)).
  assert (transaction < L)%nat as Hlt by (eapply lookup_lt_Some; exact Ht).
  assert (root < L)%nat as Hrlt by (eapply lookup_lt_Some; exact Hrt).
  set (c1 := set_series (series t) (set_parentTransaction None t0)).
  set (s1 := mkState (heap s ++ [c1]) (boundsHeap s0) (nextDate s0) (nextUuid s0)
               (today s0)).
  assert (cloneTransaction transaction None true false s = Returns L s1) as Hclone.
  { unfold cloneTransaction.
    erewrite bind_Returns by (apply load_Returns; exact Ht).
    erewrite bind_Returns by exact Hnew.
    erewrite bind_Returns; cycle 1.
    { apply load_Returns. rewrite Hheap0, lookup_app_l by exact Hlt. exact Ht. }
    erewrite bind_Returns; cycle 1.
    { apply update_Returns. rewrite Hheap0. apply list_lookup_middle. reflexivity. }
    cbv iota. erewrite bind_Returns by reflexivity.
    erewrite bind_Returns; cycle 1.
    { apply update_Returns. cbn [heap]. rewrite Hheap0, insert_at_end.
      apply list_lookup_middle. reflexivity. }
    unfold ret. cbn [heap boundsHeap nextDate nextUuid today].
    rewrite Hheap0, !insert_at_end. reflexivity. }
  remember (js_lt (of_date (startDate t)) (VDate (sc_startDate sc))) as moved
    eqn:Hmoved.
  set (c2 := if moved then set_startDate (Some (sc_startDate sc)) c1 else c1).
  set (s2 := mkState (heap s ++ [c2]) (boundsHeap s0) (nextDate s0) (nextUuid s0)
               (today s0)).
  assert (children c2 = []) as Hc2.
  { unfold c2. destruct moved; exact Hc0. }
  assert (setStartDates (S fuel) L (Some L) (sc_startDate sc) true s1 = Returns tt s2)
    as Hdates.
  { assert (js_lt (of_date (startDate c1)) (VDate (sc_startDate sc)) = moved) as Hjs.
    { rewrite Hmoved. apply js_lt_day. exact Hsd0. }
    cbn [setStartDates]. unfold c2, s2. destruct moved.
    - erewrite bind_Returns; cycle 1.
      { erewrite bind_Returns; cycle 1.
        { apply load_Returns. apply list_lookup_middle. reflexivity. }
        rewrite Hjs. cbn [andb].
        apply update_Returns. apply list_lookup_middle. reflexivity. }
      erewrite bind_Returns; cycle 1.
      { apply load_Returns. unfold s1, L. cbn [heap]. rewrite insert_at_end.
        apply list_lookup_middle. reflexivity. }
      change (children (set_startDate (Some (sc_startDate sc)) c1)) with (children t0).
      rewrite Hc0. unfold s1, L. cbn [heap]. rewrite insert_at_end. reflexivity.
    - erewrite bind_Returns; cycle 1.
      { erewrite bind_Returns; cycle 1.
        { apply load_Returns. apply list_lookup_middle. reflexivity. }
        rewrite Hjs. cbn [andb negb]. reflexivity. }
      erewrite bind_Returns; cycle 1.
      { apply load_Returns. apply list_lookup_middle. reflexivity. }
      change (children c1) with (children t0). rewrite Hc0. reflexivity. }
  (* addChild *)
  destruct (addChild_spec rank fuel s2 root (Node L) (blob_of c2) rt)
    as (t0' & nt & troot & s3 & s' & Hadd & Hnew' & Hheap3 & Hnt & Hlen' & Hlook' & Hroot'
        & (a & Htroot) & _).
  { cbn [heap s2]. rewrite lookup_app_l by exact Hrlt. exact Hrt. }
  { exact Hparent. }
  { cbn [heap s2]. apply tree_shaped_new_leaf; [exact Htree | exact Hc2]. }
  { exact Hfuel. }
  { cbn [blob_view heap s2]. rewrite list_lookup_middle by reflexivity. reflexivity. }
  destruct (new_Transaction_spec (blob_of c2) s2)
    as (t0'' & s3' & Hnew'' & Hheap3' & _ & _ & _ & Hg1 & Ha1 & Hdesc1 & Hf1 & Hsd1
        & Hed1 & Hser1 & _).
  assert (t0' = t0'') as <-.
  { rewrite Hnew' in Hnew''. injection Hnew'' as <-.
    rewrite Hheap3 in Hheap3'. apply app_inj_tail in Hheap3'. apply Hheap3'. }
  cbn [heap s2] in Hlen', Hlook'. rewrite length_app in Hlen', Hlook'.
  cbn [length] in Hlen', Hlook'.
  exists (length (heap s) + 1)%nat, nt, troot, s'.
  split.
  { unfold cloneTransactionToScenario.
    erewrite bind_Returns by exact Hclone.
    erewrite bind_Returns by exact Hdates.
    rewrite Hroot.
    erewrite bind_Returns by exact Hadd.
    erewrite bind_Returns by (apply load_Returns; exact Hroot').
    rewrite Htroot. cbn [children set_amount set_children].
    rewrite last_snoc. cbn [heap s2]. rewrite length_app. reflexivity. }
  split; [apply lookup_ge_None; lia|].
  split; [exact Hlook'|].
  split; [rewrite Hnt; reflexivity|].
  split; [exact Hroot'|].
  split.
  { rewrite Htroot. cbn [children set_amount set_children]. rewrite last_snoc.
    cbn [heap s2]. rewrite length_app. reflexivity. }
  assert (series c2 = series t) as Hsc2 by (unfold c2; destruct moved; reflexivity).
  assert (date_day <$> startDate c2
          = if moved then Some (date_day (sc_startDate sc)) else date_day <$> startDate t)
    as Hsd2.
  { unfold c2. destruct moved; [reflexivity | exact Hsd0]. }
  assert (endDate c2 = endDate t0) as Hed2 by (unfold c2; destruct moved; reflexivity).
  assert (amount c2 = amount t0) as Ha2 by (unfold c2; destruct moved; reflexivity).
  assert (growth c2 = growth t0) as Hg2 by (unfold c2; destruct moved; reflexivity).
  assert (description c2 = description t0) as Hd2 by (unfold c2; destruct moved; reflexivity).
  assert (frequency c2 = frequency t0) as Hf2 by (unfold c2; destruct moved; reflexivity).
  cbn [blob_of blob_growth blob_amount blob_description blob_frequency blob_startDate
       blob_endDate blob_series] in Hg1, Ha1, Hdesc1, Hf1, Hsd1, Hed1, Hser1.
  rewrite Hnt. cbn [series startDate endDate amount growth description frequency
                    set_depth set_parentTransaction].
  split; [intros Htruthy; rewrite (Hser1 (series c2) eq_refl); [exact Hsc2|rewrite Hsc2; exact Htruthy]|].
  split; [rewrite Hsd1; exact Hsd2|].
  split; [rewrite Hed1, Hed2; exact Hed0|].
  split; [rewrite Ha1, Ha2, Ha0; apply or_null_twice|].
  split; [rewrite Hg1, Hg2, Hg0; apply or_null_growth_twice|].
  split.
  { rewrite Hdesc1, Hd2, Hdesc0. unfold or_no_string.
    destruct (description t) as [d|]; [|reflexivity].
    destruct (truthy_string d) eqn:E; [rewrite E|]; reflexivity. }
  rewrite Hf1, Hf2, Hf0.
  destruct (truthy_string (frequency t)) eqn:E; [rewrite E; reflexivity | reflexivity].
Qed.

(** C8, as stated, fails on a transaction that starts on day 20, has a
    child, and is cloned into a scenario that starts on day 10: the clone
    starts on day 20, and it has no children. *)
Lemma clone_keeps_a_later_start_date :
  match clone_program (empty_state 0) with
  | Returns (ta, tc) _ =>
      date_day <$> startDate ta = Some 20
      /\ date_day <$> startDate tc = Some 20
      /\ date_day <$> startDate tc <> Some 10
      /\ length (children ta) = 1%nat
      /\ children tc = []
  | _ => False
  end.
Proof. vm_compute. repeat split; try reflexivity. discriminate. Qed.

Lemma fork_store_tree_shaped : tree_shaped fork_rank (heap fork_store).
Proof.
  intros [|[|[|[|r]]]] t c H Hin; simpl in H; try discriminate;
    injection H as <-; simpl in Hin; try contradiction;
    destruct Hin as [<-|[]]; (split; [simpl; lia | eexists; reflexivity]).
Qed.

Lemma cloneTransactionToScenario_copies_the_node_witness :
  (exists (c : nat) (tc troot : Transaction) (s' : State),
     cloneTransactionToScenario 3 fork 1%nat fork_store = Returns c s'
     /\ heap fork_store !! c = None
     /\ heap s' !! c = Some tc
     /\ parentTransaction tc = Some 2%nat
     /\ heap s' !! 2%nat = Some troot
     /\ last (children troot) = Some c
     /\ (truthy_series (series base_child) = true -> series tc = series base_child)
     /\ date_day <$> startDate tc
        = (if js_lt (of_date (startDate base_child)) (VDate (sc_startDate fork))
           then Some (date_day (sc_startDate fork))
           else date_day <$> startDate base_child)
     /\ date_day <$> endDate tc = date_day <$> endDate base_child
     /\ amount tc = or_null (amount base_child)
     /\ growth tc = or_null (growth base_child)
     /\ description tc = or_no_string (description base_child)
     /\ frequency tc
        = (if truthy_string (frequency base_child) then frequency base_child
           else "none"%string))
  /\ (exists (c : nat) (tc troot : Transaction) (s' : State),
        cloneTransactionToScenario 3 later_fork 1%nat fork_store = Returns c s'
        /\ heap fork_store !! c = None
        /\ heap s' !! c = Some tc
        /\ parentTransaction tc = Some 2%nat
        /\ heap s' !! 2%nat = Some troot
        /\ last (children troot) = Some c
        /\ (truthy_series (series base_child) = true -> series tc = series base_child)
        /\ date_day <$> startDate tc = Some 30
        /\ date_day <$> endDate tc = None
        /\ amount tc = JNum 7
        /\ growth tc = JNull
        /\ description tc = None
        /\ frequency tc = "none"%string).
Proof.
  split.
  - apply (cloneTransactionToScenario_copies_the_node fork_rank 2 fork_store fork
             1%nat 2%nat base_child fork_root);
      [reflexivity | reflexivity | reflexivity | reflexivity
      | exact fork_store_tree_shaped | simpl; lia].
  - apply (cloneTransactionToScenario_copies_the_node fork_rank 2 fork_store later_fork
             1%nat 2%nat base_child fork_root);
      [reflexivity | reflexivity | reflexivity | reflexivity
      | exact fork_store_tree_shaped | simpl; lia].
Defined.

(** A transaction whose children +5 and -5 balance has the amount 0; its
    clone has none, and is moved from day 5 to the scenario's day 10. *)
Example a_balanced_transaction_is_cloned_without_amount :
  match balanced_clone_program (empty_state 0) with
  | Returns (ta, tc) _ =>
      amount ta = JNum 0
      /\ amount tc = JNull
      /\ date_day <$> startDate ta = Some 5
      /\ date_day <$> startDate tc = Some 10
  | _ => False
  end.
Proof. vm_compute. repeat split; reflexivity. Qed.

(** ** [setStartDates] *)

Lemma set_startDate_same (t : Transaction) : set_startDate (startDate t) t = t.
Proof. destruct t; reflexivity. Qed.

(** X17: [setStartDates] gets through on a transaction without children
    only. Called without a transaction it reads [startDate] of [null];
    called on one with children it sets that one's date and then calls
    itself on the first child without a transaction: a TypeError both
    times. On a transaction without children the date is set; with
    [setall] only a date before the new one is. *)
Theorem setStartDates_stops_at_the_children (fuel : nat) (s : State)
  (this tr : nat) (t : Transaction) (d : Date) (setall : bool)
  (Ht : heap s !! tr = Some t) :
  setStartDates (S fuel) this None d setall s = Throws TypeError
  /\ (children t <> [] ->
      setStartDates (S (S fuel)) this (Some tr) d setall s = Throws TypeError)
  /\ (children t = [] ->
      setStartDates (S fuel) this (Some tr) d setall s
      = Returns tt
          (with_object s tr
             (set_startDate
                (if setall && negb (js_lt (of_date (startDate t)) (VDate d))
                 then startDate t else Some d) t))).
Proof.
  assert (tr < length (heap s))%nat as Hlt by (eapply lookup_lt_Some; exact Ht).
  split; [reflexivity|]. split.
  - intros Hc. cbn [setStartDates].
    erewrite bind_Returns; cycle 1.
    { erewrite bind_Returns by (apply load_Returns; exact Ht).
      instantiate (1 := with_object s tr
             (set_startDate
                (if setall && negb (js_lt (of_date (startDate t)) (VDate d))
                 then startDate t else Some d) t)).
      instantiate (1 := tt).
      destruct (js_lt (of_date (startDate t)) (VDate d)), setall; cbn [andb negb];
        try (apply update_Returns; exact Ht).
      unfold ret, with_object. rewrite set_startDate_same, list_insert_id by exact Ht.
      rewrite state_same. reflexivity. }
    erewrite bind_Returns; cycle 1.
    { apply load_Returns. cbn [heap with_object]. apply list_lookup_insert_eq. exact Hlt. }
    cbn [children set_startDate]. destruct (children t) as [|c cs]; [contradiction|].
    reflexivity.
  - intros Hc. cbn [setStartDates].
    erewrite bind_Returns; cycle 1.
    { erewrite bind_Returns by (apply load_Returns; exact Ht).
      instantiate (1 := with_object s tr
             (set_startDate
                (if setall && negb (js_lt (of_date (startDate t)) (VDate d))
                 then startDate t else Some d) t)).
      instantiate (1 := tt).
      destruct (js_lt (of_date (startDate t)) (VDate d)), setall; cbn [andb negb];
        try (apply update_Returns; exact Ht).
      unfold ret, with_object. rewrite set_startDate_same, list_insert_id by exact Ht.
      rewrite state_same. reflexivity. }
    erewrite bind_Returns; cycle 1.
    { apply load_Returns. cbn [heap with_object]. apply list_lookup_insert_eq. exact Hlt. }
    cbn [children set_startDate]. rewrite Hc. reflexivity.
Qed.

Lemma setStartDates_stops_at_the_children_witness :
  setStartDates 1 0%nat None (mkDate 9 30) true fork_store = Throws TypeError
  /\ (children (node (JNum 7) [1%nat] None) <> [] ->
      setStartDates 2 0%nat (Some 0%nat) (mkDate 9 30) true fork_store
      = Throws TypeError)
  /\ (children (node (JNum 7) [1%nat] None) = [] ->
      setStartDates 1 0%nat (Some 0%nat) (mkDate 9 30) true fork_store
      = Returns tt
          (with_object fork_store 0%nat
             (set_startDate
                (if true && negb (js_lt (of_date None) (VDate (mkDate 9 30)))
                 then None else Some (mkDate 9 30))
                (node (JNum 7) [1%nat] None)))).
Proof.
  apply (setStartDates_stops_at_the_children 0 fork_store 0%nat 0%nat
           (node (JNum 7) [1%nat] None) (mkDate 9 30) true).
  reflexivity.
Defined.

(** ** [cloneTransaction] *)

(** X18: What [cloneTransaction] makes: one new object, built by the
    constructor from six fields of the transaction, so that its
    [transactionType] is ['plain'], its depth -1 and it has no children,
    whatever the transaction has. Unless divorced it names the
    transaction's parent, but no object of the store is changed: the
    parent does not list it. It keeps the series, or with [newSeries]
    gets a new one. Without a transaction given, [this] is cloned. *)
Theorem cloneTransaction_makes_a_bare_copy (s : State) (this transaction : nat)
  (t : Transaction) (divorceParent newSeries : bool)
  (Ht : heap s !! transaction = Some t) :
  exists (clone : Transaction) (s' : State),
    cloneTransaction this (Some transaction) divorceParent newSeries s
    = Returns (length (heap s)) s'
    /\ heap s' = heap s ++ [clone]
    /\ growth clone = or_null (growth t)
    /\ amount clone = (if truthy_num (amount t) then JNum (to_number (amount t))
                       else JNull)
    /\ description clone = or_no_string (description t)
    /\ frequency clone = or_string "none" (Some (frequency t))
    /\ date_day <$> startDate clone = date_day <$> startDate t
    /\ date_day <$> endDate clone = date_day <$> endDate t
    /\ transactionType clone = "plain"%string
    /\ depth clone = -1
    /\ children clone = []
    /\ parentTransaction clone = (if divorceParent then None else parentTransaction t)
    /\ series clone = (if newSeries then Uuid (S (nextUuid s)) else series t)
    /\ cloneTransaction transaction None divorceParent newSeries s
       = Returns (length (heap s)) s'.
Proof.
  set (b := mkBlob (growth t) (description t) (amount t) (startDate t) (endDate t)
              (Some (frequency t)) None None).
  destruct (new_Transaction_constructed b s)
    as (sr & sd & ed & s1 & Hnew & Hheap1 & Hsd & Hed & _ & _).
  assert (nextUuid s1 = S (nextUuid s)) as Hu.
  { revert Hnew. unfold new_Transaction, bind, copy_date, new_Date, generateUUID,
      new_object, ret. cbn [blob_startDate blob_endDate blob_series b].
    destruct (startDate t), (endDate t); intros H; injection H as <-; reflexivity. }
  assert (transaction < length (heap s))%nat as Hlt by (eapply lookup_lt_Some; exact Ht).
  assert (forall x, <[length (heap s) := x]> (heap s1) = heap s ++ [x]) as Hins.
  { intros x. rewrite Hheap1. apply insert_at_end. }
  assert (cloneTransaction this (Some transaction) divorceParent newSeries s
          = Returns (length (heap s))
              (mkState
                 (heap s ++
                  [set_series (if newSeries then Uuid (S (nextUuid s)) else series t)
                     (set_parentTransaction
                        (if divorceParent then None else parentTransaction t)
                        (constructed b sr sd ed))])
                 (boundsHeap s1) (nextDate s1)
                 (if newSeries then S (nextUuid s1) else nextUuid s1) (today s1)))
    as Hrun.
  { unfold cloneTransaction.
    erewrite bind_Returns by (apply load_Returns; exact Ht).
    erewrite bind_Returns by exact Hnew.
    erewrite bind_Returns; cycle 1.
    { apply load_Returns. rewrite Hheap1. rewrite lookup_app_l by exact Hlt. exact Ht. }
    erewrite bind_Returns; cycle 1.
    { apply update_Returns. rewrite Hheap1. apply list_lookup_middle. reflexivity. }
    rewrite Hins.
    destruct newSeries.
    - erewrite bind_Returns by reflexivity.
      erewrite bind_Returns; cycle 1.
      { apply update_Returns. cbn [heap]. apply list_lookup_middle. reflexivity. }
      cbn [heap boundsHeap nextDate nextUuid today]. rewrite insert_at_end, Hu.
      reflexivity.
    - erewrite bind_Returns by reflexivity.
      erewrite bind_Returns; cycle 1.
      { apply update_Returns. cbn [heap]. apply list_lookup_middle. reflexivity. }
      cbn [heap boundsHeap nextDate nextUuid today]. rewrite insert_at_end.
      reflexivity. }
  eexists. eexists. split; [exact Hrun|]. cbn [heap].
  split; [reflexivity|].
  repeat (split; [first [reflexivity | exact Hsd | exact Hed]|]).
  exact Hrun.
Qed.

Lemma cloneTransaction_makes_a_bare_copy_witness :
  exists (clone : Transaction) (s' : State),
    cloneTransaction 0%nat (Some 1%nat) false true fork_store = Returns 4%nat s'
    /\ heap s' = heap fork_store ++ [clone]
    /\ growth clone = JNull
    /\ amount clone = JNum 7
    /\ description clone = None
    /\ frequency clone = "none"%string
    /\ date_day <$> startDate clone = Some 20
    /\ date_day <$> endDate clone = None
    /\ transactionType clone = "plain"%string
    /\ depth clone = -1
    /\ children clone = []
    /\ parentTransaction clone = Some 0%nat
    /\ series clone = Uuid 5
    /\ cloneTransaction 1%nat None false true fork_store = Returns 4%nat s'.
Proof.
  apply (cloneTransaction_makes_a_bare_copy fork_store 0%nat 1%nat base_child false true).
  reflexivity.
Defined.

(** ** Gathering for a scenario *)

Lemma series_eqb_eq (a b : SeriesId) : series_eqb a b = true <-> a = b.
Proof.
  destruct a as [x|m], b as [y|n]; simpl; split; intros H; try discriminate.
  - apply String.eqb_eq in H. congruence.
  - injection H as ->. apply String.eqb_refl.
  - apply Nat.eqb_eq in H. congruence.
  - injection H as ->. apply Nat.eqb_refl.
Qed.

Lemma includes_In (ids : list SeriesId) (id : SeriesId) :
  includes ids id = true <-> In id ids.
Proof.
  unfold includes. rewrite existsb_exists. split.
  - intros (x & Hx & E). apply series_eqb_eq in E. subst. exact Hx.
  - intros H. exists id. split; [exact H | apply series_eqb_eq; reflexivity].
Qed.

Lemma uniq_series_In (l : list SeriesId) :
  forall (seen : list SeriesId) (id : SeriesId),
    In id (uniq_series seen l) <-> In id l /\ ~ In id seen.
Proof.
  induction l as [|x l IH]; intros seen id; cbn [uniq_series].
  - simpl. tauto.
  - destruct (includes seen x) eqn:E.
    + apply includes_In in E. rewrite IH. simpl. split.
      * intros [H1 H2]. auto.
      * intros [[->|H1] H2]; [contradiction | auto].
    + assert (~ In x seen) as Hx.
      { intros H. apply includes_In in H. congruence. }
      simpl. rewrite IH, in_app_iff. simpl. split.
      * intros [<-|[H1 H2]]; [auto|]. split; [auto|tauto].
      * intros [[<-|H1] H2]; [auto|].
        destruct (series_eqb x id) eqn:Ex; [apply series_eqb_eq in Ex; auto|].
        right. split; [exact H1|]. intros [H|[H|[]]]; [contradiction|].
        apply series_eqb_eq in H. congruence.
Qed.

Lemma map_each_load (s : State) (l : list ref) (ts : list Transaction) :
  Forall2 (fun c t => heap s !! c = Some t) l ts -> map_each load l s = Returns ts s.
Proof.
  induction 1 as [|c t l ts Hc _ IH]; [reflexivity|]. cbn [map_each].
  erewrite bind_Returns by (apply load_Returns; exact Hc).
  erewrite bind_Returns by exact IH. reflexivity.
Qed.

Lemma filter_each_load (s : State) (P : Transaction -> bool) (l : list ref) :
  Forall (fun c => is_Some (heap s !! c)) l ->
  exists kept,
    filter_each (fun r => t <- load r ;; ret (P t)) l s = Returns kept s
    /\ forall c, In c kept <-> In c l /\ exists t, heap s !! c = Some t /\ P t = true.
Proof.
  induction 1 as [|c l [t Hc] _ (kept & Hrun & Hkept)].
  - exists []. split; [reflexivity|]. simpl. tauto.
  - exists (if P t then c :: kept else kept). split.
    + cbn [filter_each].
      erewrite bind_Returns; cycle 1.
      { erewrite bind_Returns by (apply load_Returns; exact Hc). reflexivity. }
      erewrite bind_Returns by exact Hrun. reflexivity.
    + intros x. destruct (P t) eqn:E; simpl; rewrite Hkept; split.
      * intros [<-|[H1 H2]]; [eauto | auto].
      * intros [[<-|H1] H2]; [auto | auto].
      * intros [H1 H2]. auto.
      * intros [[<-|H1] (t' & Ht' & HP)]; [|eauto]. congruence.
Qed.

Lemma lodash_sum_of_amounts (s : State) (l : list ref) (amounts : list jsnum) :
  Forall2 (fun c a => amount <$> heap s !! c = Some a) l amounts ->
  lodash_sum_by (fun r => t <- load r ;; ret (amount t)) l s
  = Returns (lodash_sum amounts) s.
Proof.
  intros H. unfold lodash_sum_by. rewrite <- lodash_sum_backwards.
  apply Forall2_rev in H. revert H. generalize (rev l), (rev amounts), 0%float.
  intros l' as' result H. revert result.
  induction H as [|c a l' as' Hc _ IH]; intros result; [reflexivity|].
  cbn [lodash_sum_loop fold_left].
  destruct (heap s !! c) as [t|] eqn:Ht; [|discriminate]. injection Hc as <-.
  erewrite bind_Returns; cycle 1.
  { erewrite bind_Returns by (apply load_Returns; exact Ht). reflexivity. }
  apply IH.
Qed.

Lemma js_ge_not_lt (a : option Date) (d : Date) :
  js_ge (of_date a) (VDate d) = negb (js_lt (of_date a) (VDate d)).
Proof.
  unfold js_ge, js_lt. destruct a; simpl; apply Z.leb_antisym.
Qed.

Lemma leaf_lookup_with_object (s : State) (r c p : ref) (tr tc x : Transaction) :
  heap s !! r = Some tr -> parentTransaction tr = None ->
  heap s !! c = Some tc -> parentTransaction tc = Some p ->
  heap (with_object s r x) !! c = Some tc.
Proof.
  intros Hr Hroot Hc Hp. cbn [heap with_object].
  rewrite list_lookup_insert_ne; [exact Hc|].
  intros <-. rewrite Hr in Hc. injection Hc as <-. congruence.
Qed.

(** X19: A scenario and its base, each a root over one-time transactions.
    The scenario gathers its own transactions, and after them those of
    the base that start before the scenario does or whose series none of
    the scenario's own has. [getValueOnDate] is the [_.sum] of the
    amounts of these, and [generateScenarioPath] the base's path over
    them. With [scenarioOnly] the scenario's own are returned. *)
Theorem scenario_replaces_the_base_by_series (fuel : nat) (s : State)
  (sc : Scenario) (own : nat) (ot bt : Transaction) (bounds : nat)
  (Hsc : sc_transactions sc = Some own)
  (Hot : heap s !! own = Some ot)
  (Hbt : heap s !! sc_baseTransaction sc = Some bt)
  (Hne : sc_baseTransaction sc <> own)
  (Hor : parentTransaction ot = None)
  (Hbr : parentTransaction bt = None)
  (Hoc : children ot <> [])
  (Hbc : children bt <> [])
  (Hol : Forall (one_time_leaf_of (heap s) own) (children ot))
  (Hbl : Forall (one_time_leaf_of (heap s) (sc_baseTransaction sc)) (children bt)) :
  exists (kept : list nat) (amounts : list jsnum) (s1 s' : State),
    Scenario_gatherTransactions (S (S fuel)) sc bounds true s
    = Returns (GArray (children ot)) s1
    /\ Scenario_gatherTransactions (S (S fuel)) sc bounds false s
       = Returns (GArray (children ot ++ kept)) s'
    /\ (forall c,
          In c kept <->
          In c (children bt)
          /\ exists tc, heap s !! c = Some tc
                        /\ (starts_before sc tc
                            \/ no_counterpart (heap s) (children ot) tc))
    /\ Forall2 (fun c a => amount <$> heap s !! c = Some a) (children ot ++ kept) amounts
    /\ Scenario_getValueOnDate (S (S fuel)) sc bounds s
       = Returns (lodash_sum amounts) s'
    /\ generateScenarioPath (S (S fuel)) sc bounds s
       = generatePath (S (S fuel)) (sc_baseTransaction sc) bounds
           (Some (children ot ++ kept)) s'.
Proof.
  set (base := sc_baseTransaction sc) in *.
  set (s1 := with_object s own (set_accumulator (children ot) ot)).
  set (s2 := with_object s1 base (set_accumulator (children bt) bt)).
  assert (gatherTransactions (S (S fuel)) own bounds s = Returns (GArray (children ot)) s1)
    as Hg1 by (apply gather_one_time_root; assumption).
  assert (heap s1 !! base = Some bt) as Hbt1.
  { unfold s1. cbn [heap with_object]. rewrite list_lookup_insert_ne by congruence.
    exact Hbt. }
  assert (forall p c tc, heap s !! c = Some tc -> parentTransaction tc = Some p ->
            heap s1 !! c = Some tc) as Hs1.
  { intros p c tc Hc Hp. apply (leaf_lookup_with_object s own c p ot tc); assumption. }
  assert (forall p c tc, heap s !! c = Some tc -> parentTransaction tc = Some p ->
            heap s2 !! c = Some tc) as Hs2.
  { intros p c tc Hc Hp.
    apply (leaf_lookup_with_object s1 base c p bt tc);
      [exact Hbt1 | exact Hbr | eapply Hs1; eassumption | exact Hp]. }
  assert (gatherTransactions (S (S fuel)) base bounds s1 = Returns (GArray (children bt)) s2)
    as Hg2.
  { apply gather_one_time_root; try assumption.
    eapply Forall_impl; [exact Hbl|]. intros c (tc & Hc & Hleaf & Hp & Hf).
    exists tc. split; [eapply Hs1; eassumption | auto]. }
  (* the series of the scenario's own *)
  assert (exists ots,
             Forall2 (fun c t => heap s !! c = Some t
                                 /\ exists p, parentTransaction t = Some p)
               (children ot) ots) as (ots & Hots').
  { clear -Hol. induction Hol as [|c l (tc & Hc & _ & Hp & _) _ (ots & H1)].
    - exists []. constructor.
    - exists (tc :: ots). constructor; eauto. }
  assert (Forall2 (fun c t => heap s !! c = Some t) (children ot) ots) as Hots.
  { eapply Forall2_impl; [exact Hots'|]. intros c t [H _]. exact H. }
  assert (Forall2 (fun c t => heap s1 !! c = Some t) (children ot) ots) as Hots1.
  { eapply Forall2_impl; [exact Hots'|]. intros c t [H [p Hp]]. eapply Hs1; eassumption. }
  set (ids := uniq_series [] (map series ots)).
  set (P := fun t : Transaction =>
              js_lt (of_date (startDate t)) (VDate (sc_startDate sc))
              || (js_ge (of_date (startDate t)) (VDate (sc_startDate sc))
                  && negb (includes ids (series t)))).
  destruct (filter_each_load s2 P (children bt)) as (kept & Hfilter & Hkept).
  { eapply Forall_impl; [exact Hbl|]. intros c (tc & Hc & _ & Hp & _).
    exists tc. eapply Hs2; eassumption. }
  assert (Scenario_gatherTransactions (S (S fuel)) sc bounds false s
          = Returns (GArray (children ot ++ kept)) s2) as Hrun.
  { unfold Scenario_gatherTransactions. rewrite Hsc.
    erewrite bind_Returns by exact Hg1. cbv iota.
    erewrite bind_Returns; cycle 1.
    { erewrite bind_Returns by (apply map_each_load; exact Hots1). reflexivity. }
    erewrite bind_Returns by exact Hg2. cbv iota.
    erewrite bind_Returns by exact Hfilter.
    destruct (children ot) as [|c cs]; [contradiction|]. reflexivity. }
  assert (forall c, In c kept -> exists tc p, heap s !! c = Some tc
                                  /\ parentTransaction tc = Some p) as Hkept_leaf.
  { intros c Hc. apply Hkept in Hc. destruct Hc as [Hc _].
    rewrite Forall_forall in Hbl. destruct (Hbl c) as (tc & Htc & _ & Hp & _);
      [apply list_elem_of_In; exact Hc | eauto]. }
  assert (exists amounts,
             Forall2 (fun c a => amount <$> heap s !! c = Some a) (children ot ++ kept)
               amounts
             /\ Forall2 (fun c a => amount <$> heap s2 !! c = Some a) (children ot ++ kept)
                  amounts) as (amounts & Hamounts & Hamounts2).
  { assert (Forall (fun c => exists tc p, heap s !! c = Some tc
                               /\ parentTransaction tc = Some p) (children ot ++ kept))
      as Hall.
    { apply Forall_app. split.
      - eapply Forall_impl; [exact Hol|]. intros c (tc & Hc & _ & Hp & _). eauto.
      - apply Forall_forall. intros c Hc. apply Hkept_leaf. apply list_elem_of_In. exact Hc. }
    assert (forall l, Forall (fun c => exists tc p, heap s !! c = Some tc
                               /\ parentTransaction tc = Some p) l ->
              exists amounts,
                Forall2 (fun c a => amount <$> heap s !! c = Some a) l amounts
                /\ Forall2 (fun c a => amount <$> heap s2 !! c = Some a) l amounts) as Hgen.
    { intros l Hl. induction Hl as [|c l (tc & p & Hc & Hp) _ (amounts & H1 & H2)].
      - exists []. split; constructor.
      - exists (amount tc :: amounts). split; constructor; try assumption.
        + rewrite Hc. reflexivity.
        + rewrite (Hs2 p c tc Hc Hp). reflexivity. }
    apply Hgen, Hall. }
  exists kept, amounts, s1, s2.
  split.
  { unfold Scenario_gatherTransactions. rewrite Hsc.
    erewrite bind_Returns by exact Hg1. reflexivity. }
  split; [exact Hrun|]. split.
  { intros c. rewrite Hkept. split.
    - intros [Hin (t & Ht & HP)]. split; [exact Hin|].
      rewrite Forall_forall in Hbl. destruct (Hbl c) as (tc & Htc & _ & Hp & _);
        [apply list_elem_of_In; exact Hin|].
      rewrite (Hs2 _ c tc Htc Hp) in Ht. injection Ht as <-.
      exists tc. split; [exact Htc|]. unfold P in HP.
      apply orb_true_iff in HP. destruct HP as [HP|HP]; [left; exact HP|].
      apply andb_true_iff in HP. destruct HP as [_ HP]. right.
      intros c' tc' Hc' Htc' E. apply negb_true_iff in HP.
      assert (includes ids (series tc) = true); [|congruence].
      apply includes_In. unfold ids. apply uniq_series_In. split; [|intros []].
      rewrite <- E. apply in_map.
      apply list_elem_of_In in Hc'. apply list_elem_of_lookup_1 in Hc'.
      destruct Hc' as [i Hi].
      destruct (Forall2_lookup_l _ _ _ _ _ Hots Hi) as (t' & Hi' & Ht').
      rewrite Htc' in Ht'. injection Ht' as <-.
      apply list_elem_of_In. eapply list_elem_of_lookup_2. exact Hi'.
    - intros [Hin (tc & Htc & Hor')]. split; [exact Hin|].
      rewrite Forall_forall in Hbl. destruct (Hbl c) as (tc' & Htc' & _ & Hp & _);
        [apply list_elem_of_In; exact Hin|].
      rewrite Htc in Htc'. injection Htc' as <-.
      exists tc. split; [eapply Hs2; eassumption|]. unfold P.
      rewrite js_ge_not_lt.
      destruct (js_lt (of_date (startDate tc)) (VDate (sc_startDate sc))) eqn:Elt;
        [reflexivity|].
      destruct Hor' as [Hb|Hno]; [unfold starts_before in Hb; congruence|].
      cbn [orb andb negb]. apply negb_true_iff.
      destruct (includes ids (series tc)) eqn:Ei; [|reflexivity]. exfalso.
      apply includes_In in Ei. unfold ids in Ei. apply uniq_series_In in Ei.
      destruct Ei as [Ei _]. apply in_map_iff in Ei. destruct Ei as (t' & Eser & Hin').
      apply list_elem_of_In in Hin'. apply list_elem_of_lookup_1 in Hin'.
      destruct Hin' as [i Hi].
      destruct (Forall2_lookup_r _ _ _ _ _ Hots Hi) as (c' & Hc' & Hlook).
      apply (Hno c' t'); [|exact Hlook | exact Eser].
      apply list_elem_of_In. eapply list_elem_of_lookup_2. exact Hc'. }
  split; [exact Hamounts|]. split.
  - unfold Scenario_getValueOnDate. erewrite bind_Returns by exact Hrun. cbv iota.
    apply lodash_sum_of_amounts. exact Hamounts2.
  - unfold generateScenarioPath. erewrite bind_Returns by exact Hrun. reflexivity.
Qed.

Lemma fork_store_leaves :
  Forall (one_time_leaf_of (heap fork_store) 2%nat) [3%nat]
  /\ Forall (one_time_leaf_of (heap fork_store) 0%nat) [1%nat].
Proof.
  split; (constructor; [|constructor]); eexists;
    (split; [reflexivity|]); repeat split; reflexivity.
Qed.

Lemma scenario_replaces_the_base_by_series_witness :
  exists (kept : list nat) (amounts : list jsnum) (s1 s' : State),
    Scenario_gatherTransactions 2 fork 0%nat true fork_store
    = Returns (GArray [3%nat]) s1
    /\ Scenario_gatherTransactions 2 fork 0%nat false fork_store
       = Returns (GArray ([3%nat] ++ kept)) s'
    /\ (forall c,
          In c kept <->
          In c [1%nat]
          /\ exists tc, heap fork_store !! c = Some tc
                        /\ (starts_before fork tc
                            \/ no_counterpart (heap fork_store) [3%nat] tc))
    /\ Forall2 (fun c a => amount <$> heap fork_store !! c = Some a) ([3%nat] ++ kept)
         amounts
    /\ Scenario_getValueOnDate 2 fork 0%nat fork_store = Returns (lodash_sum amounts) s'
    /\ generateScenarioPath 2 fork 0%nat fork_store
       = generatePath 2 0%nat 0%nat (Some ([3%nat] ++ kept)) s'.
Proof.
  apply (scenario_replaces_the_base_by_series 0 fork_store fork 2%nat fork_root
           (node (JNum 7) [1%nat] None) 0%nat);
    [reflexivity | reflexivity | reflexivity | discriminate | reflexivity | reflexivity
    | discriminate | discriminate | exact (proj1 fork_store_leaves)
    | exact (proj2 fork_store_leaves)].
Defined.

(** ** The first transaction of a scenario *)

Lemma tree_shaped_same_children (rank : ref -> nat) (h : list Transaction) (r : ref)
  (t t' : Transaction) :
  tree_shaped rank h -> h !! r = Some t -> children t' = children t ->
  tree_shaped rank (<[r := t']> h).
Proof.
  intros Htree Ht Hc x tx c Hx Hin.
  assert (r < length h)%nat as Hlt by (eapply lookup_lt_Some; exact Ht).
  assert (forall y, is_Some (h !! y) -> is_Some (<[r := t']> h !! y)) as Hvalid.
  { intros y Hy. apply lookup_lt_is_Some. rewrite length_insert.
    apply lookup_lt_is_Some. exact Hy. }
  destruct (Nat.eq_dec x r) as [->|Hne].
  - rewrite list_lookup_insert_eq in Hx by exact Hlt. injection Hx as <-.
    rewrite Hc in Hin. destruct (Htree r t c Ht Hin) as [H1 H2]. auto.
  - rewrite list_lookup_insert_ne in Hx by congruence.
    destruct (Htree x tx c Hx Hin) as [H1 H2]. auto.
Qed.

Lemma one_time_leaf_is_not_the_root (h : list Transaction) (p c : ref)
  (pt : Transaction) :
  h !! p = Some pt -> parentTransaction pt = None -> one_time_leaf_of h p c -> c <> p.
Proof.
  intros Hp Hroot (tc & Hc & _ & Hpar & _) ->. rewrite Hp in Hc. injection Hc as <-.
  congruence.
Qed.

Lemma dated_frame (h : list Transaction) (r : ref) (t' : Transaction) (l : list ref)
  (das : list (Z * jsnum)) :
  Forall (fun c => c <> r) l ->
  Forall2 (dated h) l das -> Forall2 (dated (<[r := t']> h)) l das.
Proof.
  intros Hne H. induction H as [|c da l das (tc & d & Hc & Hd & ->) _ IH];
    [constructor|].
  inversion Hne as [|? ? Hc' Hl]; subst. constructor; [|apply IH; exact Hl].
  exists tc, d. split; [|auto]. rewrite list_lookup_insert_ne by congruence. exact Hc.
Qed.

(** X22: [new Scenario(...)] over a base that is a root of one-time
    transactions. The scenario's tree is a new root with one child, the
    'Scenario Initial Amount', a one-time transaction on the scenario's
    start date. Its amount is the value of all the transactions of the
    base, also of those dated on the start date or after it; it is null
    when that value is 0. *)
Theorem new_Scenario_counts_the_whole_base (rank : nat -> nat) (fuel : nat)
  (s : State) (startDate_ : Date) (name : option string) (blob : Blob) (base : nat)
  (t : Transaction) (das : list (Z * jsnum))
  (Ht : heap s !! base = Some t)
  (Hroot : parentTransaction t = None)
  (Hcs : children t <> [])
  (Hleaves : Forall (one_time_leaf_of (heap s) base) (children t))
  (Hdated : Forall2 (dated (heap s)) (children t) das)
  (Htree : tree_shaped rank (heap s))
  (Hrank : (rank (length (heap s)) <= fuel)%nat) :
  exists (troot tchild : Transaction) (s' : State),
    new_Scenario (S (S fuel)) startDate_ name blob base s
    = Returns (mkScenario name startDate_ (Some (length (heap s))) base) s'
    /\ heap s' !! length (heap s) = Some troot
    /\ parentTransaction troot = None
    /\ children troot = [S (length (heap s))]
    /\ amount troot = JNum (lodash_sum [amount tchild])
    /\ heap s' !! S (length (heap s)) = Some tchild
    /\ parentTransaction tchild = Some (length (heap s))
    /\ children tchild = []
    /\ description tchild = Some "Scenario Initial Amount"%string
    /\ frequency tchild = "none"%string
    /\ growth tchild = JNull
    /\ date_day <$> startDate tchild = Some (date_day startDate_)
    /\ amount tchild = or_null (JNum (value_of_days das)).
Proof.
  set (L := length (heap s)).
  assert (base < L)%nat as Hlt by (eapply lookup_lt_Some; exact Ht).
  set (s1 := mkState (heap s) (boundsHeap s) (S (nextDate s)) (nextUuid s) (today s)).
  destruct (new_Transaction_constructed blob s1)
    as (sr & sd & ed & s2 & Hnew & Hheap2 & _).
  destruct (new_Transaction_spec blob s1)
    as (nr' & s2' & Hnew' & _ & Hb2 & _).
  rewrite Hnew in Hnew'. injection Hnew' as <-.
  cbn [heap boundsHeap s1] in Hheap2, Hb2.
  set (nr := constructed blob sr sd ed) in *.
  set (B := length (boundsHeap s2)).
  set (s3 := mkState (heap s2) (boundsHeap s2 ++ [mkBounds VUndefined VUndefined])
               (nextDate s2) (nextUuid s2) (today s2)).
  set (s3' := mkState (heap s2)
                (<[B := mkBounds VUndefined VObject]> (boundsHeap s3))
                (nextDate s2) (nextUuid s2) (today s2)).
  set (s4 := with_object s3' base (set_accumulator (children t) t)).
  assert (heap s3' !! base = Some t) as Ht3.
  { unfold s3'. cbn [heap]. rewrite Hheap2. rewrite lookup_app_l by exact Hlt. exact Ht. }
  assert (forall c tc, heap s !! c = Some tc -> heap s3' !! c = Some tc) as Hold.
  { intros c tc Hc. unfold s3'. cbn [heap]. rewrite Hheap2.
    rewrite lookup_app_l by (eapply lookup_lt_Some; exact Hc). exact Hc. }
  assert (Forall (one_time_leaf_of (heap s3') base) (children t)) as Hleaves3.
  { eapply Forall_impl; [exact Hleaves|]. intros c (tc & Hc & H).
    exists tc. split; [apply Hold; exact Hc | exact H]. }
  assert (valueOnDate (S (S fuel)) base VObject B None s3
          = Returns (value_of_days das) s4) as Hvalue.
  { unfold valueOnDate.
    erewrite bind_Returns; cycle 1.
    { apply update_bounds_Returns. unfold s3. cbn [boundsHeap].
      apply list_lookup_middle. reflexivity. }
    erewrite bind_Returns; cycle 1.
    { apply (gather_one_time_root fuel s3' base B t Ht3 Hroot Hcs Hleaves3). }
    cbv iota beta. unfold daily_values.
    erewrite bind_Returns; cycle 1.
    { erewrite bind_Returns; [reflexivity|].
      apply dated_amounts_Returns. unfold s4. cbn [heap with_object].
      apply dated_frame.
      - eapply Forall_impl; [exact Hleaves|]. intros c Hc.
        exact (one_time_leaf_is_not_the_root (heap s) base c t Ht Hroot Hc).
      - eapply Forall2_impl; [exact Hdated|]. intros c da (tc & d & Hc & Hd & ->).
        exists tc, d. split; [apply Hold; exact Hc | auto]. }
    reflexivity. }
  (* the child *)
  set (blob' := initial_amount_blob startDate_ (value_of_days das)).
  assert (heap s4 = <[base := set_accumulator (children t) t]> (heap s ++ [nr])) as Hheap4.
  { unfold s4, s3'. cbn [heap with_object]. rewrite Hheap2. reflexivity. }
  assert (heap s4 !! L = Some nr) as HL4.
  { rewrite Hheap4. rewrite list_lookup_insert_ne by lia.
    apply list_lookup_middle. reflexivity. }
  assert (length (heap s4) = S L) as Hlen4.
  { rewrite Hheap4, length_insert, length_app. simpl. lia. }
  assert (tree_shaped rank (heap s4)) as Htree4.
  { rewrite Hheap4.
    apply (tree_shaped_same_children rank (heap s ++ [nr]) base t);
      [|rewrite lookup_app_l by exact Hlt; exact Ht | reflexivity].
    apply tree_shaped_new_leaf; [exact Htree | reflexivity]. }
  destruct (addChild_store rank (S fuel) s4 L (Plain blob') blob' nr HL4 eq_refl Htree4)
    as (t0 & s0 & s5 & vs & Hrun & Hnew5 & Hheap0 & _ & Hvs & Hroot5 & Hchild5 & _);
    [unfold L; lia | reflexivity|].
  destruct (new_Transaction_constructed blob' s4)
    as (sr' & sd' & ed' & s0' & Hnew5' & Hheap0' & Hsd' & _).
  rewrite Hnew5 in Hnew5'. injection Hnew5' as <-. rewrite Hheap0 in Hheap0'.
  apply app_inv_head in Hheap0'. injection Hheap0' as ->.
  inversion Hvs; subst. rewrite Hlen4 in Hroot5, Hchild5, Hrun.
  exists (set_amount
       (JNum (lodash_sum ([] ++ [amount (constructed blob' sr' sd' ed')])))
       (set_children (children nr ++ [S L]) nr)),
    (as_child_of L nr (constructed blob' sr' sd' ed')), s5. split.
  { unfold new_Scenario.
    erewrite bind_Returns by reflexivity.
    erewrite bind_Returns by exact Hnew.
    erewrite bind_Returns by reflexivity.
    fold B s3.
    erewrite bind_Returns by exact Hvalue.
    erewrite bind_Returns by exact Hrun. reflexivity. }
  split; [exact Hroot5|]. split; [reflexivity|]. split; [reflexivity|].
  split; [reflexivity|]. split; [exact Hchild5|].
  split; [reflexivity|]. split; [reflexivity|]. split; [reflexivity|].
  split; [reflexivity|]. split; [reflexivity|]. split; [exact Hsd'|]. reflexivity.
Qed.

Lemma new_Scenario_counts_the_whole_base_witness :
  exists (troot tchild : Transaction) (s' : State),
    new_Scenario 3 (mkDate 5 10) (Some "what if"%string)
      (mkBlob JUndefined None JUndefined None None None None None) 0%nat fork_store
    = Returns (mkScenario (Some "what if"%string) (mkDate 5 10) (Some 4%nat) 0%nat) s'
    /\ heap s' !! 4%nat = Some troot
    /\ parentTransaction troot = None
    /\ children troot = [5%nat]
    /\ amount troot = JNum (lodash_sum [amount tchild])
    /\ heap s' !! 5%nat = Some tchild
    /\ parentTransaction tchild = Some 4%nat
    /\ children tchild = []
    /\ description tchild = Some "Scenario Initial Amount"%string
    /\ frequency tchild = "none"%string
    /\ growth tchild = JNull
    /\ date_day <$> startDate tchild = Some 10
    /\ amount tchild = JNum 7.
Proof.
  apply (new_Scenario_counts_the_whole_base fork_rank 1 fork_store (mkDate 5 10)
           (Some "what if"%string)
           (mkBlob JUndefined None JUndefined None None None None None) 0%nat
           (node (JNum 7) [1%nat] None) [(20, JNum 7)]);
    [reflexivity | reflexivity | discriminate | exact (proj2 fork_store_leaves)
    | constructor; [|constructor]; exists base_child, (mkDate 0 20);
      repeat split; reflexivity
    | exact fork_store_tree_shaped | simpl; lia].
Defined.

(** ** Removing from a scenario *)

(** X20: [removeTransactionFromScenario], of every transaction. One that has
    a parent is taken out of its parent's children, as by
    [commitSuicide], and the scenario stays as it is. For one without a
    parent, be it the root of the scenario's tree or not, the scenario
    loses its tree, and from then on [gatherTransactions],
    [getValueOnDate] and [generateScenarioPath] throw a TypeError. *)
Theorem removing_a_root_empties_the_scenario (s : State) (sc : Scenario)
  (transaction : nat) (t : Transaction)
  (Ht : heap s !! transaction = Some t) :
  (parentTransaction t = None ->
   removeTransactionFromScenario sc transaction s = Returns (emptied sc) s
   /\ forall fuel bounds scenarioOnly s0,
        Scenario_gatherTransactions fuel (emptied sc) bounds scenarioOnly s0
        = Throws TypeError
        /\ Scenario_getValueOnDate fuel (emptied sc) bounds s0 = Throws TypeError
        /\ generateScenarioPath fuel (emptied sc) bounds s0 = Throws TypeError)
  /\ forall (p : nat) (pt : Transaction),
       parentTransaction t = Some p ->
       heap s !! p = Some pt ->
       removeTransactionFromScenario sc transaction s
       = Returns sc
           (with_object s p (set_children (remove_first transaction (children pt)) pt)).
Proof.
  split.
  - intros Hp. split.
    + unfold removeTransactionFromScenario.
      erewrite bind_Returns by (apply load_Returns; exact Ht). rewrite Hp. reflexivity.
    + intros fuel bounds scenarioOnly s0. repeat split; reflexivity.
  - intros p pt Hp Hpt. unfold removeTransactionFromScenario.
    erewrite bind_Returns by (apply load_Returns; exact Ht). rewrite Hp.
    erewrite bind_Returns by (apply (commitSuicide_Returns s transaction p t pt); assumption).
    reflexivity.
Qed.

Lemma removing_a_root_empties_the_scenario_witness :
  (parentTransaction (node (JNum 7) [1%nat] None) = None ->
   removeTransactionFromScenario fork 0%nat fork_store = Returns (emptied fork) fork_store
   /\ forall fuel bounds scenarioOnly s0,
        Scenario_gatherTransactions fuel (emptied fork) bounds scenarioOnly s0
        = Throws TypeError
        /\ Scenario_getValueOnDate fuel (emptied fork) bounds s0 = Throws TypeError
        /\ generateScenarioPath fuel (emptied fork) bounds s0 = Throws TypeError)
  /\ forall (p : nat) (pt : Transaction),
       parentTransaction (node (JNum 7) [1%nat] None) = Some p ->
       heap fork_store !! p = Some pt ->
       removeTransactionFromScenario fork 0%nat fork_store
       = Returns fork
           (with_object fork_store p
              (set_children (remove_first 0%nat (children pt)) pt)).
Proof.
  apply (removing_a_root_empties_the_scenario fork_store fork 0%nat
           (node (JNum 7) [1%nat] None)).
  reflexivity.
Defined.
